(** * Sample-name cleaning, grouping and metric aggregation of MultiQC

    A shallow embedding of the helper methods of [BaseMultiqcModule]
    (src/multiqc/base_module.py): [_clean_fastq_pair], [clean_s_name],
    [groups_for_sample], [group_samples_names] and
    [group_samples_and_average_metrics], followed by the properties the
    specification states about them. The methods [is_ignore_sample],
    [ignore_samples], [write_data_file] and [general_stats_addcols] of the
    same class and the initialiser of the RSeQC module
    (src/multiqc/modules/rseqc/rseqc.py) are embedded after them, with
    properties read off the code.

    Conventions of the embedding.
    - A Python [str] is a [string]; a character is a code point below 256.
    - A raised exception is the [Raise] case of [result]; calls are chained
      with the monadic bind of [result], so that the first exception raised
      in evaluation order is the one returned.
    - A Python [float] is a primitive binary64 float; an [int] is a [Z].
    - A [dict] whose iteration order the code depends on is an insertion
      ordered association list ([odict]); a dict that is only looked up (a
      row of metrics, the table of rows by sample) is a [gmap].
    - Calls to [logger] have no effect on the values computed and are left
      out.
    - A loop that Python runs until a condition fails is a function with
      fuel, [None] when the fuel runs out; the theorems about it give the
      fuel that is enough. *)

From Stdlib Require Import ZArith Floats Ascii String.
From stdpp Require Import gmap strings list sorting pretty.

Local Open Scope string_scope.
Local Open Scope list_scope.

(** ** Exceptions *)

(** The exceptions of Python that the code meets. [NotModelled] is not one
    of them: it is what a call to the [re] module comes to when the pattern
    or the replacement template is outside the fragment the embedding
    interprets (see [Re]); the embedding then says nothing of what Python
    does, and no property is drawn from it. *)
Inductive exn :=
  | ValueError (msg : string)
  | KeyError (key : string)
  | TypeError
  | OverflowError
  | ZeroDivisionError
  | ReError
  | NotModelled.

Inductive result (A : Type) :=
  | Ok (a : A)
  | Raise (e : exn).
Arguments Ok {A} a.
Arguments Raise {A} e.

Global Instance result_ret : MRet result := fun A a => Ok a.
Global Instance result_bind : MBind result := fun A B f r =>
  match r with
  | Ok a => f a
  | Raise e => Raise e
  end.

(** [for x in l: acc = body(acc, x)], stopping at the first exception. *)
Fixpoint for_each {A S : Type} (body : S -> A -> result S) (l : list A) (acc : S)
  : result S :=
  match l with
  | [] => Ok acc
  | x :: l' => acc' ← body acc x; for_each body l' acc'
  end.

(** [[f(x) for x in l]], stopping at the first exception. *)
Fixpoint map_result {A B : Type} (f : A -> result B) (l : list A) : result (list B) :=
  match l with
  | [] => Ok []
  | x :: l' => y ← f x; ys ← map_result f l'; Ok (y :: ys)
  end.

Definition is_ok {A : Type} (r : result A) : bool :=
  match r with Ok _ => true | Raise _ => false end.

(** ** Python strings *)

Module Py.

Definition len (s : string) : nat := String.length s.

(** [s.startswith(p)] *)
Definition startswith (s p : string) : bool := String.prefix p s.

(** [s[n:]] for [0 <= n] *)
Fixpoint drop (n : nat) (s : string) : string :=
  match n, s with
  | O, _ => s
  | S n', String _ s' => drop n' s'
  | S _, EmptyString => EmptyString
  end.

(** [s[:n]] for [0 <= n] *)
Fixpoint take (n : nat) (s : string) : string :=
  match n, s with
  | O, _ => EmptyString
  | S n', String c s' => String c (take n' s')
  | S _, EmptyString => EmptyString
  end.

(** [s.endswith(p)] *)
Definition endswith (s p : string) : bool :=
  (len p <=? len s)%nat && String.eqb (drop (len s - len p) s) p.

(** [s[:-n]]: Python reads [-0] as [0], so [s[:-0]] is the empty string. *)
Definition drop_last (n : nat) (s : string) : string :=
  match n with
  | O => EmptyString
  | S _ => take (len s - n) s
  end.

(** [sub in s] *)
Fixpoint contains (sub s : string) : bool :=
  String.prefix sub s ||
  match s with
  | EmptyString => false
  | String _ s' => contains sub s'
  end.

(** The text of [s] before the first occurrence of the non-empty [sep],
    all of [s] when there is none. *)
Fixpoint before_first (sep s : string) : string :=
  match s with
  | EmptyString => EmptyString
  | String c s' =>
      if String.prefix sep s then EmptyString else String c (before_first sep s')
  end.

(** [s.split(sep, 1)[0]]; [str.split] raises on an empty separator. *)
Definition split1_head (s sep : string) : result string :=
  match sep with
  | EmptyString => Raise (ValueError "empty separator")
  | _ => Ok (before_first sep s)
  end.

(** [s.replace(old, new)] for a non-empty [old]: occurrences are found from
    left to right and do not overlap; [skip] counts the characters of the
    occurrence being replaced that are still to be passed over. *)
Fixpoint replace_go (old new : string) (skip : nat) (s : string) : string :=
  match s with
  | EmptyString => EmptyString
  | String c s' =>
      match skip with
      | S k => replace_go old new k s'
      | O =>
          if String.prefix old s
          then new ++ replace_go old new (len old - 1) s'
          else String c (replace_go old new 0 s')
      end
  end.

(** [s.replace("", new)] puts [new] before every character and at the end. *)
Fixpoint intersperse (new s : string) : string :=
  match s with
  | EmptyString => new
  | String c s' => new ++ String c (intersperse new s')
  end.

(** [s.replace(old, new)] *)
Definition replace (s old new : string) : string :=
  match old with
  | EmptyString => intersperse new s
  | _ => replace_go old new 0 s
  end.

(** [c.isspace()] for a code point below 256. *)
Definition isspace (c : ascii) : bool :=
  let n := nat_of_ascii c in
  ((9 <=? n) && (n <=? 13) || (28 <=? n) && (n <=? 32)
   || (n =? 133) || (n =? 160))%nat.

Fixpoint lstrip (s : string) : string :=
  match s with
  | EmptyString => EmptyString
  | String c s' => if isspace c then lstrip s' else s
  end.

(** [s.rstrip()]: a character is kept when something is kept after it or
    when it is not a space. *)
Fixpoint rstrip (s : string) : string :=
  match s with
  | EmptyString => EmptyString
  | String c s' =>
      match rstrip s' with
      | EmptyString => if isspace c then EmptyString else String c EmptyString
      | r => String c r
      end
  end.

(** [s.strip()] *)
Definition strip (s : string) : string := rstrip (lstrip s).

(** [sep.join(l)] *)
Fixpoint join (sep : string) (l : list string) : string :=
  match l with
  | [] => EmptyString
  | [x] => x
  | x :: l' => x ++ sep ++ join sep l'
  end.

(** [s.split(sep)] for a one-character separator. *)
Fixpoint split_char (sep : ascii) (s : string) : list string :=
  match s with
  | EmptyString => [EmptyString]
  | String c s' =>
      if Ascii.eqb c sep then EmptyString :: split_char sep s'
      else
        match split_char sep s' with
        | [] => [String c EmptyString]
        | w :: ws => String c w :: ws
        end
  end.

(** [os.path.basename(p)] (POSIX): what follows the last slash. *)
Definition basename (p : string) : string :=
  List.last (split_char "/" p) EmptyString.

(** [pathlib.Path(p).parts] (POSIX): the components between slashes,
    without the empty ones and the single dots; an absolute path starts
    with the part ["/"] (["//"] when [p] starts with exactly two slashes). *)
Definition path_anchor (p : string) : list string :=
  match p with
  | String "/" (String "/" (String "/" _)) => ["/"]
  | String "/" (String "/" _) => ["//"]
  | String "/" _ => ["/"]
  | _ => []
  end.

Definition path_parts (p : string) : list string :=
  path_anchor p ++
  List.filter (fun d => negb (String.eqb d EmptyString || String.eqb d "."))
              (split_char "/" p).

(** [l[-n:]] for [n > 0]: the last [n] elements. *)
Definition last_n {A : Type} (n : nat) (l : list A) : list A :=
  List.skipn (List.length l - n) l.

End Py.

(** ** Regular expressions

    The calls to Python's [re] module ([re.sub], [re.search], [re.fullmatch],
    [re.match]) are interpreted by a backtracking matcher over a fragment of
    the pattern syntax: literals, [.], [^], [$], the classes [\d \w \s] and
    their complements, bracket sets with ranges, capturing groups,
    alternation and the quantifiers [* + ? {n} {n,} {,m} {n,m}], greedy or
    lazy, applied to an expression that cannot match the empty string.

    A call has one of three outcomes. [Ok] and [Raise ReError] are what
    Python returns and the [re.error] it raises. [Raise NotModelled] says
    that the pattern or the replacement template is outside the fragment:
    flags, groups that start with [(?], back references and group
    references in a template, the escapes [\b \B \A \Z \x \u \U \N] and
    those made of digits, a negated class inside a set, possessive
    quantifiers, the repetition of an expression that may match the empty
    string, counts of more than 16 bits and groups nested more than ten
    deep. The properties below are about calls inside the fragment; what
    Python does outside it (a result, [re.error], [IndexError] for an
    unknown group name, [OverflowError] for a count of 32 bits) is not
    stated. Groups do not capture, which changes nothing to what is matched
    inside the fragment. *)

Module Re.

Inductive regex :=
  | Eps
  | Chr (c : ascii)
  | Dot
  | CSet (neg : bool) (ranges : list (ascii * ascii))
  | Bol
  | Eol
  | Seq (r1 r2 : regex)
  | Alt (r1 r2 : regex)
  | Grp (r : regex)
  | Rep (lo : nat) (hi : option nat) (greedy : bool) (r : regex).

Definition in_range (c : ascii) (rg : ascii * ascii) : bool :=
  ((nat_of_ascii rg.1 <=? nat_of_ascii c) && (nat_of_ascii c <=? nat_of_ascii rg.2))%nat.

Definition in_set (neg : bool) (ranges : list (ascii * ascii)) (c : ascii) : bool :=
  xorb neg (List.existsb (in_range c) ranges).

Definition newline : ascii := ascii_of_nat 10.

Definition or_else {R : Type} (a b : option R) : option R :=
  match a with Some x => Some x | None => b end.

Definition dec_hi (hi : option nat) : option nat :=
  match hi with Some h => Some (Nat.pred h) | None => None end.

(** [rmatch r pos s k]: match [r] at the head of [s], which starts at offset
    [pos] of the subject, and hand the offset and the text after the match
    to [k]; alternatives are tried in the order of Python's matcher (left
    branch first, greedy repetitions longest first), the next one when [k]
    refuses. An iteration of a repetition beyond its minimum has to consume
    a character, which every iteration does in an expression that [compile]
    returns: a repeated expression cannot match the empty string there. *)
Fixpoint rmatch {R : Type} (r : regex) (pos : nat) (s : string)
         (k : nat -> string -> option R) {struct r} : option R :=
  match r with
  | Eps => k pos s
  | Chr c =>
      match s with
      | String c' s' => if Ascii.eqb c c' then k (S pos) s' else None
      | EmptyString => None
      end
  | Dot =>
      match s with
      | String c' s' => if Ascii.eqb c' newline then None else k (S pos) s'
      | EmptyString => None
      end
  | CSet neg ranges =>
      match s with
      | String c' s' => if in_set neg ranges c' then k (S pos) s' else None
      | EmptyString => None
      end
  | Bol => match pos with O => k pos s | S _ => None end
  | Eol =>
      match s with
      | EmptyString => k pos s
      | String c' EmptyString => if Ascii.eqb c' newline then k pos s else None
      | _ => None
      end
  | Seq r1 r2 => rmatch r1 pos s (fun pos' s' => rmatch r2 pos' s' k)
  | Alt r1 r2 => or_else (rmatch r1 pos s k) (rmatch r2 pos s k)
  | Grp r' => rmatch r' pos s k
  | Rep lo hi greedy r' =>
      (fix loop (fuel lo : nat) (hi : option nat) (pos : nat) (s : string)
           {struct fuel} : option R :=
         match fuel with
         | O => None
         | S fuel' =>
             match lo with
             | S lo' =>
                 rmatch r' pos s (fun pos' s' => loop fuel' lo' (dec_hi hi) pos' s')
             | O =>
                 match hi with
                 | Some O => k pos s
                 | _ =>
                     let more :=
                       rmatch r' pos s (fun pos' s' =>
                         if (pos <? pos')%nat then loop fuel' O (dec_hi hi) pos' s'
                         else None) in
                     if greedy then or_else more (k pos s) else or_else (k pos s) more
                 end
             end
         end) (lo + Py.len s + 1)%nat lo hi pos s
  end.

(** The leftmost match at or after offset [pos]: its start, its end and the
    text after it. With [must_advance] an empty match at [pos] itself is
    refused (the matcher was left there by an empty match). *)
Fixpoint search_from (r : regex) (must_advance : bool) (pos : nat) (s : string)
  : option (nat * nat * string) :=
  match rmatch r pos s (fun e s' =>
          if must_advance && (e =? pos)%nat then None else Some (e, s')) with
  | Some (e, s') => Some (pos, e, s')
  | None =>
      match s with
      | EmptyString => None
      | String _ s' => search_from r false (S pos) s'
      end
  end.

(** The loop of [re.sub] with [count = 0]: every match found from left to
    right is replaced, the search resuming where the last match ended. *)
Fixpoint sub_go (fuel : nat) (r : regex) (repl : string) (must_advance : bool)
         (pos : nat) (s : string) : string :=
  match fuel with
  | O => s
  | S fuel' =>
      match search_from r must_advance pos s with
      | None => s
      | Some (b, e, s') =>
          Py.take (b - pos) s ++ repl ++ sub_go fuel' r repl (e =? b)%nat e s'
      end
  end.

Definition sub_regex (r : regex) (repl s : string) : string :=
  sub_go (2 * Py.len s + 2) r repl false 0 s.

Definition search_regex (r : regex) (s : string) : option string :=
  match search_from r false 0 s with
  | Some (b, e, _) => Some (Py.take (e - b) (Py.drop b s))
  | None => None
  end.

Definition fullmatch_regex (r : regex) (s : string) : bool :=
  match rmatch r 0 s (fun _ s' =>
          match s' with EmptyString => Some tt | _ => None end) with
  | Some _ => true
  | None => false
  end.

(** *** Reading a pattern

    The pattern is read from left to right as [re._parser] reads it, so
    that the first thing met that Python refuses gives [ReError], and the
    first thing met that is outside the fragment gives [NotModelled]. *)

Definition bad {A : Type} : result A := Raise ReError.
Definition outside {A : Type} : result A := Raise NotModelled.

Definition rg (a b : string) : ascii * ascii :=
  match a, b with
  | String x _, String y _ => (x, y)
  | _, _ => (zero, zero)
  end.

Definition one (c : ascii) : ascii * ascii := (c, c).

Definition digit_ranges : list (ascii * ascii) := [rg "0" "9"].

(** [str.isspace]: 9-13, 28-32, 133, 160. *)
Definition space_ranges : list (ascii * ascii) :=
  [(ascii_of_nat 9, ascii_of_nat 13); (ascii_of_nat 28, ascii_of_nat 32);
   one (ascii_of_nat 133); one (ascii_of_nat 160)].

(** [str.isalnum] or the underscore, below 256. *)
Definition word_ranges : list (ascii * ascii) :=
  [rg "0" "9"; rg "A" "Z"; rg "a" "z"; rg "_" "_";
   one (ascii_of_nat 170); (ascii_of_nat 178, ascii_of_nat 179);
   one (ascii_of_nat 181); (ascii_of_nat 185, ascii_of_nat 186);
   (ascii_of_nat 188, ascii_of_nat 190); (ascii_of_nat 192, ascii_of_nat 214);
   (ascii_of_nat 216, ascii_of_nat 246); (ascii_of_nat 248, ascii_of_nat 255)].

Definition is_digit (c : ascii) : bool := in_range c (rg "0" "9").
Definition is_letter (c : ascii) : bool :=
  in_range c (rg "a" "z") || in_range c (rg "A" "Z").

Definition digit_val (c : ascii) : N := N.of_nat (nat_of_ascii c - 48).

(** The character a backslash followed by the letter [c] stands for, in a
    pattern. *)
Definition control_escape (c : ascii) : option ascii :=
  if Ascii.eqb c "n" then Some (ascii_of_nat 10)
  else if Ascii.eqb c "t" then Some (ascii_of_nat 9)
  else if Ascii.eqb c "r" then Some (ascii_of_nat 13)
  else if Ascii.eqb c "f" then Some (ascii_of_nat 12)
  else if Ascii.eqb c "v" then Some (ascii_of_nat 11)
  else if Ascii.eqb c "a" then Some (ascii_of_nat 7)
  else None.

(** A class escape, as the ranges it covers. *)
Definition class_escape (c : ascii) : option (bool * list (ascii * ascii)) :=
  if Ascii.eqb c "d" then Some (false, digit_ranges)
  else if Ascii.eqb c "D" then Some (true, digit_ranges)
  else if Ascii.eqb c "w" then Some (false, word_ranges)
  else if Ascii.eqb c "W" then Some (true, word_ranges)
  else if Ascii.eqb c "s" then Some (false, space_ranges)
  else if Ascii.eqb c "S" then Some (true, space_ranges)
  else None.

(** The escapes that Python reads and the fragment leaves out: a character
    given by its code ([\x], [\u], [\U], [\N], a digit, which may also be a
    group reference) and [\b]. *)
Definition coded_escape (c : ascii) : bool :=
  is_digit c || List.existsb (Ascii.eqb c) ["b"; "x"; "u"; "U"; "N"]%char.

(** Outside a set, also the anchors [\A], [\Z] and [\B]. *)
Definition anchor_escape (c : ascii) : bool :=
  List.existsb (Ascii.eqb c) ["A"; "Z"; "B"]%char.

(** What follows a backslash outside a bracket set. Any other letter is a
    bad escape; any other character stands for itself. *)
Definition parse_escape (s : string) : result (regex * string) :=
  match s with
  | EmptyString => bad
  | String c s' =>
      match class_escape c with
      | Some (neg, ranges) => Ok (CSet neg ranges, s')
      | None =>
          match control_escape c with
          | Some x => Ok (Chr x, s')
          | None =>
              if coded_escape c || anchor_escape c then outside
              else if is_letter c then bad
              else Ok (Chr c, s')
          end
      end
  end.

(** One member of a bracket set: a class or a character, possibly escaped.
    A negated class in a set is outside the fragment. *)
Definition parse_set_char (s : string)
  : result ((list (ascii * ascii) + ascii) * string) :=
  match s with
  | EmptyString => bad
  | String "\" EmptyString => bad
  | String "\" (String c s') =>
      match class_escape c with
      | Some (false, ranges) => Ok (inl ranges, s')
      | Some (true, _) => outside
      | None =>
          match control_escape c with
          | Some x => Ok (inr x, s')
          | None =>
              if coded_escape c then outside
              else if is_letter c then bad
              else Ok (inr c, s')
          end
      end%string
  | String c s' => Ok (inr c, s')
  end.

Definition member_ranges (m : list (ascii * ascii) + ascii) : list (ascii * ascii) :=
  match m with
  | inl ranges => ranges
  | inr c => [one c]
  end.

(** The members of a bracket set up to the closing bracket; [first] is set
    at the first member, where a closing bracket is an ordinary character.
    A hyphen after a member makes a range with the member that follows,
    unless the set ends there; the two ends of a range are characters, in
    order. *)
Fixpoint parse_set_items (fuel : nat) (first : bool) (s : string)
  : result (list (ascii * ascii) * string) :=
  match fuel with
  | O => outside
  | S fuel' =>
      match s with
      | EmptyString => bad
      | String c s' =>
          if Ascii.eqb c "]" && negb first then Ok ([], s')
          else
            '(m, s1) ← (if Ascii.eqb c "]" then Ok (inr c, s') else parse_set_char s);
            match s1 with
            | String "-" EmptyString => bad
            | String "-" (String c2 s2) =>
                if Ascii.eqb c2 "]" then Ok (member_ranges m ++ [one "-"%char], s2)
                else
                  '(m2, s3) ← parse_set_char (String c2 s2);
                  match m, m2 with
                  | inr lo, inr hi =>
                      if (nat_of_ascii hi <? nat_of_ascii lo)%nat then bad
                      else
                        '(items, s4) ← parse_set_items fuel' false s3;
                        Ok ((lo, hi) :: items, s4)
                  | _, _ => bad
                  end
            | _ =>
                '(items, s2) ← parse_set_items fuel' false s1;
                Ok (member_ranges m ++ items, s2)
            end
      end
  end.

Definition parse_set (s : string) : result (regex * string) :=
  match s with
  | String "^" s' =>
      '(items, s'') ← parse_set_items (S (Py.len s')) true s'; Ok (CSet true items, s'')
  | _ =>
      '(items, s'') ← parse_set_items (S (Py.len s)) true s; Ok (CSet false items, s'')
  end.

Fixpoint parse_digits (acc : N) (s : string) : N * string :=
  match s with
  | String c s' => if is_digit c then parse_digits (10 * acc + digit_val c) s' else (acc, s)
  | EmptyString => (acc, s)
  end.

Definition starts_with_digit (s : string) : bool :=
  match s with String c _ => is_digit c | EmptyString => false end.

(** The bounds written between braces, when what follows the opening brace
    is a repetition count: digits, then possibly a comma and digits, then
    the closing brace, but not the closing brace alone. A bound left out
    is [0] for the lower one and none for the upper one. Otherwise the
    opening brace is an ordinary character. *)
Definition parse_braces (s : string) : option (N * option N * string) :=
  match s with
  | String "}" _ => None
  | _ =>
      let '(lo, s1) := parse_digits 0 s in
      let has_lo := starts_with_digit s in
      let '(has_hi, hi, s2) :=
        match s1 with
        | String "," s1' =>
            let '(hi, s2) := parse_digits 0 s1' in (starts_with_digit s1', hi, s2)
        | _ => (has_lo, lo, s1)
        end in
      match s2 with
      | String "}" s3 =>
          Some (if has_lo then lo else 0%N, if has_hi then Some hi else None, s3)
      | _ => None
      end
  end.

(** The bounds of the quantifier a text starts with, if it starts with one. *)
Definition read_bounds (s : string) : option (N * option N * string) :=
  match s with
  | String "*" s' => Some (0%N, None, s')
  | String "+" s' => Some (1%N, None, s')
  | String "?" s' => Some (0%N, Some 1%N, s')
  | String "{" s' => parse_braces s'
  | _ => None
  end.

(** A count of more than 16 bits is outside the fragment (Python raises
    [OverflowError] for a count of 32 bits or more). *)
Definition too_large (lo : N) (hi : option N) : bool :=
  (65535 <? lo)%N || match hi with Some h => (65535 <? h)%N | None => false end.

Definition wrong_order (lo : N) (hi : option N) : bool :=
  match hi with Some h => (h <? lo)%N | None => false end.

Definition is_anchor (r : regex) : bool :=
  match r with Bol | Eol => true | _ => false end.

(** Whether an expression may match the empty string. *)
Fixpoint nullable (r : regex) : bool :=
  match r with
  | Eps | Bol | Eol => true
  | Chr _ | Dot | CSet _ _ => false
  | Seq r1 r2 => nullable r1 && nullable r2
  | Alt r1 r2 => nullable r1 || nullable r2
  | Grp r' => nullable r'
  | Rep lo _ _ r' => (lo =? 0)%nat || nullable r'
  end.

(** The quantifier after an atom, if any. Bounds in the wrong order, a
    quantified anchor ("nothing to repeat") and a second quantifier
    ("multiple repeat") are errors. Outside the fragment are the
    possessive quantifiers and the repetition of an expression that may
    match the empty string, for which Python has rules of its own. *)
Definition parse_quant (r : regex) (s : string) : result (regex * string) :=
  match read_bounds s with
  | None => Ok (r, s)
  | Some (lo, hi, s1) =>
      if too_large lo hi then outside
      else if wrong_order lo hi then bad
      else if is_anchor r then bad
      else
        match s1 with
        | String "+" _ => outside
        | _ =>
            let '(greedy, s2) :=
              match s1 with
              | String "?" s2 => (false, s2)
              | _ => (true, s1)
              end in
            if nullable r then outside
            else
              match read_bounds s2 with
              | Some (lo', hi', _) => if too_large lo' hi' then outside else bad
              | None => Ok (Rep (N.to_nat lo) (N.to_nat <$> hi) greedy r, s2)
              end
        end
  end.

(** An atom; [inner] reads the body of a group up to its closing bracket.
    A quantifier with nothing before it is an error; a group that starts
    with a question mark is outside the fragment. *)
Definition parse_atom (inner : string -> result (regex * string)) (s : string)
  : result (regex * string) :=
  match s with
  | EmptyString => bad
  | String "(" s' =>
      match s' with
      | String "?" _ => outside
      | _ =>
          '(r, s1) ← inner s';
          match s1 with
          | String ")" s2 => Ok (Grp r, s2)
          | _ => bad
          end
      end
  | String "[" s' => parse_set s'
  | String "." s' => Ok (Dot, s')
  | String "^" s' => Ok (Bol, s')
  | String "$" s' => Ok (Eol, s')
  | String "\" s' => parse_escape s'
  | String "*" _ | String "+" _ | String "?" _ | String ")" _ | String "|" _ => bad
  | String "{" s' =>
      match parse_braces s' with
      | Some (lo, hi, _) => if too_large lo hi then outside else bad
      | None => Ok (Chr "{", s')
      end
  | String c s' => Ok (Chr c, s')
  end.

(** A sequence of quantified atoms, up to a bar, a closing bracket or the end. *)
Fixpoint parse_seq (inner : string -> result (regex * string)) (fuel : nat) (s : string)
  : result (regex * string) :=
  match fuel with
  | O => outside
  | S fuel' =>
      match s with
      | EmptyString | String "|" _ | String ")" _ => Ok (Eps, s)
      | _ =>
          '(a, s1) ← parse_atom inner s;
          '(q, s2) ← parse_quant a s1;
          '(rest, s3) ← parse_seq inner fuel' s2;
          Ok (match rest with Eps => q | _ => Seq q rest end, s3)
      end
  end.

(** Alternatives separated by bars. *)
Fixpoint parse_alt (inner : string -> result (regex * string)) (fuel : nat) (s : string)
  : result (regex * string) :=
  match fuel with
  | O => outside
  | S fuel' =>
      '(r1, s1) ← parse_seq inner (S (Py.len s)) s;
      match s1 with
      | String "|" s2 => '(r2, s3) ← parse_alt inner fuel' s2; Ok (Alt r1 r2, s3)
      | _ => Ok (r1, s1)
      end
  end.

(** A whole expression, with groups nested at most [depth] deep. *)
Fixpoint parse_regex (depth : nat) (s : string) : result (regex * string) :=
  match depth with
  | O => outside
  | S depth' => parse_alt (parse_regex depth') (S (Py.len s)) s
  end.

(** Groups nested deeper than this are outside the fragment. *)
Definition max_nesting : nat := 10.

(** [re.compile(pattern)]: a closing bracket that closes nothing is an
    error. *)
Definition compile (pattern : string) : result regex :=
  '(r, rest) ← parse_regex (S max_nesting) pattern;
  match rest with
  | EmptyString => Ok r
  | _ => bad
  end.

(** The character a backslash followed by the letter [c] stands for, in a
    replacement template. *)
Definition template_escape (c : ascii) : option ascii :=
  if Ascii.eqb c "b" then Some (ascii_of_nat 8) else control_escape c.

(** The text a replacement template stands for. A backslash before a
    letter that is not an escape is an error; before [g] or a digit it is a
    group reference, which is outside the fragment; before any other
    character it is kept. *)
Fixpoint expand_template (repl : string) : result string :=
  match repl with
  | EmptyString => Ok EmptyString
  | String "\" EmptyString => bad
  | String "\" (String c s') =>
      if Ascii.eqb c "\" then t ← expand_template s'; Ok (String "\" t)
      else
        match template_escape c with
        | Some x => t ← expand_template s'; Ok (String x t)
        | None =>
            if Ascii.eqb c "g" || is_digit c then outside
            else if is_letter c then bad
            else t ← expand_template s'; Ok (String "\" (String c t))
        end
  | String c s' => t ← expand_template s'; Ok (String c t)
  end%string.

(** [re.sub(pattern, repl, s)]: the pattern is compiled and the template
    read before anything is looked for. *)
Definition sub (pattern repl s : string) : result string :=
  r ← compile pattern;
  t ← expand_template repl;
  Ok (sub_regex r t s).

(** [re.search(pattern, s)], as the text of [match.group()] on a match. *)
Definition search (pattern s : string) : result (option string) :=
  r ← compile pattern;
  Ok (search_regex r s).

(** [re.fullmatch(pattern, s)], as the truth value of its result. *)
Definition fullmatch (pattern s : string) : result bool :=
  r ← compile pattern;
  Ok (fullmatch_regex r s).

End Re.

(** ** Configuration and arguments *)

(** The ["module"] entry of a cleaning pattern: one anchor or a list of them. *)
Inductive module_spec :=
  | ModStr (m : string)
  | ModList (ms : list string).

(** A cleaning pattern given as a dict: its ["type"], ["pattern"] and
    ["module"] entries, each of which may be missing. *)
Record ext_dict := {
  ext_type : option string;
  ext_pattern : option string;
  ext_module : option module_spec;
}.

(** [CleanPatternT]: a bare string or a dict. *)
Inductive CleanPatternT :=
  | ExtStr (s : string)
  | ExtDict (d : ext_dict).

(** [config.use_filename_as_sample_name]: a boolean or a list of search
    pattern keys. *)
Inductive use_filename :=
  | UseFnBool (b : bool)
  | UseFnList (keys : list string).

(** A value of [config.generalstats_sample_merge_groups]: one pattern (a
    string or a dict) or a list of patterns. *)
Inductive merge_group_exts :=
  | GroupOne (p : CleanPatternT)
  | GroupList (ps : list CleanPatternT).

(** The fields of [multiqc.config] that the methods read. The two dicts are
    association lists in insertion order. *)
Record Config := {
  use_filename_as_sample_name : use_filename;
  fn_clean_sample_names : bool;
  fn_clean_exts : list CleanPatternT;
  fn_clean_trim : list string;
  prepend_dirs : bool;
  prepend_dirs_sep : string;
  prepend_dirs_depth : Z;
  sample_names_replace : list (string * string);
  sample_names_replace_exact : bool;
  sample_names_replace_regex : bool;
  sample_names_replace_complete : bool;
  generalstats_sample_merge_groups : list (string * merge_group_exts);
}.

(** The argument [f] of [clean_s_name]: absent, a string (the root, by the
    old calling convention) or the dict of [find_log_files]. *)
Inductive f_arg :=
  | FNone
  | FStr (root : string)
  | FDict (root fn sp_key : option string).

(** The argument [s_name] of [clean_s_name]: a name or a list of names. *)
Inductive s_name_arg :=
  | SName (s : string)
  | SNames (l : list string).

(** The exception [clean_s_name] raises on an empty list. *)
Definition empty_list_error : exn :=
  ValueError "Empty list of sample names passed to clean_s_name()".

(** ** Pairs of FASTQ names *)

(** [_clean_fastq_pair]: the three attempts, in order. *)
Definition _clean_fastq_pair (r1 r2 : string) : result (option string) :=
  cleaned_r1 ← Re.sub "_R1_\d{3}$" "" r1;
  cleaned_r2 ← Re.sub "_R2_\d{3}$" "" r2;
  if String.eqb cleaned_r1 cleaned_r2 then Ok (Some cleaned_r1)
  else
    cleaned_r1 ← Re.sub "_R1_" "_" r1;
    cleaned_r2 ← Re.sub "_R2_" "_" r2;
    if String.eqb cleaned_r1 cleaned_r2 then Ok (Some cleaned_r1)
    else
      cleaned_r1 ← Re.sub "([_.-][rR]?1)?$" "" r1;
      cleaned_r2 ← Re.sub "([_.-][rR]?2)?$" "" r2;
      if String.eqb cleaned_r1 cleaned_r2 then Ok (Some cleaned_r1)
      else Ok None.

(** ** Cleaning a sample name *)

Section Module.

(** The module instance ([self.anchor]) and the configuration in force. *)
Variable anchor : string.
Variable config : Config.

(** The dict a bare string pattern stands for. *)
Definition ext_of (_ext : CleanPatternT) : ext_dict :=
  match _ext with
  | ExtStr s => {| ext_type := Some "truncate"; ext_pattern := Some s; ext_module := None |}
  | ExtDict d => d
  end.

(** Whether a pattern limited to some modules leaves this one out. *)
Definition skipped_for_module (ext : ext_dict) : bool :=
  match ext_module ext with
  | None => false
  | Some (ModStr m) => negb (List.existsb (fun m => String.eqb m anchor) [m])
  | Some (ModList ms) => negb (List.existsb (fun m => String.eqb m anchor) ms)
  end.

(** One turn of the loop over [fn_clean_exts]. *)
Definition apply_ext (trimmed_name : string) (_ext : CleanPatternT) : result string :=
  let ext := ext_of _ext in
  if skipped_for_module ext then Ok trimmed_name
  else
    let pattern := default "" (ext_pattern ext) in
    match ext_type ext with
    | None => Ok trimmed_name
    | Some ty =>
        if String.eqb ty "truncate" then Py.split1_head trimmed_name pattern
        else if String.eqb ty "remove" || String.eqb ty "replace"
        then Ok (Py.replace trimmed_name pattern "")
        else if String.eqb ty "regex" then Re.sub pattern "" trimmed_name
        else if String.eqb ty "regex_keep" then
          m ← Re.search pattern trimmed_name;
          Ok (default trimmed_name m)
        else Ok trimmed_name
    end.

(** One turn of the loop over [fn_clean_trim]. *)
Definition apply_trim (trimmed_name characters : string) : string :=
  let trimmed_name :=
    if Py.endswith trimmed_name characters
    then Py.drop_last (Py.len characters) trimmed_name
    else trimmed_name in
  if Py.startswith trimmed_name characters
  then Py.drop (Py.len characters) trimmed_name
  else trimmed_name.

(** The body of the [try] in the loop over [sample_names_replace]. *)
Definition replace_body (trimmed_name : string) (rule : string * string) : result string :=
  let '(s_name_search, s_name_replace) := rule in
  skip ←
    (if sample_names_replace_exact config then
       if negb (sample_names_replace_regex config)
          && negb (String.eqb trimmed_name s_name_search)
       then Ok true
       else if sample_names_replace_regex config then
         full ← Re.fullmatch s_name_search trimmed_name; Ok (negb full)
       else Ok false
     else Ok false);
  if (skip : bool) then Ok trimmed_name
  else if sample_names_replace_regex config
  then Re.sub s_name_search s_name_replace trimmed_name
  else if sample_names_replace_complete config
  then Ok (if Py.contains s_name_search trimmed_name then s_name_replace else trimmed_name)
  else Ok (Py.replace trimmed_name s_name_search s_name_replace).

(** One turn of that loop: [except re.error] keeps the name as it was. *)
Definition apply_replace (trimmed_name : string) (rule : string * string) : result string :=
  match replace_body trimmed_name rule with
  | Raise ReError => Ok trimmed_name
  | r => r
  end.

(** The directories put before the name. *)
Definition prepend_dirs_of (root : option string) : list string :=
  let parts :=
    match root with
    | None | Some EmptyString => []
    | Some r => Py.path_parts r
    end in
  let dirs :=
    List.map Py.strip
      (List.filter (fun d => negb (String.eqb (Py.strip d) EmptyString)) parts) in
  if (prepend_dirs_depth config =? 0)%Z then dirs
  else if (0 <? prepend_dirs_depth config)%Z
  then Py.last_n (Z.to_nat (prepend_dirs_depth config)) dirs
  else List.firstn (Z.to_nat (- prepend_dirs_depth config)) dirs.

(** The working name after the cleaning patterns, the trimming and
    [strip()]: the steps of [clean_s_name] for one name up to the test for
    an empty result. *)
Definition stripped_s_name (s_name : string) (f : f_arg)
           (root filename search_pattern_key : option string)
           (fn_clean_exts_arg : option (list CleanPatternT))
           (fn_clean_trim_arg : option (list string))
           (prepend_dirs_arg : option bool) : result string :=
  let original_name := s_name in
  let trimmed_name := original_name in
  let root := match f with FStr r => Some r | _ => root end in
  let f := match f with FStr _ => FNone | _ => f end in
  let root :=
    match f, root with FDict (Some r) _ _, None => Some r | _, _ => root end in
  let filename :=
    match f, filename with FDict _ (Some fn) _, None => Some fn | _, _ => filename end in
  let search_pattern_key :=
    match f, search_pattern_key with
    | FDict _ _ (Some k), None => Some k
    | _, _ => search_pattern_key
    end in
  let trimmed_name :=
    match filename with
    | Some fn =>
        if match use_filename_as_sample_name config with
           | UseFnBool b => b
           | UseFnList keys =>
               match search_pattern_key with
               | Some k => List.existsb (String.eqb k) keys
               | None => false
               end
           end
        then fn else trimmed_name
    | None => trimmed_name
    end in
  let trimmed_name := Py.basename trimmed_name in
  let fn_clean_exts := default (fn_clean_exts config) fn_clean_exts_arg in
  let fn_clean_trim := default (fn_clean_trim config) fn_clean_trim_arg in
  let prepend_dirs := default (prepend_dirs config) prepend_dirs_arg in
  let trimmed_name :=
    if prepend_dirs then
      let sep := prepend_dirs_sep config in
      let dirs := prepend_dirs_of root in
      match dirs with
      | [] => trimmed_name
      | _ => (Py.join sep dirs ++ sep ++ trimmed_name)%string
      end
    else trimmed_name in
  trimmed_name ←
    (if fn_clean_sample_names config then
       trimmed_name ← for_each apply_ext fn_clean_exts trimmed_name;
       Ok (List.fold_left apply_trim fn_clean_trim trimmed_name)
     else Ok trimmed_name);
  Ok (Py.strip trimmed_name).

(** The name before the hard replacements: an empty working name is given
    up for the original value. *)
Definition trim_s_name (s_name : string) (f : f_arg)
           (root filename search_pattern_key : option string)
           (fn_clean_exts_arg : option (list CleanPatternT))
           (fn_clean_trim_arg : option (list string))
           (prepend_dirs_arg : option bool) : result string :=
  let original_name := s_name in
  trimmed_name ← stripped_s_name s_name f root filename search_pattern_key
                   fn_clean_exts_arg fn_clean_trim_arg prepend_dirs_arg;
  Ok (if String.eqb trimmed_name EmptyString then original_name else trimmed_name).

(** [clean_s_name] on one name. *)
Definition clean_one (s_name : string) (f : f_arg)
           (root filename search_pattern_key : option string)
           (fn_clean_exts_arg : option (list CleanPatternT))
           (fn_clean_trim_arg : option (list string))
           (prepend_dirs_arg : option bool) : result string :=
  trimmed_name ← trim_s_name s_name f root filename search_pattern_key
                   fn_clean_exts_arg fn_clean_trim_arg prepend_dirs_arg;
  for_each apply_replace (sample_names_replace config) trimmed_name.

(** [clean_s_name] *)
Definition clean_s_name (s_name : s_name_arg) (f : f_arg)
           (root filename search_pattern_key : option string)
           (fn_clean_exts_arg : option (list CleanPatternT))
           (fn_clean_trim_arg : option (list string))
           (prepend_dirs_arg : option bool) : result string :=
  match s_name with
  | SNames l =>
      if (List.length l =? 0)%nat
      then Raise empty_list_error
      else
        clean_names ←
          map_result (fun sn => clean_one sn f root filename search_pattern_key
                                  fn_clean_exts_arg fn_clean_trim_arg prepend_dirs_arg) l;
        if (List.length (remove_dups clean_names) =? 1)%nat
        then Ok (List.hd EmptyString clean_names)
        else
          fastq_s_name ←
            match clean_names with
            | [r1; r2] => _clean_fastq_pair r1 r2
            | _ => Ok None
            end;
          match fastq_s_name with
          | Some name => Ok name
          | None => Ok (Py.join "_" clean_names)
          end
  | SName s =>
      clean_one s f root filename search_pattern_key
        fn_clean_exts_arg fn_clean_trim_arg prepend_dirs_arg
  end.

End Module.

(** ** Insertion-ordered dicts *)

Section Odict.

Context {K V : Type} `{EqDecision K}.

Definition odict_get (k : K) (d : list (K * V)) : option V :=
  snd <$> List.find (fun kv => bool_decide (kv.1 = k)) d.

(** [d[k] = v]: a key already there keeps its place. *)
Fixpoint odict_set (k : K) (v : V) (d : list (K * V)) : list (K * V) :=
  match d with
  | [] => [(k, v)]
  | (k', v') :: d' =>
      if bool_decide (k' = k) then (k, v) :: d' else (k', v') :: odict_set k v d'
  end.

Definition odict_keys (d : list (K * V)) : list K := List.map fst d.

End Odict.

(** [d[k].append(x)] on a [defaultdict(list)]. *)
Definition odict_append {K A : Type} `{EqDecision K} (k : K) (x : A)
           (d : list (K * list A)) : list (K * list A) :=
  odict_set k (default [] (odict_get k d) ++ [x]) d.

(** ** Grouping sample names *)

(** A member of a group: its label, the name it is shown under and its
    original name. *)
Definition member : Type := option string * string * string.

Section Grouping.

Variable anchor : string.
Variable config : Config.

(** The loop of [groups_for_sample] over the labels, left at the first
    label whose patterns change the name. *)
Fixpoint groups_for_sample_loop (s_name : string)
         (items : list (string * merge_group_exts)) : result (string * option string) :=
  match items with
  | [] => Ok (s_name, None)
  | (label, grouping_exts) :: items' =>
      let grouping_exts :=
        match grouping_exts with GroupOne p => [p] | GroupList ps => ps end in
      match grouping_exts with
      | [] => groups_for_sample_loop s_name items'
      | _ =>
          s_name_without_ext ←
            clean_s_name anchor config (SName s_name) FNone None None None
              (Some grouping_exts) (Some []) (Some false);
          if negb (String.eqb s_name_without_ext s_name) then
            group_name ←
              clean_s_name anchor config (SName s_name_without_ext) FNone
                None None None None None None;
            Ok (group_name, Some label)
          else groups_for_sample_loop s_name items'
      end
  end.

(** [groups_for_sample] *)
Definition groups_for_sample (s_name : string) : result (string * option string) :=
  match generalstats_sample_merge_groups config with
  | [] => Ok (s_name, None)
  | items => groups_for_sample_loop s_name items
  end.

(** [str(label)] inside an f-string. *)
Definition label_str (label : option string) : string := default "None" label.

(** [group_samples_names] *)
Definition group_samples_names (samples : list string)
  : result (list (string * list member)) :=
  group_by_label ←
    for_each (fun (d : list (option string * list (string * string))) original_name =>
                '(group_name, label) ← groups_for_sample original_name;
                Ok (odict_append label (group_name, original_name) d))
             (merge_sort String.le samples) [];
  let group_by_merged_name : list (string * list (option string * string)) :=
    List.fold_left
      (fun d '(label, group) =>
         List.fold_left
           (fun d '(group_name, original_name) =>
              odict_append group_name (label, original_name) d)
           group d)
      group_by_label [] in
  Ok (List.map
        (fun '(group_name, group) =>
           (group_name,
            List.map
              (fun '(label, original_name) =>
                 (label,
                  if (List.length group =? 1)%nat then group_name
                  else (group_name ++ " (" ++ label_str label ++ ")")%string,
                  original_name))
              group))
        group_by_merged_name).

End Grouping.

(** ** Metric values and Python arithmetic *)

(** [ValueT]: what a cell of a row may hold. *)
Inductive value :=
  | VInt (z : Z)
  | VFloat (x : float)
  | VBool (b : bool)
  | VStr (s : string)
  | VNone.

(** [InputRowT] *)
Record InputRowT := {
  sample : string;
  data : gmap string value;
}.

(** [isinstance(v, int) or isinstance(v, float)]; a [bool] is an [int]. *)
Definition is_number (v : value) : bool :=
  match v with
  | VInt _ | VFloat _ | VBool _ => true
  | VStr _ | VNone => false
  end.

(** The binary64 float nearest to an integer (ties to even). *)
Definition Z2F (z : Z) : float := SF2Prim (binary_normalize 53 1024 z 0 false).

(** [float(z)] for an [int]: too large an integer raises. *)
Definition float_of_int (z : Z) : result float :=
  let x := Z2F z in
  if PrimFloat.is_infinity x then Raise OverflowError else Ok x.

(** [float(v)] for a value that passed [is_number]. *)
Definition to_float (v : value) : result float :=
  match v with
  | VInt z => float_of_int z
  | VFloat x => Ok x
  | VBool b => Ok (if b then 1%float else 0%float)
  | VStr _ | VNone => Raise TypeError
  end.

(** A number being computed: an [int] or a [float]. *)
Inductive num :=
  | NInt (z : Z)
  | NFloat (x : float).

(** [a + b] *)
Definition num_add (a b : num) : result num :=
  match a, b with
  | NInt x, NInt y => Ok (NInt (x + y))
  | NInt x, NFloat y => fx ← float_of_int x; Ok (NFloat (fx + y))
  | NFloat x, NInt y => fy ← float_of_int y; Ok (NFloat (x + fy))
  | NFloat x, NFloat y => Ok (NFloat (x + y))
  end.

Definition num_is_zero (a : num) : bool :=
  match a with
  | NInt z => (z =? 0)%Z
  | NFloat x => PrimFloat.eqb x 0%float
  end.

(** [a / b]. Two integers are divided as floats, which is Python's quotient
    when both are below 2^53; in this program the dividend is then the
    integer [0]. *)
Definition num_truediv (a b : num) : result num :=
  if num_is_zero b then Raise ZeroDivisionError
  else
    fa ← match a with NInt z => float_of_int z | NFloat x => Ok x end;
    fb ← match b with NInt z => float_of_int z | NFloat x => Ok x end;
    Ok (NFloat (fa / fb)).

(** [a > 0] *)
Definition num_gt0 (a : num) : bool :=
  match a with
  | NInt z => (0 <? z)%Z
  | NFloat x => PrimFloat.ltb 0%float x
  end.

(** [sum(l)] *)
Definition py_sum (l : list num) : result num := for_each num_add l (NInt 0).

Definition value_of_num (a : num) : value :=
  match a with
  | NInt z => VInt z
  | NFloat x => VFloat x
  end.

(** ** Merging the rows of a group *)

(** A function of [extra_functions]: it is given the merged row, which it may
    change, and the members of the group. *)
Definition ExtraFunctionType : Type := InputRowT -> list member -> result InputRowT.

Record SampleGroupingConfig := {
  cols_to_weighted_average : option (list (string * string));
  cols_to_average : option (list string);
  cols_to_sum : option (list string);
  extra_functions : option (list ExtraFunctionType);
}.

(** The elements looped over under [if l:], for a list that may be [None]. *)
Definition listed {A : Type} (l : option (list A)) : list A := default [] l.

Section Aggregation.

Variable anchor : string.
Variable config : Config.
Variable data_by_sample : gmap string (gmap string value).
Variable grouping_config : SampleGroupingConfig.

(** [data_by_sample[s_name][col]] *)
Definition cell (s_name col : string) : result value :=
  match data_by_sample !! s_name with
  | None => Raise (KeyError s_name)
  | Some row =>
      match row !! col with
      | None => Raise (KeyError col)
      | Some v => Ok v
      end
  end.

(** [data_by_sample[s_name]] *)
Definition row_of (s_name : string) : result (gmap string value) :=
  match data_by_sample !! s_name with
  | None => Raise (KeyError s_name)
  | Some row => Ok row
  end.

(** [float(d[col]) if isinstance(d[col], float) or isinstance(d[col], int) else 0] *)
Definition plain_term (col : string) (m : member) : result num :=
  let original_s_name := m.2 in
  v ← cell original_s_name col;
  if is_number v then x ← to_float v; Ok (NFloat x) else Ok (NInt 0).

(** The term of a weighted average; [and] does not read the weight when the
    value is not a number. *)
Definition weighted_term (col weight_col : string) (m : member) : result num :=
  let original_s_name := m.2 in
  v ← cell original_s_name col;
  if is_number v then
    w ← cell original_s_name weight_col;
    if is_number w then
      x ← to_float v;
      y ← to_float w;
      Ok (NFloat (x * y))
    else Ok (NInt 0)
  else Ok (NInt 0).

(** [sum_by_col[col] += float(val)] over the members, for one column. *)
Definition add_weights (labels_s_names : list member)
           (sum_by_col : list (string * num)) (col : string) : result (list (string * num)) :=
  for_each
    (fun sum_by_col (m : member) =>
       val ← cell m.2 col;
       if is_number val then
         match odict_get col sum_by_col with
         | None => Raise (KeyError col)
         | Some acc =>
             x ← to_float val;
             acc' ← num_add acc (NFloat x);
             Ok (odict_set col acc' sum_by_col)
         end
       else Ok sum_by_col)
    labels_s_names sum_by_col.

(** The sums of the weight columns. *)
Definition weight_sums (labels_s_names : list member) : result (list (string * num)) :=
  let sum_by_col :=
    List.fold_left (fun d '(_, weight_col_key) => odict_set weight_col_key (NInt 0) d)
                   (listed (cols_to_weighted_average grouping_config)) [] in
  for_each (add_weights labels_s_names) (odict_keys sum_by_col) sum_by_col.

(** The value a pair of [cols_to_weighted_average] gives its column: none
    when the sum of the weights is not positive. *)
Definition weighted_value (labels_s_names : list member)
           (sum_by_col : list (string * num)) (col weight_col : string)
  : result (option value) :=
  match odict_get weight_col sum_by_col with
  | None => Raise (KeyError weight_col)
  | Some weight =>
      if num_gt0 weight then
        terms ← map_result (weighted_term col weight_col) labels_s_names;
        total ← py_sum terms;
        q ← num_truediv total weight;
        Ok (Some (value_of_num q))
      else Ok None
  end.

(** One turn of the loop over [cols_to_weighted_average]. *)
Definition weighted_average_step (labels_s_names : list member)
           (sum_by_col : list (string * num))
           (merged : gmap string value) (pair : string * string)
  : result (gmap string value) :=
  v ← weighted_value labels_s_names sum_by_col pair.1 pair.2;
  Ok (match v with Some v => <[pair.1 := v]> merged | None => merged end).

(** The value of a column of [cols_to_average]. *)
Definition average_value (labels_s_names : list member) (col : string) : result value :=
  terms ← map_result (plain_term col) labels_s_names;
  total ← py_sum terms;
  q ← num_truediv total (NInt (Z.of_nat (List.length labels_s_names)));
  Ok (value_of_num q).

(** One turn of the loop over [cols_to_average]. *)
Definition average_step (labels_s_names : list member)
           (merged : gmap string value) (col : string) : result (gmap string value) :=
  v ← average_value labels_s_names col;
  Ok (<[col := v]> merged).

(** The value of a column of [cols_to_sum]: the sum already made for a
    weight column, or a fresh one. *)
Definition sum_value (labels_s_names : list member)
           (sum_by_col : list (string * num)) (col : string) : result value :=
  match odict_get col sum_by_col with
  | Some total => Ok (value_of_num total)
  | None =>
      terms ← map_result (plain_term col) labels_s_names;
      total ← py_sum terms;
      Ok (value_of_num total)
  end.

(** One turn of the loop over [cols_to_sum]. *)
Definition sum_step (labels_s_names : list member)
           (sum_by_col : list (string * num))
           (merged : gmap string value) (col : string) : result (gmap string value) :=
  v ← sum_value labels_s_names sum_by_col col;
  Ok (<[col := v]> merged).

(** The data of the merged row after the three passes. *)
Definition merged_data (labels_s_names : list member) : result (gmap string value) :=
  sum_by_col ← weight_sums labels_s_names;
  merged ← for_each (weighted_average_step labels_s_names sum_by_col)
                    (listed (cols_to_weighted_average grouping_config)) ∅;
  merged ← for_each (average_step labels_s_names)
                    (listed (cols_to_average grouping_config)) merged;
  for_each (sum_step labels_s_names sum_by_col)
           (listed (cols_to_sum grouping_config)) merged.

(** The rows of the members, under the names they are shown with. *)
Definition member_rows (labels_s_names : list member) : result (list InputRowT) :=
  map_result (fun m : member =>
                row ← row_of m.2;
                Ok {| sample := m.1.2; data := row |})
             labels_s_names.

(** The key a group is stored under: a group of several members whose name
    is also the name of a sample is renamed. *)
Definition output_key (g_name : string) (labels_s_names : list member) : string :=
  if (1 <? List.length labels_s_names)%nat
     && bool_decide (is_Some (data_by_sample !! g_name))
  then (g_name ++ " (grouped)")%string
  else g_name.

(** The rows stored for a group: the row of its only member, or the merged
    row followed by the rows of the members. *)
Definition group_rows (g_name : string) (labels_s_names : list member)
  : result (list InputRowT) :=
  match labels_s_names with
  | [(_, s_name, original_s_name)] =>
      row ← row_of original_s_name;
      Ok [{| sample := s_name; data := row |}]
  | _ =>
      d ← merged_data labels_s_names;
      merged_row ←
        for_each (fun row (fn : ExtraFunctionType) => fn row labels_s_names)
                 (listed (extra_functions grouping_config))
                 {| sample := g_name; data := d |};
      rows ← member_rows labels_s_names;
      Ok (merged_row :: rows)
  end.

(** The body of the loop of [group_samples_and_average_metrics] for one
    group. A group name is a string, so the branch under
    [if g_name is None] is never taken. *)
Definition group_step (rows_by_grouped_samples : list (string * list InputRowT))
           (group : string * list member) : result (list (string * list InputRowT)) :=
  let '(g_name, labels_s_names) := group in
  if (List.length labels_s_names =? 0)%nat then Ok rows_by_grouped_samples
  else
    let g_name := output_key g_name labels_s_names in
    rows ← group_rows g_name labels_s_names;
    Ok (odict_set g_name rows rows_by_grouped_samples).

(** [group_samples_and_average_metrics] *)
Definition group_samples_and_average_metrics : result (list (string * list InputRowT)) :=
  groups ← group_samples_names anchor config
             (elements (dom data_by_sample));
  for_each group_step groups [].

End Aggregation.

(** ** Well-formed cleaning patterns

    A cleaning pattern this module applies is well formed when [str.split]
    and [re] accept it: a pattern to truncate at is not empty, a regular
    expression compiles. *)

Definition ext_ok (anchor : string) (_ext : CleanPatternT) : bool :=
  let ext := ext_of _ext in
  skipped_for_module anchor ext ||
  let pattern := default "" (ext_pattern ext) in
  match ext_type ext with
  | None => true
  | Some ty =>
      if String.eqb ty "truncate" then negb (String.eqb pattern "")
      else if String.eqb ty "remove" || String.eqb ty "replace" then true
      else if String.eqb ty "regex" || String.eqb ty "regex_keep"
      then is_ok (Re.compile pattern)
      else true
  end.

(** Whether the embedding says what a call comes to. *)
Definition modelled {A : Type} (r : result A) : bool :=
  match r with
  | Raise NotModelled => false
  | _ => true
  end.

(** A replacement rule is well formed when, with
    [sample_names_replace_regex], its search string and its replacement
    are inside the fragment of [Re], so that they give a result or
    [re.error], which the loop over the rules catches. *)
Definition rule_ok (config : Config) (rule : string * string) : bool :=
  negb (sample_names_replace_regex config)
  || modelled (Re.compile rule.1) && modelled (Re.expand_template rule.2).

(** The patterns of a label of [generalstats_sample_merge_groups]. *)
Definition group_exts (g : merge_group_exts) : list CleanPatternT :=
  match g with GroupOne p => [p] | GroupList ps => ps end.

(** ** Configurations used in the examples *)

(** A configuration with the given cleaning patterns, trimmed strings,
    replacements and merge groups, names being cleaned, no directory put
    before them and replacements made on substrings. *)
Definition config_with (exts : list CleanPatternT) (trim : list string)
           (replace : list (string * string))
           (groups : list (string * merge_group_exts)) : Config := {|
  use_filename_as_sample_name := UseFnBool false;
  fn_clean_sample_names := true;
  fn_clean_exts := exts;
  fn_clean_trim := trim;
  prepend_dirs := false;
  prepend_dirs_sep := " | ";
  prepend_dirs_depth := 0;
  sample_names_replace := replace;
  sample_names_replace_exact := false;
  sample_names_replace_regex := false;
  sample_names_replace_complete := false;
  generalstats_sample_merge_groups := groups;
|}.

(** Names truncated at [.fastq], then freed of [_] and [.] at their ends. *)
Definition fastq_config : Config :=
  config_with [ExtStr ".fastq"] ["_"; "."] [] [].

(** The same, with reads grouped by the labels [R1] and [R2]. *)
Definition paired_config : Config :=
  config_with [ExtStr ".fastq"] ["_"; "."] []
    [("R1", GroupOne (ExtStr "_R1")); ("R2", GroupOne (ExtStr "_R2"))].

(** [clean_s_name] with no argument but the name. *)
Definition clean_default (anchor : string) (config : Config) (s_name : s_name_arg)
  : result string :=
  clean_s_name anchor config s_name FNone None None None None None None.

(** ** Reading an exception of [re] *)

(** What a call to [re] raises in the embedding: [re.error], or nothing
    that is known when the call is outside the fragment. *)
Definition re_raised (e : exn) : Prop := e = ReError \/ e = NotModelled.

(** A computation that raises nothing else. *)
Definition only_re {A : Type} (r : result A) : Prop :=
  forall e, r = Raise e -> re_raised e.

(** Names cleaned as [fastq_config] does, then freed of their lane number
    by a replacement rule read as a regular expression. *)
Definition lane_config : Config := {|
  use_filename_as_sample_name := UseFnBool false;
  fn_clean_sample_names := true;
  fn_clean_exts := [ExtStr ".fastq"];
  fn_clean_trim := ["_"; "."];
  prepend_dirs := false;
  prepend_dirs_sep := " | ";
  prepend_dirs_depth := 0;
  sample_names_replace := [("_L\d+", "")];
  sample_names_replace_exact := false;
  sample_names_replace_regex := true;
  sample_names_replace_complete := false;
  generalstats_sample_merge_groups := [];
|}.

(** ** The specification's reading of two steps *)

(** What the specification's "join all distinct cleaned results" gives. *)
Definition spec_join_distinct (clean_names : list string) : string :=
  Py.join "_" (remove_dups clean_names).

(** What the specification's "delete first match" gives for a compiled
    expression. *)
Definition spec_remove_first_match (r : Re.regex) (s : string) : string :=
  match Re.search_from r false 0 s with
  | Some (b, _, rest) => (Py.take b s ++ rest)%string
  | None => s
  end.

(** ** Reading a grouping *)

(** The entries of a dict of lists, one per element of each list. *)
Definition odict_items {K A : Type} (d : list (K * list A)) : list (K * A) :=
  List.flat_map (fun kl => List.map (pair kl.1) kl.2) d.

(** The original names of the members of all the groups, group after group. *)
Definition group_originals (groups : list (string * list member)) : list string :=
  List.map (fun km : string * member => km.2.2) (odict_items groups).

(** ** Data used in the examples *)

(** The samples [s1] and [s2] of the specification's example, grouped as the
    two reads of [s]. *)
Definition reads_config : Config :=
  config_with [] [] [] [("read 1", GroupOne (ExtStr "1")); ("read 2", GroupOne (ExtStr "2"))].

Definition coverage_data : gmap string (gmap string value) :=
  list_to_map
    [("s1", list_to_map [("cov", VInt 10); ("reads", VInt 100)]);
     ("s2", list_to_map [("cov", VInt 20); ("reads", VInt 300)])].

Definition coverage_members : list member :=
  [(Some "read 1", "s (read 1)", "s1"); (Some "read 2", "s (read 2)", "s2")].

(** [cov] averaged with [reads] as weights. *)
Definition coverage_policy : SampleGroupingConfig := {|
  cols_to_weighted_average := Some [("cov", "reads")];
  cols_to_average := None;
  cols_to_sum := None;
  extra_functions := Some [];
|}.

(** ** Reading a merged row *)

(** The sum of a weight column over the members, as the first loop of the
    aggregation makes it: the values that are numbers are added to [0] as
    floats, in the order of the members. *)
Definition column_weight (data_by_sample : gmap string (gmap string value))
           (labels_s_names : list member) (col : string) : result num :=
  for_each
    (fun acc (m : member) =>
       val ← cell data_by_sample m.2 col;
       if is_number val then x ← to_float val; num_add acc (NFloat x) else Ok acc)
    labels_s_names (NInt 0).

(** The weight columns of a policy. *)
Definition weight_columns (grouping_config : SampleGroupingConfig) : list string :=
  List.map snd (listed (cols_to_weighted_average grouping_config)).

(** The columns a policy reads in every row: those that are weights,
    averaged or summed. *)
Definition columns_read (grouping_config : SampleGroupingConfig) : list string :=
  weight_columns grouping_config
  ++ listed (cols_to_average grouping_config)
  ++ listed (cols_to_sum grouping_config).

(** All the columns a policy names. *)
Definition policy_columns (grouping_config : SampleGroupingConfig) : list string :=
  List.map fst (listed (cols_to_weighted_average grouping_config))
  ++ columns_read grouping_config.

(** A value that [float()] accepts when it is a number. *)
Definition convertible (v : value) : bool :=
  negb (is_number v) || is_ok (to_float v).

(** A number a sum goes through: the integer [0] or a float. *)
Definition sum_state (a : num) : Prop := a = NInt 0 \/ exists x, a = NFloat x.

(** The same two samples, the second without its [reads]. *)
Definition partial_data : gmap string (gmap string value) :=
  list_to_map
    [("s1", list_to_map [("cov", VInt 10); ("reads", VInt 100)]);
     ("s2", list_to_map [("cov", VInt 20)])].

(** [cov] and [reads] named by several policies at once. *)
Definition overlap_policy : SampleGroupingConfig := {|
  cols_to_weighted_average := Some [("cov", "reads")];
  cols_to_average := Some ["cov"; "reads"];
  cols_to_sum := Some ["reads"];
  extra_functions := Some [];
|}.

(** One read of the sample [t], alone in its group. *)
Definition lone_read_data : gmap string (gmap string value) :=
  list_to_map [("t_R1", list_to_map [("cov", VInt 10)])].

(** The two reads of [s], one read of [t] and the two reads of [u]. *)
Definition three_groups_data : gmap string (gmap string value) :=
  list_to_map
    [("s_R1", list_to_map [("cov", VInt 10); ("reads", VInt 100)]);
     ("s_R2", list_to_map [("cov", VInt 20); ("reads", VInt 300)]);
     ("t_R1", list_to_map [("cov", VInt 30); ("reads", VInt 200)]);
     ("u_R1", list_to_map [("cov", VInt 40); ("reads", VInt 100)]);
     ("u_R2", list_to_map [("cov", VInt 50); ("reads", VInt 100)])].

(** A first read whose group is named [x (grouped)], before the sample [x]
    and the second read of [x]. *)
Definition overwritten_data : gmap string (gmap string value) :=
  list_to_map
    [("a_R1", list_to_map [("cov", VInt 5); ("reads", VInt 50)]);
     ("x", list_to_map [("cov", VInt 10); ("reads", VInt 100)]);
     ("x (grouped)_R1", list_to_map [("cov", VInt 30); ("reads", VInt 200)]);
     ("x_R2", list_to_map [("cov", VInt 20); ("reads", VInt 300)])].

(** A sample [s] next to the first read of a sample that is also named [s]. *)
Definition clash_data : gmap string (gmap string value) :=
  list_to_map
    [("s", list_to_map [("cov", VInt 10); ("reads", VInt 100)]);
     ("s_R1", list_to_map [("cov", VInt 20); ("reads", VInt 300)])].

(** The names of the rows stored under each key. *)
Definition row_names (rows : list (string * list InputRowT)) : list (string * list string) :=
  List.map (fun kr : string * list InputRowT => (kr.1, List.map sample kr.2)) rows.

(** A cleaning pattern of the type [regex]. *)
Definition regex_ext (pattern : string) : CleanPatternT :=
  ExtDict {| ext_type := Some "regex"; ext_pattern := Some pattern; ext_module := None |}.

(** What the specification's "delete first match" gives for a pattern. *)
Definition spec_regex_remove_first (pattern s : string) : result string :=
  r ← Re.compile pattern; Ok (spec_remove_first_match r s).

(** ** Reading [re.sub] *)

(** Every match replaced, from left to right: the loop of [re.sub] without
    its bound on the number of turns. The text left of a match is kept, the
    match gives way to [repl], and the search goes on after the match. *)
Inductive replaces_all (r : Re.regex) (repl : string)
  : bool -> nat -> string -> string -> Prop :=
  | replaces_none (must_advance : bool) (pos : nat) (s : string) :
      Re.search_from r must_advance pos s = None ->
      replaces_all r repl must_advance pos s s
  | replaces_match (must_advance : bool) (pos : nat) (s : string)
                   (b e : nat) (s' out : string) :
      Re.search_from r must_advance pos s = Some (b, e, s') ->
      replaces_all r repl (e =? b)%nat e s' out ->
      replaces_all r repl must_advance pos s (Py.take (b - pos) s ++ repl ++ out)%string.

(** A character that stands for itself in a pattern. *)
Definition plain_char (c : ascii) : bool :=
  negb (List.existsb (Ascii.eqb c)
          ["\"; "."; "^"; "$"; "*"; "+"; "?"; "{"; "["; "("; ")"; "|"]%char).

(** A text that, as a pattern, matches itself and nothing else. *)
Fixpoint plain_text (p : string) : bool :=
  match p with
  | EmptyString => true
  | String c p' => plain_char c && plain_text p'
  end.

(** The expression a plain text is compiled to. *)
Fixpoint literal (p : string) : Re.regex :=
  match p with
  | EmptyString => Re.Eps
  | String c EmptyString => Re.Chr c
  | String c p' => Re.Seq (Re.Chr c) (literal p')
  end.

(** ** Reading an exception of the aggregation *)

(** An exception that comes from the data: a key that is not there, or an
    integer too large for [float()]. *)
Definition data_error (e : exn) : Prop :=
  e = OverflowError \/ exists k, e = KeyError k.

(** ** Samples to ignore *)

(** The fields of [multiqc.config] that [is_ignore_sample] reads. *)
Record IgnoreConfig := {
  sample_names_ignore : list string;
  sample_names_ignore_re : list string;
}.

(** [arg or conf] for an argument that is [None] or a list: an empty list
    is false. *)
Definition or_config (arg : option (list string)) (conf : list string) : list string :=
  match arg with
  | Some (x :: l) => x :: l
  | _ => conf
  end.

(** [any(p(a) for a in l)]: the generator is read up to the first element
    that holds. *)
Fixpoint py_any {A : Type} (p : A -> result bool) (l : list A) : result bool :=
  match l with
  | [] => Ok false
  | a :: l' => b ← p a; if (b : bool) then Ok true else py_any p l'
  end.

(** [re.match(pattern, s)], as the truth value of its result: a match that
    starts at the first character. *)
Definition re_match (pattern s : string) : result bool :=
  r ← Re.compile pattern;
  Ok (bool_decide (is_Some (Re.rmatch r 0 s (fun _ _ => Some tt)))).

(** What [ignore_samples] is given: a dict, or a value of another type. *)
Inductive sample_data (V O : Type) :=
  | DataDict (d : list (string * V))
  | DataOther (x : O).
Arguments DataDict {V O} d.
Arguments DataOther {V O} x.

Section Ignore.

(** [fnmatch.fnmatch(name, pattern)] and the configuration in force. *)
Variable fnmatch : string -> string -> bool.
Variable config : IgnoreConfig.

(** [is_ignore_sample] *)
Definition is_ignore_sample (s_name : string)
           (sample_names_ignore_arg sample_names_ignore_re_arg : option (list string))
  : result bool :=
  let sample_names_ignore :=
    or_config sample_names_ignore_arg (sample_names_ignore config) in
  let sample_names_ignore_re :=
    or_config sample_names_ignore_re_arg (sample_names_ignore_re config) in
  glob_match ← py_any (fun sn => Ok (fnmatch s_name sn)) sample_names_ignore;
  re_match ← py_any (fun sn => re_match sn s_name) sample_names_ignore_re;
  Ok (glob_match || re_match).

(** [ignore_samples]: [except (TypeError, AttributeError)] gives the data
    back as they were; any other exception is raised. *)
Definition ignore_samples {V O : Type} (data : sample_data V O)
           (sample_names_ignore_arg sample_names_ignore_re_arg : option (list string))
  : result (sample_data V O) :=
  match
    match data with
    | DataDict d =>
        new_data ←
          for_each (fun new_data '(s_name, v) =>
                      ignored ← is_ignore_sample s_name sample_names_ignore_arg
                                  sample_names_ignore_re_arg;
                      if negb ignored then Ok (odict_set s_name v new_data)
                      else Ok new_data)
                   d [];
        Ok (DataDict new_data)
    | DataOther _ => Ok data
    end
  with
  | Raise TypeError => Ok data
  | r => r
  end.

End Ignore.

(** Whether a call to [is_ignore_sample] returns true. *)
Definition ignored (fnmatch : string -> string -> bool) (config : IgnoreConfig)
           (sample_names_ignore_arg sample_names_ignore_re_arg : option (list string))
           (s_name : string) : bool :=
  match is_ignore_sample fnmatch config s_name sample_names_ignore_arg
          sample_names_ignore_re_arg with
  | Ok b => b
  | Raise _ => false
  end.

(** Glob patterns read as plain names, for the examples. *)
Definition fnmatch_plain (name pattern : string) : bool := String.eqb name pattern.

(** A configuration that ignores the sample [b] and the samples whose name
    starts with [c]. *)
Definition ignore_b_c : IgnoreConfig :=
  {| sample_names_ignore := ["b"]; sample_names_ignore_re := ["^c"] |}.

(** Three samples, with a value each. *)
Definition three_samples : list (string * nat) := [("a", 1%nat); ("b", 2%nat); ("c1", 3%nat)].

(** ** Names of data files *)

(** What [write_data_file] reads and changes: [report.saved_raw_data], the
    copy the module keeps, and the calls made to [report.write_data_file]
    (the data, the file name, [sort_cols] and [data_format]), in order. *)
Record RawData (D : Type) := {
  report_saved_raw_data : list (string * D);
  module_saved_raw_data : list (string * D);
  written : list (D * string * bool * option string);
}.
Arguments report_saved_raw_data {D} _.
Arguments module_saved_raw_data {D} _.
Arguments written {D} _.

(** The loop [while fn in report.saved_raw_data], entered with the name
    [fn] and the counter [i]; a unit of fuel is spent on each test. *)
Fixpoint unique_fn (fuel : nat) (saved : list string) (base_fn fn : string) (i : nat)
  : option string :=
  match fuel with
  | O => None
  | S fuel' =>
      if bool_decide (fn ∈ saved)
      then unique_fn fuel' saved base_fn (base_fn ++ "_" ++ pretty i) (S i)
      else Some fn
  end.

(** The name after [if self.mod_cust_config.get("anchor")]: the anchor of
    the module's custom configuration, when there is one that is not
    empty, is added to the name. *)
Definition anchored_fn (cust_anchor : option string) (fn : string) : string :=
  match cust_anchor with
  | Some a => if negb (String.eqb a "") then (fn ++ "_" ++ a)%string else fn
  | None => fn
  end.

(** [write_data_file], for a module whose [mod_cust_config] holds
    [cust_anchor] under ["anchor"] and with [preserve] for
    [config.preserve_module_raw_data]. *)
Definition write_data_file {D : Type} (cust_anchor : option string) (preserve : bool)
           (fuel : nat) (st : RawData D)
           (data : D) (fn : string) (sort_cols : bool) (data_format : option string)
  : option (RawData D) :=
  let fn := anchored_fn cust_anchor fn in
  let i := 1%nat in
  let base_fn := fn in
  fn ← unique_fn fuel (odict_keys (report_saved_raw_data st)) base_fn fn i;
  let st :=
    if preserve then
      {| report_saved_raw_data := odict_set fn data (report_saved_raw_data st);
         module_saved_raw_data := odict_set fn data (module_saved_raw_data st);
         written := written st |}
    else st in
  Some {| report_saved_raw_data := report_saved_raw_data st;
          module_saved_raw_data := module_saved_raw_data st;
          written := written st ++ [(data, fn, sort_cols, data_format)] |}.

(** The names the loop goes through: the name itself, then the name
    followed by [_1], [_2] and so on. *)
Definition candidate (base_fn : string) (k : nat) : string :=
  match k with
  | O => base_fn
  | S _ => (base_fn ++ "_" ++ pretty k)%string
  end.

(** A report in which a module has saved data under the name [stats]. *)
Definition stats_saved : RawData nat :=
  {| report_saved_raw_data := [("stats", 1%nat)];
     module_saved_raw_data := [("stats", 1%nat)];
     written := [(1%nat, "stats", false, None)] |}.

(** ** The General Statistics table *)

(** The settings of a column, in insertion order. *)
Definition header : Type := list (string * value).

(** [report.general_stats_data] and [report.general_stats_headers]. *)
Record GeneralStats := {
  general_stats_data : list (list (string * list InputRowT));
  general_stats_headers : list (list (string * header));
}.

(** The truth value of a value. *)
Definition truthy (v : value) : bool :=
  match v with
  | VInt z => negb (z =? 0)%Z
  | VFloat x => negb (PrimFloat.eqb x 0%float)
  | VBool b => b
  | VStr s => negb (String.eqb s "")
  | VNone => false
  end.

(** [isinstance(v, (int, float, str, bool)) or v is None] *)
Definition is_cell_value (v : value) : bool :=
  match v with
  | VInt _ | VFloat _ | VStr _ | VBool _ => true
  | VNone => true
  end.

(** The rows when samples are not grouped: the dict comprehension over
    [data_by_sample.items()]. *)
Definition ungrouped_rows (data_by_sample : list (string * gmap string value))
  : list (string * list InputRowT) :=
  List.fold_left
    (fun d '(sample, data) =>
       odict_set sample
         [{| sample := sample;
             data := filter (fun kv : string * value => is_cell_value kv.2 = true) data |}]
         d)
    data_by_sample [].

(** The column ids of all the rows. *)
Definition column_ids (rows_by_group : list (string * list InputRowT)) : gset string :=
  List.fold_left
    (fun ids '(_, rows) =>
       List.fold_left (fun ids (row : InputRowT) => ids ∪ dom (data row)) rows ids)
    rows_by_group ∅.

(** The headers guessed from the data: an empty one for each column, the
    columns sorted. *)
Definition guessed_headers (rows_by_group : list (string * list InputRowT))
  : list (string * header) :=
  List.fold_left (fun _headers col_id => odict_set col_id [] _headers)
                 (merge_sort String.le (elements (column_ids rows_by_group))) [].

(** The copy made of the headers that are given, one level deep. *)
Definition copied_headers (headers : list (string * header)) : list (string * header) :=
  List.fold_left
    (fun _headers '(col_id, col) =>
       odict_set col_id (List.fold_left (fun c '(k, v) => odict_set k v c) col []) _headers)
    headers [].

(** The namespace in force at a column: its own when its header has one,
    the one in force before otherwise. *)
Definition namespace_at (namespace : value) (h : header) : value :=
  default namespace (odict_get "namespace" h).

(** What the loop over the columns makes of a header, with the namespace in
    force at this column. *)
Definition completed_header (name : string) (namespace : value) (col_id : string)
           (h : header) : result header :=
  let h := odict_set "namespace" (VStr name) h in
  h ← (if truthy namespace then
         match namespace with
         | VStr s => Ok (odict_set "namespace" (VStr (name ++ ": " ++ s)) h)
         | _ => Raise TypeError
         end
       else Ok h);
  if bool_decide ("description" ∈ odict_keys h) then Ok h
  else Ok (odict_set "description" (default (VStr col_id) (odict_get "title" h)) h).

(** One turn of the loop over [_headers.keys()]: the variable [namespace]
    is assigned to, and so goes on to the next turn. *)
Definition header_step (name : string) (st : value * list (string * header))
           (col_id : string) : result (value * list (string * header)) :=
  let '(namespace, _headers) := st in
  match odict_get col_id _headers with
  | None => Raise (KeyError col_id)
  | Some h =>
      let namespace := namespace_at namespace h in
      h ← completed_header name namespace col_id h;
      Ok (namespace, odict_set col_id h _headers)
  end.

(** [general_stats_addcols], for a module called [name]; [data_by_sample]
    and [headers] are given as the items of the dicts. *)
Definition general_stats_addcols (name anchor : string) (skip_generalstats : bool)
           (config : Config) (report : GeneralStats)
           (data_by_sample : list (string * gmap string value))
           (headers : option (list (string * header))) (namespace : value)
           (group_samples_config : SampleGroupingConfig) : result GeneralStats :=
  if skip_generalstats then Ok report
  else
    rows_by_group ←
      match generalstats_sample_merge_groups config with
      | _ :: _ =>
          group_samples_and_average_metrics anchor config
            (list_to_map data_by_sample) group_samples_config
      | [] => Ok (ungrouped_rows data_by_sample)
      end;
    let _headers :=
      match headers with
      | None | Some [] => guessed_headers rows_by_group
      | Some headers => copied_headers headers
      end in
    '(_, _headers) ← for_each (header_step name) (odict_keys _headers) (namespace, _headers);
    Ok {| general_stats_data := general_stats_data report ++ [rows_by_group];
          general_stats_headers := general_stats_headers report ++ [_headers] |}.

(** The headers of the columns as the loop leaves them, one after the
    other, each with the namespace in force. *)
Fixpoint completed_headers (name : string) (namespace : value)
         (_headers : list (string * header)) : result (list (string * header)) :=
  match _headers with
  | [] => Ok []
  | (col_id, h) :: rest =>
      let namespace := namespace_at namespace h in
      h ← completed_header name namespace col_id h;
      rest ← completed_headers name namespace rest;
      Ok ((col_id, h) :: rest)
  end.

(** The namespace a column is shown with: the name of the module, followed
    by the namespace in force when it is a string that is not empty. *)
Definition shown_namespace (name : string) (namespace : value) : string :=
  match namespace with
  | VStr s => if String.eqb s "" then name else (name ++ ": " ++ s)%string
  | _ => name
  end.

(** The two samples of the example, as the items of [data_by_sample]. *)
Definition coverage_items : list (string * gmap string value) :=
  [("s1", list_to_map [("cov", VInt 10); ("reads", VInt 100)]);
   ("s2", list_to_map [("cov", VInt 20); ("reads", VInt 300)])].

(** A report with nothing in the table yet. *)
Definition empty_stats : GeneralStats :=
  {| general_stats_data := []; general_stats_headers := [] |}.

(** The report after the two samples were added by a module called
    [Bowtie 2], each sample in a group of its own, with guessed headers. *)
Definition coverage_stats : GeneralStats :=
  {| general_stats_data :=
       [[("s1", [{| sample := "s1";
                    data := list_to_map [("cov", VInt 10); ("reads", VInt 100)] |}]);
         ("s2", [{| sample := "s2";
                    data := list_to_map [("cov", VInt 20); ("reads", VInt 300)] |}])]];
     general_stats_headers :=
       [[("cov", [("namespace", VStr "Bowtie 2"); ("description", VStr "cov")]);
         ("reads", [("namespace", VStr "Bowtie 2"); ("description", VStr "reads")])]] |}.

(** Headers in which the first column only gives a namespace. *)
Definition alignment_headers : list (string * header) :=
  [("cov", [("namespace", VStr "alignment")]); ("reads", [("title", VStr "Reads")])].

(** The report after the two samples were added with these headers. *)
Definition alignment_stats : GeneralStats :=
  {| general_stats_data := general_stats_data coverage_stats;
     general_stats_headers :=
       [[("cov", [("namespace", VStr "Bowtie 2: alignment"); ("description", VStr "cov")]);
         ("reads", [("title", VStr "Reads"); ("namespace", VStr "Bowtie 2: alignment");
                    ("description", VStr "Reads")])]] |}.

(** ** The RSeQC module

    [MultiqcModule.__init__] of src/multiqc/modules/rseqc/rseqc.py, after
    the call to the initialiser of the base class. *)

(** What the import of a submodule and the call of its [parse_reports]
    come to: the number of reports parsed, an [ImportError] or an
    [AttributeError], which the loop catches, or another exception. *)
Inductive parsed :=
  | Count (n : Z)
  | Missing
  | Failed (e : exn).

(** What the initialiser comes to: the module with the counts by section,
    [ModuleNoSamplesFound], or the exception of a submodule. *)
Inductive rseqc_init (St : Type) :=
  | Initialised (self : St) (n : list (string * Z))
  | ModuleNoSamplesFound
  | Raised (e : exn).
Arguments Initialised {St} self n.
Arguments ModuleNoSamplesFound {St}.
Arguments Raised {St} e.

(** The sections used when [config.rseqc_sections] is not set or empty. *)
Definition default_rseqc_sections : list string :=
  ["read_distribution"; "gene_body_coverage"; "inner_distance"; "read_gc";
   "read_duplication"; "junction_annotation"; "junction_saturation";
   "infer_experiment"; "bam_stat"; "tin"].

Section RSeQC.

(** The state of the module and the submodules: [parse_reports sm self]
    stands for importing [multiqc.modules.rseqc.sm] and calling its
    [parse_reports] on the module. *)
Variable St : Type.
Variable parse_reports : string -> St -> St * parsed.

(** The sections gone through: [getattr(config, "rseqc_sections", [])],
    replaced when it is empty. *)
Definition sections_used (rseqc_sections : option (list string)) : list string :=
  let rseqc_sections := default [] rseqc_sections in
  if (List.length rseqc_sections =? 0)%nat then default_rseqc_sections
  else rseqc_sections.

(** The loop over the sections. *)
Fixpoint call_submodules (sections : list string) (self : St) (n : list (string * Z))
  : St * list (string * Z) + exn :=
  match sections with
  | [] => inl (self, n)
  | sm :: sections' =>
      match parse_reports sm self with
      | (self, Count k) => call_submodules sections' self (odict_set sm k n)
      | (self, Missing) => call_submodules sections' self n
      | (_, Failed e) => inr e
      end
  end.

(** [sum(n.values())] *)
Definition sum_values (n : list (string * Z)) : Z :=
  List.fold_left Z.add (List.map snd n) 0%Z.

(** The initialiser. *)
Definition rseqc_initialise (rseqc_sections : option (list string)) (self : St)
  : rseqc_init St :=
  match call_submodules (sections_used rseqc_sections) self [] with
  | inl (self, n) =>
      if (sum_values n =? 0)%Z then ModuleNoSamplesFound else Initialised self n
  | inr e => Raised e
  end.

End RSeQC.

(** Submodules of which only [bam_stat] is there, and finds no report. *)
Definition only_bam_stat (sm : string) : parsed :=
  if String.eqb sm "bam_stat" then Count 0 else Missing.

(** * Properties *)

(** ** Checks of the embedding on examples *)

Example basename_ex : Py.basename "a/b/c.txt" = "c.txt" /\ Py.basename "dir/" = "".
Proof. split; reflexivity. Qed.

Example replace_ex :
  Py.replace "aXbXc" "X" "" = "abc" /\ Py.replace "abc" "" "-" = "-a-b-c-" /\
  Py.replace "aaa" "aa" "b" = "ba".
Proof. repeat split; reflexivity. Qed.

Example strip_ex : Py.strip "  a b  " = "a b" /\ Py.strip "   " = "".
Proof. split; reflexivity. Qed.

Example path_parts_ex :
  Py.path_parts "a/b/c" = ["a"; "b"; "c"] /\ Py.path_parts "/x//y/./z/" = ["/"; "x"; "y"; "z"].
Proof. split; reflexivity. Qed.

Example search_from_ex :
  Re.search_from (Re.Seq (Re.Chr "b") (Re.Rep 0 None true (Re.Chr "c"))) false 0 "abccd"
  = Some (1, 4, "d")%nat.
Proof. reflexivity. Qed.

Example sub_empty_matches_ex :
  Re.sub_regex (Re.Rep 0 None true (Re.Chr "x")) "-" "abxd" = "-a-b--d-".
Proof. reflexivity. Qed.

Example compile_ex :
  Re.compile "_R1_\d{3}$"
  = Ok (Re.Seq (Re.Chr "_") (Re.Seq (Re.Chr "R") (Re.Seq (Re.Chr "1") (Re.Seq (Re.Chr "_")
        (Re.Seq (Re.Rep 3 (Some 3) true (Re.CSet false Re.digit_ranges)) Re.Eol))))).
Proof. reflexivity. Qed.

(** What [re] reads differently from a plain reading of the pattern, and where the
    fragment ends. *)
Example compile_edges_ex :
  Re.sub "a{,}" "" "xaaay" = Ok "xy"
  /\ Re.compile "{2}" = Raise ReError
  /\ Re.compile "[\w-x]" = Raise ReError
  /\ Re.compile "(" = Raise ReError
  /\ Re.compile "\bx" = Raise NotModelled
  /\ Re.compile "(?i)x" = Raise NotModelled
  /\ Re.compile "x(|a){1,2}" = Raise NotModelled
  /\ Re.compile "a{65536}" = Raise NotModelled.
Proof. repeat split; reflexivity. Qed.

Example expand_template_edges_ex :
  Re.expand_template "a\n\\b" = Ok ("a" +:+ String (Ascii.ascii_of_nat 10) "\b")
  /\ Re.expand_template "\q" = Raise ReError
  /\ Re.expand_template "\1" = Raise NotModelled
  /\ Re.expand_template "\g<name>" = Raise NotModelled.
Proof. repeat split; reflexivity. Qed.


(** ** Exceptions and loops *)

Lemma bind_Ok {A B : Type} (r : result A) (k : A -> result B) (y : B) :
  (r ≫= k) = Ok y -> exists x, r = Ok x /\ k x = Ok y.
Proof. destruct r as [x|e]; simpl; [eauto | discriminate]. Qed.

Lemma bind_Raise {A B : Type} (r : result A) (k : A -> result B) (e : exn) :
  (r ≫= k) = Raise e -> r = Raise e \/ exists x, r = Ok x /\ k x = Raise e.
Proof. destruct r as [x|e']; simpl; [eauto | intros [= ->]; auto]. Qed.

(** Splitting a hypothesis [bind = Ok _] in its steps. *)
Ltac inv_bind H :=
  let x := fresh "x" in
  let Hx := fresh "Hx" in
  apply bind_Ok in H; destruct H as (x & Hx & H).

Lemma map_result_Ok_length {A B : Type} (f : A -> result B) (l : list A) (ys : list B) :
  map_result f l = Ok ys -> List.length ys = List.length l.
Proof.
  revert ys; induction l as [|a l IH]; simpl; intros ys H.
  - injection H as <-; reflexivity.
  - inv_bind H. inv_bind H. injection H as <-. simpl. f_equal. eauto.
Qed.

Lemma map_result_Ok_Forall2 {A B : Type} (f : A -> result B) (l : list A) (ys : list B) :
  map_result f l = Ok ys -> Forall2 (fun a y => f a = Ok y) l ys.
Proof.
  revert ys; induction l as [|a l IH]; simpl; intros ys H.
  - injection H as <-; constructor.
  - inv_bind H. inv_bind H. injection H as <-. constructor; eauto.
Qed.

Lemma map_result_total {A B : Type} (f : A -> result B) (l : list A) :
  Forall (fun a => exists y, f a = Ok y) l -> exists ys, map_result f l = Ok ys.
Proof.
  induction 1 as [|a l [y Hy] _ [ys Hys]]; simpl; [eauto|].
  rewrite Hy; simpl. rewrite Hys; simpl. eauto.
Qed.

Lemma map_result_Raise {A B : Type} (f : A -> result B) (l : list A) (e : exn) :
  map_result f l = Raise e -> exists a, a ∈ l /\ f a = Raise e.
Proof.
  induction l as [|a l IH]; simpl; [discriminate|]. intros H.
  apply bind_Raise in H as [H | (y & Hy & H)].
  - exists a; split; [left | done].
  - apply bind_Raise in H as [H | (ys & _ & H)]; [|discriminate].
    destruct (IH H) as (b & Hb & Hfb). exists b; split; [by right | done].
Qed.

Lemma map_result_fails {A B : Type} (f : A -> result B) (l : list A) (a : A) :
  a ∈ l -> is_ok (f a) = false -> is_ok (map_result f l) = false.
Proof.
  induction 1 as [a l | a b l Hin IH]; simpl; intros Ha.
  - destruct (f a); [discriminate | reflexivity].
  - destruct (f b); simpl; [|reflexivity].
    specialize (IH Ha). destruct (map_result f l); [discriminate | reflexivity].
Qed.

Lemma for_each_app {A S : Type} (body : S -> A -> result S) (l1 l2 : list A) (acc : S) :
  for_each body (l1 ++ l2) acc = for_each body l1 acc ≫= for_each body l2.
Proof.
  revert acc; induction l1 as [|a l1 IH]; simpl; intros acc; [reflexivity|].
  destruct (body acc a); simpl; [apply IH | reflexivity].
Qed.

(** An invariant of the accumulator is kept by a loop that returns. *)
Lemma for_each_invariant {A S : Type} (P : S -> Prop) (body : S -> A -> result S)
      (l : list A) (acc acc' : S) :
  (forall s a s', a ∈ l -> P s -> body s a = Ok s' -> P s') ->
  P acc -> for_each body l acc = Ok acc' -> P acc'.
Proof.
  revert acc; induction l as [|a l IH]; simpl; intros acc Hstep Hacc H.
  - injection H as <-; exact Hacc.
  - inv_bind H. eapply IH; [| |exact H].
    + intros s b s' Hb. apply Hstep. by right.
    + eapply Hstep; [left | exact Hacc | exact Hx].
Qed.

(** A loop whose every turn returns, returns. *)
Lemma for_each_total {A S : Type} (P : S -> Prop) (body : S -> A -> result S)
      (l : list A) (acc : S) :
  (forall s a, a ∈ l -> P s -> exists s', body s a = Ok s' /\ P s') ->
  P acc -> exists acc', for_each body l acc = Ok acc' /\ P acc'.
Proof.
  revert acc; induction l as [|a l IH]; simpl; intros acc Hstep Hacc; [eauto|].
  destruct (Hstep acc a) as (s' & Hs' & HP); [left | done |].
  rewrite Hs'; simpl. apply IH; [|done].
  intros s b Hb. apply Hstep. by right.
Qed.

(** The exception of a loop is the exception of one of its turns. *)
Lemma for_each_Raise {A S : Type} (body : S -> A -> result S) (l : list A) (acc : S) (e : exn) :
  for_each body l acc = Raise e -> exists s a, a ∈ l /\ body s a = Raise e.
Proof.
  revert acc; induction l as [|a l IH]; simpl; intros acc H; [discriminate|].
  apply bind_Raise in H as [H | (s' & _ & H)].
  - exists acc, a; split; [left | done].
  - destruct (IH _ H) as (s & b & Hb & Hs). exists s, b; split; [by right | done].
Qed.

(** ** What [clean_s_name] may raise *)

Lemma only_re_bad {A : Type} : only_re (@Re.bad A).
Proof. intros e [= <-]. by left. Qed.

Lemma only_re_outside {A : Type} : only_re (@Re.outside A).
Proof. intros e [= <-]. by right. Qed.

Lemma only_re_Ok {A : Type} (x : A) : only_re (Ok x).
Proof. intros e [=]. Qed.

Lemma only_re_bind {A B : Type} (r : result A) (k : A -> result B) :
  only_re r -> (forall x, only_re (k x)) -> only_re (r ≫= k).
Proof.
  intros Hr Hk e H. apply bind_Raise in H as [H | (x & _ & H)]; [by apply Hr | by apply (Hk x)].
Qed.

(** Going through a definition made of these. *)
Ltac solve_only_re :=
  repeat first
    [ apply only_re_bad
    | apply only_re_outside
    | apply only_re_Ok
    | assumption
    | match goal with H : forall s, only_re (_ s) |- _ => apply H end
    | match goal with H : forall b s, only_re (_ b s) |- _ => apply H end
    | apply only_re_bind; [|intros ?]
    | case_match ].

Lemma parse_escape_only_re (s : string) : only_re (Re.parse_escape s).
Proof. unfold Re.parse_escape. solve_only_re. Qed.

Lemma parse_set_char_only_re (s : string) : only_re (Re.parse_set_char s).
Proof. unfold Re.parse_set_char. solve_only_re. Qed.

Lemma parse_set_items_only_re (fuel : nat) :
  forall first s, only_re (Re.parse_set_items fuel first s).
Proof.
  induction fuel as [|fuel IH]; intros first s; [apply only_re_outside|].
  cbn [Re.parse_set_items]. pose proof parse_set_char_only_re as Hc. solve_only_re.
Qed.

Lemma parse_set_only_re (s : string) : only_re (Re.parse_set s).
Proof.
  unfold Re.parse_set. pose proof parse_set_items_only_re as Hi.
  repeat first [ apply only_re_Ok | apply Hi | apply only_re_bind; [|intros ?] | case_match ].
Qed.

Lemma parse_quant_only_re (r : Re.regex) (s : string) : only_re (Re.parse_quant r s).
Proof. unfold Re.parse_quant. solve_only_re. Qed.

Lemma parse_atom_only_re (inner : string -> result (Re.regex * string)) (s : string) :
  (forall s, only_re (inner s)) -> only_re (Re.parse_atom inner s).
Proof.
  intros Hinner. unfold Re.parse_atom.
  pose proof parse_set_only_re as Hs. pose proof parse_escape_only_re as He. solve_only_re.
Qed.

Lemma parse_seq_only_re (inner : string -> result (Re.regex * string)) (fuel : nat) :
  (forall s, only_re (inner s)) -> forall s, only_re (Re.parse_seq inner fuel s).
Proof.
  intros Hinner. induction fuel as [|fuel IH]; intros s; [apply only_re_outside|].
  cbn [Re.parse_seq].
  assert (Hstep : only_re ('(a, s1) ← Re.parse_atom inner s;
                           '(q, s2) ← Re.parse_quant a s1;
                           '(rest, s3) ← Re.parse_seq inner fuel s2;
                           Ok (match rest with Re.Eps => q | _ => Re.Seq q rest end, s3))).
  { apply only_re_bind; [by apply parse_atom_only_re|]. intros [a s1].
    apply only_re_bind; [apply parse_quant_only_re|]. intros [q s2].
    apply only_re_bind; [apply IH|]. intros [rest s3]. apply only_re_Ok. }
  repeat first [ apply only_re_Ok | exact Hstep | case_match ].
Qed.

Lemma parse_alt_only_re (inner : string -> result (Re.regex * string)) (fuel : nat) :
  (forall s, only_re (inner s)) -> forall s, only_re (Re.parse_alt inner fuel s).
Proof.
  intros Hinner. induction fuel as [|fuel IH]; intros s; [apply only_re_outside|].
  cbn [Re.parse_alt]. apply only_re_bind; [by apply parse_seq_only_re|].
  intros [r1 s1]. solve_only_re.
Qed.

Lemma parse_regex_only_re (depth : nat) : forall s, only_re (Re.parse_regex depth s).
Proof.
  induction depth as [|depth IH]; intros s; [apply only_re_outside|].
  cbn [Re.parse_regex]. by apply parse_alt_only_re.
Qed.

Lemma compile_only_re (pattern : string) : only_re (Re.compile pattern).
Proof.
  unfold Re.compile. apply only_re_bind; [apply parse_regex_only_re|].
  intros [r rest]. solve_only_re.
Qed.

Lemma compile_Raise (pattern : string) (e : exn) :
  Re.compile pattern = Raise e -> re_raised e.
Proof. apply compile_only_re. Qed.

Lemma expand_template_only_re_aux (n : nat) :
  forall repl, (String.length repl <= n)%nat -> only_re (Re.expand_template repl).
Proof.
  induction n as [|n IH]; intros repl Hlen.
  - destruct repl; simpl in *; [apply only_re_Ok | lia].
  - destruct repl as [|c repl]; [apply only_re_Ok|].
    simpl in Hlen.
    assert (Hrec : forall s, (String.length s <= n)%nat ->
                             forall k : string -> string,
                               only_re (Re.expand_template s ≫= fun t => Ok (k t))).
    { intros s Hs k. apply only_re_bind; [by apply IH | intros t; apply only_re_Ok]. }
    cbn [Re.expand_template].
    destruct (Ascii.ascii_dec c "\") as [-> | Hc].
    + destruct repl as [|c' repl]; [apply only_re_bad|].
      simpl in Hlen.
      destruct (Ascii.eqb c' "\"); [apply Hrec; lia|].
      destruct (Re.template_escape c'); [apply Hrec; lia|].
      destruct (_ || _); [apply only_re_outside|].
      destruct (Re.is_letter c'); [apply only_re_bad | apply Hrec; lia].
    + assert (H' : only_re (Re.expand_template repl ≫= fun t => Ok (String c t)))
        by (apply Hrec; lia).
      revert H'. destruct c as [[] [] [] [] [] [] [] []]; try exact (fun H => H);
        exfalso; apply Hc; reflexivity.
Qed.

Lemma expand_template_Raise (repl : string) (e : exn) :
  Re.expand_template repl = Raise e -> re_raised e.
Proof. apply (expand_template_only_re_aux (String.length repl)); lia. Qed.

Lemma sub_Raise (pattern repl s : string) (e : exn) :
  Re.sub pattern repl s = Raise e -> re_raised e.
Proof.
  unfold Re.sub. intros H.
  apply bind_Raise in H as [H | (r & _ & H)]; [by apply compile_Raise in H|].
  apply bind_Raise in H as [H | (t & _ & H)]; [by apply expand_template_Raise in H|].
  discriminate.
Qed.

Lemma search_Raise (pattern s : string) (e : exn) :
  Re.search pattern s = Raise e -> re_raised e.
Proof.
  unfold Re.search. intros H.
  apply bind_Raise in H as [H | (r & _ & H)]; [by apply compile_Raise in H | discriminate].
Qed.

Lemma fullmatch_Raise (pattern s : string) (e : exn) :
  Re.fullmatch pattern s = Raise e -> re_raised e.
Proof.
  unfold Re.fullmatch. intros H.
  apply bind_Raise in H as [H | (r & _ & H)]; [by apply compile_Raise in H | discriminate].
Qed.

Lemma sub_empty_repl (pattern s : string) (r : Re.regex) :
  Re.compile pattern = Ok r -> Re.sub pattern "" s = Ok (Re.sub_regex r "" s).
Proof. unfold Re.sub. intros ->. reflexivity. Qed.

(** The three pairs of expressions of [_clean_fastq_pair] compile. *)
Lemma _clean_fastq_pair_total (r1 r2 : string) :
  exists o, _clean_fastq_pair r1 r2 = Ok o.
Proof.
  unfold _clean_fastq_pair.
  repeat
    (match goal with
     | |- context [Re.sub ?p "" ?s] =>
         let c := eval vm_compute in (Re.compile p) in
         match c with
         | Ok ?r => rewrite (sub_empty_repl p s r) by (vm_compute; reflexivity)
         end
     | |- context [Re.sub ?p "_" ?s] =>
         let c := eval vm_compute in (Re.compile p) in
         match c with
         | Ok ?r =>
             replace (Re.sub p "_" s) with (Ok (A:=string) (Re.sub_regex r "_" s))
               by (unfold Re.sub;
                   replace (Re.compile p) with (Ok (A:=Re.regex) r)
                     by (vm_compute; reflexivity);
                   reflexivity)
         end
     end; simpl mbind; cbn beta iota).
  repeat (match goal with |- context [if ?b then _ else _] => destruct b end); eauto.
Qed.

Section CleanErrors.

Variable anchor : string.
Variable config : Config.

Lemma apply_ext_Raise (name : string) (_ext : CleanPatternT) (e : exn) :
  apply_ext anchor name _ext = Raise e ->
  e = ValueError "empty separator" \/ re_raised e.
Proof.
  unfold apply_ext.
  destruct (skipped_for_module _ _); [discriminate|].
  destruct (ext_type _) as [ty|]; [|discriminate].
  destruct (String.eqb ty "truncate").
  { unfold Py.split1_head. destruct (default _ _); [intros [= <-]; auto | discriminate]. }
  destruct (_ || _); [discriminate|].
  destruct (String.eqb ty "regex"); [intros H%sub_Raise; auto|].
  destruct (String.eqb ty "regex_keep"); [|discriminate].
  intros H. apply bind_Raise in H as [H%search_Raise | (m & _ & H)]; [auto | discriminate].
Qed.

Lemma apply_ext_total (name : string) (_ext : CleanPatternT) :
  ext_ok anchor _ext = true -> exists name', apply_ext anchor name _ext = Ok name'.
Proof.
  unfold ext_ok, apply_ext.
  destruct (skipped_for_module _ _); simpl; [eauto|].
  destruct (ext_type _) as [ty|]; [|eauto].
  destruct (String.eqb ty "truncate").
  { unfold Py.split1_head. destruct (default _ _); [discriminate | eauto]. }
  destruct (String.eqb ty "remove" || String.eqb ty "replace"); [eauto|].
  unfold Re.sub, Re.search.
  destruct (String.eqb ty "regex"); simpl.
  { destruct (Re.compile _); [simpl; eauto | discriminate]. }
  destruct (String.eqb ty "regex_keep"); [|eauto].
  destruct (Re.compile _); [simpl; eauto | discriminate].
Qed.

Lemma replace_body_Raise (name : string) (rule : string * string) (e : exn) :
  replace_body config name rule = Raise e -> re_raised e.
Proof.
  unfold replace_body. destruct rule as [s_name_search s_name_replace]. intros H.
  apply bind_Raise in H as [H | (skip & _ & H)].
  - destruct (sample_names_replace_exact config); [|discriminate].
    destruct (_ && _); [discriminate|].
    destruct (sample_names_replace_regex config); [|discriminate].
    apply bind_Raise in H as [H%fullmatch_Raise | (b & _ & H)]; [done | discriminate].
  - destruct skip; [discriminate|].
    destruct (sample_names_replace_regex config); [by apply sub_Raise in H|].
    destruct (sample_names_replace_complete config); discriminate.
Qed.

(** A replacement rule raises nothing that comes from Python: [re.error]
    is caught, and nothing else is raised inside the fragment. *)
Lemma apply_replace_Raise (name : string) (rule : string * string) (e : exn) :
  apply_replace config name rule = Raise e -> e = NotModelled.
Proof.
  unfold apply_replace.
  destruct (replace_body config name rule) as [t|e'] eqn:H; [discriminate|].
  apply replace_body_Raise in H as [-> | ->]; [discriminate | by intros [= <-]].
Qed.

(** A well-formed replacement rule returns. *)
Lemma apply_replace_total (name : string) (rule : string * string) :
  rule_ok config rule = true -> exists name', apply_replace config name rule = Ok name'.
Proof.
  intros Hok. destruct (apply_replace config name rule) as [t|e] eqn:H; [eauto|].
  exfalso. pose proof (apply_replace_Raise _ _ _ H) as ->.
  unfold apply_replace in H.
  destruct (replace_body config name rule) as [t|e'] eqn:Hbody; [discriminate|].
  assert (e' = NotModelled) as -> by (destruct e'; congruence). clear H.
  unfold rule_ok in Hok. unfold replace_body in Hbody.
  destruct rule as [s_name_search s_name_replace]. simpl in Hok.
  destruct (sample_names_replace_regex config); simpl in Hok.
  - apply andb_prop in Hok as [Hc Ht].
    unfold Re.fullmatch, Re.sub in Hbody.
    destruct (Re.compile s_name_search) as [r|ec]; simpl in *.
    + destruct (sample_names_replace_exact config); simpl in Hbody.
      * destruct (negb _); simpl in Hbody; [discriminate|].
        destruct (Re.expand_template s_name_replace) as [t|et]; simpl in *;
          [discriminate|]. by injection Hbody as ->.
      * destruct (Re.expand_template s_name_replace) as [t|et]; simpl in *;
          [discriminate|]. by injection Hbody as ->.
    + destruct (sample_names_replace_exact config); simpl in Hbody;
        by injection Hbody as ->.
  - destruct (sample_names_replace_exact config); simpl in Hbody.
    + destruct (negb _); simpl in Hbody; [discriminate|].
      destruct (sample_names_replace_complete config); discriminate.
    + destruct (sample_names_replace_complete config); discriminate.
Qed.

Lemma replacements_total (rules : list (string * string)) (name : string) :
  forallb (rule_ok config) rules = true ->
  exists name', for_each (apply_replace config) rules name = Ok name'.
Proof.
  intros Hok.
  destruct (for_each_total (fun _ => True) (apply_replace config) rules name)
    as (name' & H & _); [|done|eauto].
  intros s a Ha _. rewrite forallb_forall in Hok.
  destruct (apply_replace_total s a) as [s' Hs']; [|eauto].
  apply Hok. by apply list_elem_of_In.
Qed.

Variable f : f_arg.
Variables root filename search_pattern_key : option string.
Variable fn_clean_exts_arg : option (list CleanPatternT).
Variable fn_clean_trim_arg : option (list string).
Variable prepend_dirs_arg : option bool.

Lemma clean_one_Raise (s : string) (e : exn) :
  clean_one anchor config s f root filename search_pattern_key
    fn_clean_exts_arg fn_clean_trim_arg prepend_dirs_arg = Raise e ->
  e = ValueError "empty separator" \/ re_raised e.
Proof.
  unfold clean_one. intros H.
  apply bind_Raise in H as [H | (t & _ & H)].
  - unfold trim_s_name in H.
    apply bind_Raise in H as [H | (t & _ & H)]; [|discriminate].
    unfold stripped_s_name in H.
    apply bind_Raise in H as [H | (t & _ & H)]; [|discriminate].
    destruct (fn_clean_sample_names config); [|discriminate].
    apply bind_Raise in H as [H | (t & _ & H)]; [|discriminate].
    apply for_each_Raise in H as (t & a & _ & H). by apply apply_ext_Raise in H.
  - apply for_each_Raise in H as (t' & rule & _ & H).
    apply apply_replace_Raise in H as ->. right. by right.
Qed.

Lemma clean_one_total (s : string) :
  forallb (ext_ok anchor) (default (fn_clean_exts config) fn_clean_exts_arg) = true ->
  forallb (rule_ok config) (sample_names_replace config) = true ->
  exists name,
    clean_one anchor config s f root filename search_pattern_key
      fn_clean_exts_arg fn_clean_trim_arg prepend_dirs_arg = Ok name.
Proof.
  intros Hok Hrules. unfold clean_one, trim_s_name, stripped_s_name.
  match goal with
  | |- context [for_each (apply_ext anchor) ?l ?n] =>
      destruct (for_each_total (fun _ => True) (apply_ext anchor) l n) as (t & Ht & _)
  end; [| done |].
  { intros t a Ha _. rewrite forallb_forall in Hok.
    destruct (apply_ext_total t a) as [t' Ht']; [|eauto].
    apply Hok. by apply list_elem_of_In. }
  destruct (fn_clean_sample_names config).
  - rewrite Ht. simpl. by apply replacements_total.
  - simpl. by apply replacements_total.
Qed.

End CleanErrors.

(** ** C7: the empty list is the only input that raises its error *)

Lemma empty_list_error_distinct (e : exn) :
  e = ValueError "empty separator" \/ re_raised e -> e <> empty_list_error.
Proof. intros [-> | [-> | ->]]; discriminate. Qed.

Section CleanList.

Variable anchor : string.
Variable config : Config.
Variable f : f_arg.
Variables root filename search_pattern_key : option string.
Variable fn_clean_exts_arg : option (list CleanPatternT).
Variable fn_clean_trim_arg : option (list string).
Variable prepend_dirs_arg : option bool.

#[local] Abbreviation clean s_name :=
  (clean_s_name anchor config s_name f root filename search_pattern_key
     fn_clean_exts_arg fn_clean_trim_arg prepend_dirs_arg).

Lemma clean_SName (s : string) :
  clean (SName s) =
  clean_one anchor config s f root filename search_pattern_key
    fn_clean_exts_arg fn_clean_trim_arg prepend_dirs_arg.
Proof. reflexivity. Qed.

(** The exception of a non-empty list is the exception of an element. *)
Lemma clean_SNames_Raise (l : list string) (e : exn) :
  l <> [] -> clean (SNames l) = Raise e ->
  exists s, s ∈ l /\ clean (SName s) = Raise e.
Proof.
  intros Hl. unfold clean_s_name.
  destruct l as [|a l]; [done|]. simpl Nat.eqb. cbn iota. intros H.
  apply bind_Raise in H as [H | (names & _ & H)].
  - apply map_result_Raise in H as (s & Hs & H). eauto.
  - destruct (_ =? 1)%nat; [discriminate|].
    apply bind_Raise in H as [H | (o & _ & H)].
    + destruct names as [|r1 [|r2 [|]]]; try discriminate.
      destruct (_clean_fastq_pair_total r1 r2) as [o Ho]. congruence.
    + destruct o; discriminate.
Qed.

Lemma clean_SNames_total (l : list string) :
  l <> [] ->
  Forall (fun s => exists name, clean (SName s) = Ok name) l ->
  exists name, clean (SNames l) = Ok name.
Proof.
  intros Hl Hall. unfold clean_s_name.
  destruct l as [|a l]; [done|]. simpl Nat.eqb. cbn iota.
  destruct (map_result_total _ _ Hall) as [names Hnames].
  unfold clean_s_name in Hnames. rewrite Hnames. simpl.
  destruct (_ =? 1)%nat; [eauto|].
  destruct names as [|r1 [|r2 [|]]]; simpl; eauto.
  destruct (_clean_fastq_pair_total r1 r2) as [[m|] ->]; simpl; eauto.
Qed.

End CleanList.

(** C7 (amended). [clean_s_name] raises the error of the empty list on the
    empty list and on no other input. A name or a non-empty list of names can
    still raise another error, so the last part has two premises: the
    cleaning patterns in force are well formed (no empty truncate pattern,
    regular expressions that compile) and so are the replacement rules
    (read as regular expressions, they raise nothing but [re.error], which
    the code catches). Then no name and no non-empty list of names makes
    [clean_s_name] raise. *)
Theorem clean_s_name_raises_iff_empty_list
        (anchor : string) (config : Config) (f : f_arg)
        (root filename search_pattern_key : option string)
        (fn_clean_exts_arg : option (list CleanPatternT))
        (fn_clean_trim_arg : option (list string)) (prepend_dirs_arg : option bool) :
  clean_s_name anchor config (SNames []) f root filename search_pattern_key
    fn_clean_exts_arg fn_clean_trim_arg prepend_dirs_arg = Raise empty_list_error
  /\ (forall s_name,
        clean_s_name anchor config s_name f root filename search_pattern_key
          fn_clean_exts_arg fn_clean_trim_arg prepend_dirs_arg = Raise empty_list_error ->
        s_name = SNames [])
  /\ (forallb (ext_ok anchor) (default (fn_clean_exts config) fn_clean_exts_arg) = true ->
      forallb (rule_ok config) (sample_names_replace config) = true ->
      forall s_name, s_name <> SNames [] ->
        exists name,
          clean_s_name anchor config s_name f root filename search_pattern_key
            fn_clean_exts_arg fn_clean_trim_arg prepend_dirs_arg = Ok name).
Proof.
  split; [reflexivity|]. split.
  - intros [s | l] H.
    + apply clean_one_Raise in H. by apply empty_list_error_distinct in H.
    + destruct l as [|a l]; [reflexivity|].
      apply clean_SNames_Raise in H as (s & _ & H); [|done].
      apply clean_one_Raise in H. by apply empty_list_error_distinct in H.
  - intros Hok Hrules [s | l] Hne.
    + by apply clean_one_total.
    + apply clean_SNames_total; [congruence|].
      apply Forall_forall. intros s _. by apply clean_one_total.
Qed.

Lemma clean_s_name_raises_iff_empty_list_witness :
  exists name, clean_default "bowtie2" lane_config (SName "run1/sample_A_L001.fastq.gz") = Ok name.
Proof.
  apply (proj2 (proj2 (clean_s_name_raises_iff_empty_list
                         "bowtie2" lane_config FNone None None None None None None))).
  - reflexivity.
  - reflexivity.
  - discriminate.
Defined.

(** C7 as stated fails on a name cleaned with an empty truncate pattern:
    [str.split] raises [ValueError], whatever the name. *)
Lemma clean_s_name_raises_on_empty_pattern :
  clean_default "bowtie2" (config_with [ExtStr ""] [] [] []) (SName "sample")
  = Raise (ValueError "empty separator").
Proof. reflexivity. Qed.

(** ** C3: a list of names *)

Lemma remove_dups_all_equal (x : string) (names : list string) :
  names <> [] -> (forall y, y ∈ names -> y = x) -> remove_dups names = [x].
Proof.
  induction names as [|a names IH]; [done|]. intros _ Hall.
  assert (a = x) as -> by (apply Hall; left).
  destruct names as [|b names]; [reflexivity|].
  cbn [remove_dups]. cbn [remove_dups] in IH. rewrite IH; [|done|].
  - destruct (decide_rel elem_of x (b :: names)) as [_|Hn]; [reflexivity|].
    exfalso. apply Hn. rewrite (Hall b); [left | right; left].
  - intros y Hy. apply Hall. by right.
Qed.

Lemma remove_dups_singleton_inv (names : list string) :
  List.length (remove_dups names) = 1%nat ->
  exists x, forall y, y ∈ names -> y = x.
Proof.
  destruct (remove_dups names) as [|x [|]] eqn:E; try discriminate. intros _.
  exists x. intros y Hy. apply elem_of_remove_dups in Hy. rewrite E in Hy.
  by apply list_elem_of_singleton in Hy.
Qed.

(** C3 (amended). For a non-empty list whose names are cleaned one by one
    with the arguments of the call: when the cleaned names are all the same,
    that name is returned; when they are not and there are exactly two of
    them, the name [_clean_fastq_pair] finds for them is returned; in every
    other case all the cleaned names, duplicates included, are joined
    with an underscore in the order of the list. *)
Theorem clean_s_name_list
        (anchor : string) (config : Config) (f : f_arg)
        (root filename search_pattern_key : option string)
        (fn_clean_exts_arg : option (list CleanPatternT))
        (fn_clean_trim_arg : option (list string)) (prepend_dirs_arg : option bool)
        (l clean_names : list string) :
  l <> [] ->
  map_result
    (fun sn => clean_s_name anchor config (SName sn) f root filename search_pattern_key
                 fn_clean_exts_arg fn_clean_trim_arg prepend_dirs_arg) l
  = Ok clean_names ->
  let result :=
    clean_s_name anchor config (SNames l) f root filename search_pattern_key
      fn_clean_exts_arg fn_clean_trim_arg prepend_dirs_arg in
  (forall x, (forall y, y ∈ clean_names -> y = x) -> result = Ok x)
  /\ (forall r1 r2 name,
        clean_names = [r1; r2] -> r1 <> r2 ->
        _clean_fastq_pair r1 r2 = Ok (Some name) -> result = Ok name)
  /\ ((exists x y, x ∈ clean_names /\ y ∈ clean_names /\ x <> y) ->
      (forall r1 r2, clean_names = [r1; r2] -> _clean_fastq_pair r1 r2 = Ok None) ->
      result = Ok (Py.join "_" clean_names)).
Proof.
  intros Hl Hnames result. subst result. unfold clean_s_name.
  destruct l as [|a l]; [done|]. simpl Nat.eqb. cbn iota.
  unfold clean_s_name in Hnames. rewrite Hnames. simpl mbind. cbn beta iota.
  assert (Hne : clean_names <> []).
  { apply map_result_Ok_length in Hnames. destruct clean_names; [discriminate | done]. }
  split; [|split].
  - intros x Hall. rewrite (remove_dups_all_equal x) by done. simpl.
    destruct clean_names as [|b names]; [done|]. simpl. f_equal. apply Hall. left.
  - intros r1 r2 name -> Hdiff Hpair.
    destruct (_ =? 1)%nat eqn:E.
    { apply Nat.eqb_eq, remove_dups_singleton_inv in E as [x Hx].
      exfalso. apply Hdiff. rewrite (Hx r1), (Hx r2); [done | | ]; set_solver. }
    rewrite Hpair. reflexivity.
  - intros (x & y & Hx & Hy & Hxy) Hpair.
    destruct (_ =? 1)%nat eqn:E.
    { apply Nat.eqb_eq, remove_dups_singleton_inv in E as [z Hz].
      exfalso. apply Hxy. by rewrite (Hz x), (Hz y). }
    destruct clean_names as [|r1 [|r2 [|r3 names]]]; try reflexivity.
    rewrite (Hpair r1 r2) by done. reflexivity.
Qed.

Lemma clean_s_name_list_witness :
  clean_default "bowtie2" fastq_config (SNames ["a.fastq"; "a_.fastq.gz"; "b.fastq"])
  = Ok "a_a_b".
Proof.
  apply (proj2 (proj2 (clean_s_name_list
                         "bowtie2" fastq_config FNone None None None None None None
                         ["a.fastq"; "a_.fastq.gz"; "b.fastq"] ["a"; "a"; "b"]
                         ltac:(discriminate) eq_refl))).
  - exists "a", "b". repeat split; [left | right; right; left | discriminate].
  - discriminate.
Defined.

(** C3 as stated fails on a list of three names of which two are cleaned to
    the same name: the duplicate is repeated in the result. *)
Lemma clean_s_name_list_repeats_duplicates :
  clean_default "bowtie2" fastq_config (SNames ["a"; "a"; "b"]) = Ok "a_a_b"
  /\ spec_join_distinct ["a"; "a"; "b"] = "a_b"
  /\ clean_default "bowtie2" fastq_config (SNames ["a"; "a"; "b"])
     <> Ok (spec_join_distinct ["a"; "a"; "b"]).
Proof.
  split; [vm_compute; reflexivity|]. split; [vm_compute; reflexivity|].
  vm_compute. discriminate.
Qed.

(** ** C5: the name before the replacements is not empty *)

(** C5 (amended). For a non-empty name, whatever the configuration: the
    name held when the replacements start is not empty, being the original
    name when cleaning, trimming and stripping left nothing and what they
    left otherwise; the result of [clean_s_name] is what the replacements
    make of it, and is this very name when no replacement is configured. *)
Theorem clean_s_name_not_empty_before_replacements
        (anchor : string) (config : Config) (f : f_arg)
        (root filename search_pattern_key : option string)
        (fn_clean_exts_arg : option (list CleanPatternT))
        (fn_clean_trim_arg : option (list string)) (prepend_dirs_arg : option bool)
        (s_name working : string) :
  s_name <> "" ->
  stripped_s_name anchor config s_name f root filename search_pattern_key
    fn_clean_exts_arg fn_clean_trim_arg prepend_dirs_arg = Ok working ->
  exists trimmed,
    trim_s_name anchor config s_name f root filename search_pattern_key
      fn_clean_exts_arg fn_clean_trim_arg prepend_dirs_arg = Ok trimmed
    /\ trimmed <> ""
    /\ (working = "" -> trimmed = s_name)
    /\ (working <> "" -> trimmed = working)
    /\ clean_s_name anchor config (SName s_name) f root filename search_pattern_key
         fn_clean_exts_arg fn_clean_trim_arg prepend_dirs_arg
       = for_each (apply_replace config) (sample_names_replace config) trimmed
    /\ (sample_names_replace config = [] ->
        clean_s_name anchor config (SName s_name) f root filename search_pattern_key
          fn_clean_exts_arg fn_clean_trim_arg prepend_dirs_arg = Ok trimmed).
Proof.
  intros Hne Hw.
  exists (if String.eqb working "" then s_name else working).
  assert (Ht : trim_s_name anchor config s_name f root filename search_pattern_key
                 fn_clean_exts_arg fn_clean_trim_arg prepend_dirs_arg
               = Ok (if String.eqb working "" then s_name else working)).
  { unfold trim_s_name. rewrite Hw. reflexivity. }
  split; [exact Ht|].
  destruct (String.eqb_spec working "") as [-> | Hworking].
  - repeat split; try done.
    + unfold clean_s_name, clean_one. rewrite Ht. reflexivity.
    + intros Hnil. unfold clean_s_name, clean_one. rewrite Ht, Hnil. reflexivity.
  - repeat split; try done.
    + unfold clean_s_name, clean_one. rewrite Ht. reflexivity.
    + intros Hnil. unfold clean_s_name, clean_one. rewrite Ht, Hnil. reflexivity.
Qed.

(** ** Insertion-ordered dicts *)

Section OdictFacts.

Context {K V : Type} `{EqDecision K}.
Implicit Types (d : list (K * V)) (k : K) (v : V).

Lemma odict_get_set k k' v d :
  odict_get k' (odict_set k v d) = if decide (k = k') then Some v else odict_get k' d.
Proof.
  unfold odict_get. induction d as [|[k0 v0] d IH]; simpl.
  - repeat case_bool_decide; case_decide; simpl; congruence.
  - case_bool_decide as E; simpl.
    + subst k0. repeat case_bool_decide; case_decide; simpl; congruence.
    + case_bool_decide; simpl; [case_decide; congruence | apply IH].
Qed.

Lemma odict_get_set_eq k v d : odict_get k (odict_set k v d) = Some v.
Proof. rewrite odict_get_set. by rewrite decide_True. Qed.

Lemma odict_get_set_ne k k' v d :
  k <> k' -> odict_get k' (odict_set k v d) = odict_get k' d.
Proof. intros. rewrite odict_get_set. by rewrite decide_False. Qed.

Lemma odict_get_Some k v d : odict_get k d = Some v -> (k, v) ∈ d.
Proof.
  unfold odict_get. induction d as [|[k0 v0] d IH]; simpl; [discriminate|].
  case_bool_decide as E; simpl in *.
  - intros [= <-]. subst. left.
  - intros H. right. by apply IH.
Qed.

Lemma odict_get_None k d : odict_get k d = None -> k ∉ odict_keys d.
Proof.
  unfold odict_get, odict_keys. induction d as [|[k0 v0] d IH]; simpl.
  - intros _. apply not_elem_of_nil.
  - case_bool_decide as E; simpl in *; [discriminate|].
    intros H Hin. apply elem_of_cons in Hin as [-> | Hin]; [done | by apply IH].
Qed.

Lemma odict_get_NoDup k v d :
  NoDup (odict_keys d) -> (k, v) ∈ d -> odict_get k d = Some v.
Proof.
  unfold odict_get, odict_keys. induction d as [|[k0 v0] d IH]; simpl.
  - intros _ Hin. by apply elem_of_nil in Hin.
  - intros Hnd Hin. apply NoDup_cons in Hnd as [Hk0 Hnd].
    apply elem_of_cons in Hin as [[= -> ->] | Hin].
    + by case_bool_decide.
    + case_bool_decide as E; simpl in *; [|by apply IH].
      subst k0. exfalso. apply Hk0. apply list_elem_of_fmap. by exists (k, v).
Qed.

Lemma odict_keys_set_old k v d :
  k ∈ odict_keys d -> odict_keys (odict_set k v d) = odict_keys d.
Proof.
  unfold odict_keys. induction d as [|[k0 v0] d IH]; simpl; intros Hk.
  - by apply elem_of_nil in Hk.
  - case_bool_decide as E; simpl; [by subst|].
    f_equal. apply IH. apply elem_of_cons in Hk as [->|Hk]; done.
Qed.

Lemma odict_keys_set_new k v d :
  k ∉ odict_keys d -> odict_keys (odict_set k v d) = odict_keys d ++ [k].
Proof.
  unfold odict_keys. induction d as [|[k0 v0] d IH]; simpl; intros Hk; [done|].
  apply not_elem_of_cons in Hk as [Hk0 Hk].
  rewrite bool_decide_eq_false_2 by done. simpl. f_equal. by apply IH.
Qed.

Lemma odict_set_NoDup k v d : NoDup (odict_keys d) -> NoDup (odict_keys (odict_set k v d)).
Proof.
  intros Hnd. destruct (decide (k ∈ odict_keys d)) as [Hk|Hk].
  - by rewrite odict_keys_set_old.
  - rewrite odict_keys_set_new by done.
    apply NoDup_app. split; [done|]. split; [|apply NoDup_singleton].
    intros x Hx Hx'. apply list_elem_of_singleton in Hx'. by subst.
Qed.

End OdictFacts.

Section OdictAppend.

Context {K A : Type} `{EqDecision K}.
Implicit Types (d : list (K * list A)) (k : K) (x : A).

Lemma odict_items_set_fresh k (l : list A) d :
  k ∉ odict_keys d -> odict_items (odict_set k l d) = odict_items d ++ List.map (pair k) l.
Proof.
  unfold odict_items, odict_keys. induction d as [|[k0 l0] d IH]; simpl; intros Hk.
  - by rewrite app_nil_r.
  - apply not_elem_of_cons in Hk as [Hne Hk].
    rewrite bool_decide_eq_false_2 by (simpl; congruence). simpl.
    rewrite IH by done. by rewrite app_assoc.
Qed.

Lemma odict_items_append k x d :
  odict_items (odict_append k x d) ≡ₚ odict_items d ++ [(k, x)].
Proof.
  unfold odict_append.
  destruct (odict_get k d) as [l|] eqn:E; simpl.
  - clear -E. unfold odict_get, odict_items in *.
    induction d as [|[k0 l0] d IH]; simpl in *; [discriminate|].
    case_bool_decide as Ek; simpl in *.
    + injection E as ->. subst k0. rewrite List.map_app. simpl.
      rewrite <- !app_assoc. apply Permutation_app_head.
      apply Permutation_app_comm.
    + rewrite IH by done. by rewrite app_assoc.
  - apply odict_get_None in E. by rewrite odict_items_set_fresh.
Qed.

Lemma odict_append_NoDup k x d :
  NoDup (odict_keys d) -> NoDup (odict_keys (odict_append k x d)).
Proof. apply odict_set_NoDup. Qed.

(** Filling a dict of lists from a list of entries keeps every entry. *)
Lemma odict_fill {B : Type} (key : B -> K) (val : B -> A) (l : list B) d :
  let d' := List.fold_left (fun d b => odict_append (key b) (val b) d) l d in
  odict_items d' ≡ₚ odict_items d ++ List.map (fun b => (key b, val b)) l
  /\ (NoDup (odict_keys d) -> NoDup (odict_keys d')).
Proof.
  revert d; induction l as [|b l IH]; simpl; intros d.
  - by rewrite app_nil_r.
  - destruct (IH (odict_append (key b) (val b) d)) as [IH1 IH2]. split.
    + rewrite IH1, odict_items_append, <- app_assoc. done.
    + intros Hnd. by apply IH2, odict_append_NoDup.
Qed.

End OdictAppend.

(** ** C8: the groups partition the sample names *)

Lemma odict_set_elem {K V : Type} `{EqDecision K} (k : K) (v : V) (d : list (K * V))
      (kv : K * V) :
  kv ∈ odict_set k v d -> kv = (k, v) \/ kv ∈ d.
Proof.
  induction d as [|[k0 v0] d IH]; simpl.
  - intros H%list_elem_of_singleton. auto.
  - case_bool_decide as E; intros Hin%elem_of_cons.
    + destruct Hin as [-> | Hin]; [auto | right; by right].
    + destruct Hin as [-> | Hin]; [right; left|].
      destruct (IH Hin) as [-> | H']; [auto | right; by right].
Qed.

Lemma odict_fill_nonempty {K A B : Type} `{EqDecision K}
      (key : B -> K) (val : B -> A) (l : list B) (d : list (K * list A)) :
  Forall (fun kl => kl.2 <> []) d ->
  Forall (fun kl => kl.2 <> [])
         (List.fold_left (fun d b => odict_append (key b) (val b) d) l d).
Proof.
  revert d; induction l as [|b l IH]; simpl; intros d Hd; [done|].
  apply IH. apply Forall_forall. intros kl Hkl.
  apply odict_set_elem in Hkl as [-> | Hkl].
  - simpl. by destruct (default [] _).
  - by apply (proj1 (Forall_forall _ _) Hd).
Qed.

Lemma Permutation_of_eq {A : Type} (l1 l2 : list A) : l1 = l2 -> l1 ≡ₚ l2.
Proof. by intros ->. Qed.

Lemma fold_left_ext_in {A S : Type} (f g : S -> A -> S) (l : list A) (acc : S) :
  (forall s a, f s a = g s a) -> List.fold_left f l acc = List.fold_left g l acc.
Proof.
  intros Hfg. revert acc; induction l as [|a l IH]; simpl; intros acc; [done|].
  by rewrite Hfg, IH.
Qed.

Lemma fold_left_buckets {K A S : Type} (step : S -> K -> A -> S)
      (d : list (K * list A)) (acc : S) :
  List.fold_left
    (fun acc '(k, l) => List.fold_left (fun acc x => step acc k x) l acc) d acc
  = List.fold_left (fun acc (kx : K * A) => step acc kx.1 kx.2) (odict_items d) acc.
Proof.
  revert acc; induction d as [|[k l] d IH]; simpl; intros acc; [done|].
  unfold odict_items in *. simpl. rewrite List.fold_left_app, IH. f_equal.
  clear. revert acc; induction l as [|x l IHl]; simpl; intros acc; [done | apply IHl].
Qed.

Section GroupingFacts.

Variable anchor : string.
Variable config : Config.

(** A name that no label claims is its own group. *)
Lemma groups_for_sample_no_label (s_name group_name : string) :
  groups_for_sample anchor config s_name = Ok (group_name, None) ->
  group_name = s_name.
Proof.
  unfold groups_for_sample.
  assert (Hloop : forall items,
             groups_for_sample_loop anchor config s_name items = Ok (group_name, None) ->
             group_name = s_name).
  { induction items as [|[label exts] items IH]; simpl.
    - by intros [= <-].
    - destruct (match exts with GroupOne p => [p] | GroupList ps => ps end); [exact IH|].
      intros H. inv_bind H.
      destruct (negb _); [|exact (IH H)].
      inv_bind H. discriminate. }
  destruct (generalstats_sample_merge_groups config); [by intros [= <-] | apply Hloop].
Qed.

(** The first loop of [group_samples_names]: every name is resolved and
    filed once, under its label. *)
Lemma group_by_label_items (l : list string)
      (acc group_by_label : list (option string * list (string * string))) :
  for_each (fun d original_name =>
              '(group_name, label) ← groups_for_sample anchor config original_name;
              Ok (odict_append label (group_name, original_name) d)) l acc
  = Ok group_by_label ->
  exists resolved,
    Forall2 (fun o r => groups_for_sample anchor config o = Ok r) l resolved
    /\ odict_items group_by_label ≡ₚ
       odict_items acc ++
       List.map (fun or : string * (string * option string) => (or.2.2, (or.2.1, or.1)))
                (zip l resolved).
Proof.
  revert acc; induction l as [|o l IH]; simpl; intros acc H.
  - injection H as <-. exists []. split; [constructor | by rewrite app_nil_r].
  - inv_bind H. inv_bind Hx. destruct x0 as [g lab]. injection Hx as <-.
    destruct (IH _ H) as (resolved & Hres & Hperm).
    exists ((g, lab) :: resolved). split; [by constructor|].
    rewrite Hperm, odict_items_append, <- app_assoc. done.
Qed.

(** What [group_samples_names] returns: group names that differ, and
    members that are the sorted names, each with the group and the label
    it was resolved to and shown under the name its group gives it. *)
Lemma group_samples_names_members (samples : list string)
      (groups : list (string * list member)) :
  group_samples_names anchor config samples = Ok groups ->
  NoDup (odict_keys groups)
  /\ (exists resolved,
        Forall2 (fun o r => groups_for_sample anchor config o = Ok r)
                (merge_sort String.le samples) resolved
        /\ List.map (fun gm : string * member => (gm.2.2, (gm.1, gm.2.1.1)))
                    (odict_items groups)
           ≡ₚ zip (merge_sort String.le samples) resolved)
  /\ (forall g ms, (g, ms) ∈ groups ->
        ms <> [] /\
        forall m : member, m ∈ ms ->
          m.1.2 = if (List.length ms =? 1)%nat then g
                  else (g ++ " (" ++ label_str m.1.1 ++ ")")%string).
Proof.
  unfold group_samples_names. intros H. inv_bind H. injection H as <-.
  apply group_by_label_items in Hx as (resolved & Hres & Hperm).
  simpl in Hperm.
  match goal with
  | |- context [List.map _ ?d] => set (merged := d)
  end.
  assert (Hmerged : merged =
            List.fold_left
              (fun d (b : option string * (string * string)) =>
                 odict_append b.2.1 (b.1, b.2.2) d) (odict_items x) []).
  { subst merged.
    rewrite <- (fold_left_buckets
                  (fun d (label : option string) (go : string * string) =>
                     odict_append go.1 (label, go.2) d)).
    apply fold_left_ext_in. intros d [label group].
    apply fold_left_ext_in. by intros d' [g o]. }
  destruct (odict_fill (fun b : option string * (string * string) => b.2.1)
                       (fun b => (b.1, b.2.2)) (odict_items x) []) as [Hitems Hnd].
  rewrite <- Hmerged in Hitems, Hnd. simpl in Hitems.
  assert (Hne : Forall (fun kl : string * list (option string * string) => kl.2 <> []) merged).
  { rewrite Hmerged. apply odict_fill_nonempty. constructor. }
  clearbody merged. split; [|split].
  - unfold odict_keys in *. rewrite List.map_map.
    erewrite List.map_ext; [apply Hnd; constructor|]. by intros [g grp].
  - exists resolved. split; [done|].
    transitivity (List.map (fun gm : string * (option string * string) =>
                              (gm.2.2, (gm.1, gm.2.1))) (odict_items merged)).
    + apply Permutation_of_eq. clear. unfold odict_items.
      induction merged as [|[g grp] merged IH]; simpl; [done|].
      rewrite !List.map_app, IH. f_equal.
      rewrite !List.map_map. simpl.
      apply List.map_ext. by intros [lab o].
    + rewrite Hitems, List.map_map, Hperm, List.map_map. simpl.
      apply Permutation_of_eq. rewrite <- (List.map_id (zip _ _)) at 2.
      apply List.map_ext. by intros [o [g lab]].
  - intros g ms Hin. apply list_elem_of_fmap in Hin as ([g' grp] & [= -> ->] & Hin).
    split.
    + pose proof (proj1 (Forall_forall _ _) Hne _ Hin) as Hgrp. simpl in Hgrp.
      by destruct grp.
    + intros m Hm. apply list_elem_of_fmap in Hm as ([lab o] & -> & _).
      rewrite List.length_map. reflexivity.
Qed.

End GroupingFacts.

Lemma Forall2_zip_elem {A B : Type} (P : A -> B -> Prop) (l : list A) (k : list B)
      (a : A) (b : B) :
  Forall2 P l k -> (a, b) ∈ zip l k -> P a b.
Proof.
  induction 1 as [|x y l k Hxy _ IH]; simpl; intros Hin.
  - by apply elem_of_nil in Hin.
  - apply elem_of_cons in Hin as [[= -> ->] | Hin]; auto.
Qed.

(** The member lists of the groups hold the names that were given. *)
Lemma group_originals_Permutation
      (anchor : string) (config : Config) (samples : list string)
      (groups : list (string * list member)) :
  group_samples_names anchor config samples = Ok groups ->
  group_originals groups ≡ₚ samples.
Proof.
  intros H.
  destruct (group_samples_names_members _ _ _ _ H) as (_ & (resolved & Hres & Hperm) & _).
  unfold group_originals.
  transitivity (List.map fst (List.map (fun gm : string * member =>
                                          (gm.2.2, (gm.1, gm.2.1.1))) (odict_items groups))).
  { apply Permutation_of_eq. rewrite List.map_map. by apply List.map_ext. }
  rewrite Hperm.
  change (List.map fst (zip (merge_sort String.le samples) resolved))
    with ((zip (merge_sort String.le samples) resolved).*1).
  rewrite fst_zip; [apply merge_sort_Permutation|].
  apply Forall2_length in Hres. lia.
Qed.

(** C8. The groups returned for a list of sample names have distinct names,
    and their member lists, put end to end, hold the original names of the
    input, each as many times as the input does: once when the input is a
    set. Every name is thus in exactly one member list, exactly once. *)
Theorem group_samples_names_partition
        (anchor : string) (config : Config) (samples : list string)
        (groups : list (string * list member)) :
  group_samples_names anchor config samples = Ok groups ->
  NoDup (odict_keys groups)
  /\ group_originals groups ≡ₚ samples
  /\ (NoDup samples -> NoDup (group_originals groups)).
Proof.
  intros H.
  destruct (group_samples_names_members _ _ _ _ H) as (Hkeys & _ & _).
  pose proof (group_originals_Permutation _ _ _ _ H) as Hp.
  split; [done|]. split; [done|].
  intros Hnd. by rewrite Hp.
Qed.

Lemma group_samples_names_partition_witness :
  NoDup (odict_keys
           [("s", [(None, "s (None)", "s"); (Some "R1", "s (R1)", "s_R1");
                   (Some "R2", "s (R2)", "s_R2")]);
            ("u", [(None, "u", "u") : member]); ("t", [(Some "R1", "t", "t_R1")])])
  /\ ["s"; "s_R1"; "s_R2"; "u"; "t_R1"] ≡ₚ ["s_R2"; "s_R1"; "s"; "t_R1"; "u"]
  /\ (NoDup ["s_R2"; "s_R1"; "s"; "t_R1"; "u"] -> NoDup ["s"; "s_R1"; "s_R2"; "u"; "t_R1"]).
Proof.
  apply (group_samples_names_partition "bowtie2" paired_config
           ["s_R2"; "s_R1"; "s"; "t_R1"; "u"]).
  vm_compute. reflexivity.
Defined.

(** ** C9: a group of one member *)

Section SingletonGroup.

Variable data_by_sample : gmap string (gmap string value).
Variable grouping_config : SampleGroupingConfig.

Lemma group_step_get (rows rows' : list (string * list InputRowT))
      (g k : string) (ms : list member) :
  group_step data_by_sample grouping_config rows (g, ms) = Ok rows' ->
  (ms = [] \/ output_key data_by_sample g ms <> k) ->
  odict_get k rows' = odict_get k rows.
Proof.
  unfold group_step. destruct ms as [|m ms]; simpl Nat.eqb; cbn iota.
  - by intros [= <-].
  - intros H [Hnil | Hk]; [done|]. inv_bind H. injection H as <-.
    by rewrite odict_get_set_ne.
Qed.

(** The rows found under a key are those of the last group stored under it. *)
Lemma group_steps_last_writer (before after : list (string * list member))
      (g : string) (ms : list member) (out : list (string * list InputRowT)) :
  ms <> [] ->
  (forall g' ms', (g', ms') ∈ after ->
                  ms' = [] \/ output_key data_by_sample g' ms'
                              <> output_key data_by_sample g ms) ->
  for_each (group_step data_by_sample grouping_config) (before ++ (g, ms) :: after) []
  = Ok out ->
  exists rows,
    group_rows data_by_sample grouping_config (output_key data_by_sample g ms) ms = Ok rows
    /\ odict_get (output_key data_by_sample g ms) out = Some rows.
Proof.
  intros Hms Hafter H. rewrite for_each_app in H. inv_bind H. simpl in H.
  inv_bind H. rename x0 into mid.
  assert (Hmid : exists rows,
             group_rows data_by_sample grouping_config
                        (output_key data_by_sample g ms) ms = Ok rows
             /\ odict_get (output_key data_by_sample g ms) mid = Some rows).
  { unfold group_step in Hx0. destruct ms as [|m ms]; [done|].
    simpl Nat.eqb in Hx0. cbn iota in Hx0. inv_bind Hx0. injection Hx0 as <-.
    exists x0. split; [done | apply odict_get_set_eq]. }
  destruct Hmid as (rows & Hrows & Hget). exists rows. split; [done|].
  eapply (for_each_invariant
            (fun s => odict_get (output_key data_by_sample g ms) s = Some rows));
    [| exact Hget | exact H].
  intros s [g' ms'] s' Hin Hs Hstep.
  rewrite (group_step_get _ _ _ _ _ Hstep); [done|]. by apply Hafter.
Qed.

End SingletonGroup.

(** C9 (amended). A group with exactly one member gives no merged row: what
    the loop stores for it is one row with the data of its member,
    unchanged. The row is stored under the name of the group and bears
    that name, which is the member's own name when no label matched it.
    The result of the call holds that row under the name of the group,
    unless a group of several members that comes later is stored under the
    same key: a group whose name is also the name of a sample is stored
    under its name followed by [ (grouped)], and what is stored last under
    a key replaces what was there. *)
Theorem singleton_group_row
        (anchor : string) (config : Config)
        (data_by_sample : gmap string (gmap string value))
        (grouping_config : SampleGroupingConfig)
        (before after : list (string * list member))
        (out : list (string * list InputRowT))
        (g : string) (label : option string) (s_name original_s_name : string) :
  group_samples_names anchor config (elements (dom data_by_sample))
  = Ok (before ++ (g, [(label, s_name, original_s_name)]) :: after) ->
  group_samples_and_average_metrics anchor config data_by_sample grouping_config = Ok out ->
  exists row,
    data_by_sample !! original_s_name = Some row
    /\ s_name = g
    /\ (label = None -> original_s_name = g)
    /\ (forall rows,
          group_step data_by_sample grouping_config rows
            (g, [(label, s_name, original_s_name)])
          = Ok (odict_set g [{| sample := g; data := row |}] rows))
    /\ ((forall g' ms, (g', ms) ∈ after -> (1 < List.length ms)%nat ->
                       is_Some (data_by_sample !! g') -> g <> (g' ++ " (grouped)")%string) ->
        odict_get g out = Some [{| sample := g; data := row |}]).
Proof.
  intros Hgroups Hout.
  unfold group_samples_and_average_metrics in Hout. rewrite Hgroups in Hout. simpl in Hout.
  destruct (group_samples_names_members _ _ _ _ Hgroups)
    as (Hkeys & (resolved & Hres & Hperm) & Hshown).
  assert (Hin : (g, [(label, s_name, original_s_name)])
                  ∈ before ++ (g, [(label, s_name, original_s_name)]) :: after).
  { apply elem_of_app. right. left. }
  (* the member is a sample, resolved to this group and label *)
  assert (Hitem : (original_s_name, (g, label))
                    ∈ zip (merge_sort String.le (elements (dom data_by_sample))) resolved).
  { rewrite <- Hperm. apply list_elem_of_fmap.
    exists (g, (label, s_name, original_s_name)). split; [done|].
    unfold odict_items. apply list_elem_of_In, List.in_flat_map.
    exists (g, [(label, s_name, original_s_name)]).
    split; [by apply list_elem_of_In | by left]. }
  assert (Hsample : original_s_name ∈ elements (dom data_by_sample)).
  { rewrite <- (merge_sort_Permutation String.le).
    apply (elem_of_zip_l _ _ _ _ Hitem). }
  apply elem_of_elements, elem_of_dom in Hsample as [row Hrow].
  pose proof (Forall2_zip_elem _ _ _ _ _ Hres Hitem) as Hresolved. simpl in Hresolved.
  destruct (Hshown _ _ Hin) as [_ Hname].
  specialize (Hname _ (list_elem_of_here _ _)). simpl in Hname.
  exists row. split; [done|]. split; [done|]. split.
  { intros ->. symmetry. by eapply groups_for_sample_no_label. }
  assert (Hkey : output_key data_by_sample g [(label, s_name, original_s_name)] = g)
    by reflexivity.
  split.
  { intros rows. unfold group_step. simpl Nat.eqb. cbn iota. rewrite Hkey.
    simpl. unfold row_of. rewrite Hrow. simpl. by rewrite Hname. }
  (* the row stored under [g] stays there *)
  intros Hfree.
  destruct (group_steps_last_writer data_by_sample grouping_config before after g
              [(label, s_name, original_s_name)] out) as (rows & Hrows & Hget);
    [done | | done |].
  - intros g' ms' Hin'. rewrite Hkey.
    destruct ms' as [|m ms']; [by left | right].
    unfold output_key.
    assert (Hg' : g' <> g).
    { unfold odict_keys in Hkeys. rewrite List.map_app in Hkeys. simpl in Hkeys.
      apply NoDup_app in Hkeys as (_ & _ & Hkeys). apply NoDup_cons in Hkeys as [Hkeys _].
      intros ->. apply Hkeys. apply list_elem_of_fmap. by exists (g, m :: ms'). }
    destruct (_ && _) eqn:E; [|done].
    apply andb_prop in E as [Hlen Hdata].
    apply Nat.ltb_lt in Hlen. apply bool_decide_eq_true_1 in Hdata.
    intros Heq. eapply Hfree; [exact Hin' | exact Hlen | exact Hdata | by symmetry].
  - rewrite Hkey in Hrows, Hget. rewrite Hget. f_equal.
    simpl in Hrows. unfold row_of in Hrows. rewrite Hrow in Hrows. simpl in Hrows.
    injection Hrows as <-. by rewrite Hname.
Qed.

(** ** Python arithmetic *)

Lemma float_of_int_zero : float_of_int 0 = Ok 0%float.
Proof. reflexivity. Qed.

(** A float above zero is not zero. *)
Lemma float_gt0_not_zero (x : float) :
  PrimFloat.ltb 0%float x = true -> PrimFloat.eqb x 0%float = false.
Proof.
  rewrite FloatAxioms.ltb_spec, FloatAxioms.eqb_spec.
  change (Prim2SF 0%float) with (S754_zero false).
  destruct (Prim2SF x) as [s | s | | s m e]; try destruct s;
    unfold SFltb, SFeqb, SFcompare; simpl; intros; congruence.
Qed.

Lemma num_gt0_not_zero (a : num) : num_gt0 a = true -> num_is_zero a = false.
Proof.
  destruct a as [z | x]; simpl.
  - intros H%Z.ltb_lt. apply Z.eqb_neq. lia.
  - apply float_gt0_not_zero.
Qed.

Lemma num_add_float (a : num) (x : float) :
  sum_state a -> exists y, num_add a (NFloat x) = Ok (NFloat y).
Proof. intros [-> | [y ->]]; simpl; eauto. Qed.

Lemma num_add_term (a b : num) :
  sum_state a -> sum_state b -> exists c, num_add a b = Ok c /\ sum_state c.
Proof.
  intros [-> | [x ->]] [-> | [y ->]]; simpl; eexists; (split; [reflexivity|]);
    unfold sum_state; eauto.
Qed.

Lemma py_sum_total (terms : list num) :
  Forall sum_state terms -> exists total, py_sum terms = Ok total /\ sum_state total.
Proof.
  intros Hterms. unfold py_sum.
  apply (for_each_total sum_state); [|by left].
  intros s a Ha Hs. apply num_add_term; [done|].
  by apply (proj1 (Forall_forall _ _) Hterms).
Qed.

Lemma num_truediv_total (a b : num) :
  sum_state a -> num_is_zero b = false ->
  is_ok (match b with NInt z => float_of_int z | NFloat x => Ok x end) = true ->
  exists q, num_truediv a b = Ok q.
Proof.
  intros Ha Hb Hconv. unfold num_truediv. rewrite Hb.
  destruct Ha as [-> | [x ->]]; simpl;
    destruct (match b with NInt z => float_of_int z | NFloat x => Ok x end);
    simpl; eauto; discriminate.
Qed.

(** ** The passes of the aggregation *)

Section Passes.

Variable data_by_sample : gmap string (gmap string value).
Variable grouping_config : SampleGroupingConfig.
Variable labels_s_names : list member.

Lemma initial_sums_keep (w : string) (ps : list (string * string))
      (d : list (string * num)) :
  w ∉ List.map snd ps ->
  odict_get w (List.fold_left
                 (fun d (p : string * string) => let '(_, w) := p in odict_set w (NInt 0) d)
                 ps d)
  = odict_get w d.
Proof.
  revert d; induction ps as [|[v' w'] ps IH]; simpl; intros d Hw; [done|].
  apply not_elem_of_cons in Hw as [Hne Hw].
  rewrite IH by done. by apply odict_get_set_ne.
Qed.

(** The dict of sums starts with the integer [0] at every weight column. *)
Lemma initial_sums (ps : list (string * string)) (d : list (string * num)) :
  let d' := List.fold_left
              (fun d (p : string * string) => let '(_, w) := p in odict_set w (NInt 0) d)
              ps d in
  (NoDup (odict_keys d) -> NoDup (odict_keys d'))
  /\ (forall c, c ∈ odict_keys d' <-> c ∈ odict_keys d \/ c ∈ List.map snd ps)
  /\ (forall c, c ∈ List.map snd ps -> odict_get c d' = Some (NInt 0)).
Proof.
  revert d; induction ps as [|[v w] ps IH]; simpl; intros d.
  - split; [done|]. split; [|intros c Hc; by apply elem_of_nil in Hc].
    intros c. split; [auto | intros [H | H]; [done | by apply elem_of_nil in H]].
  - destruct (IH (odict_set w (NInt 0) d)) as (IH1 & IH2 & IH3).
    split; [|split].
    + intros Hnd. by apply IH1, odict_set_NoDup.
    + intros c. rewrite IH2. rewrite elem_of_cons.
      destruct (decide (w ∈ odict_keys d)) as [Hw | Hw].
      * rewrite odict_keys_set_old by done. split; [tauto|].
        intros [H | [-> | H]]; auto.
      * rewrite odict_keys_set_new by done. rewrite elem_of_app, list_elem_of_singleton.
        tauto.
    + intros c Hc. apply elem_of_cons in Hc as [-> | Hc]; [|by apply IH3].
      destruct (decide (w ∈ List.map snd ps)) as [Hw | Hw]; [by apply IH3|].
      rewrite initial_sums_keep by done. apply odict_get_set_eq.
Qed.

(** Adding up one column changes the sum of that column only. *)
Lemma add_weights_get (col : string) (members : list member)
      (d d' : list (string * num)) :
  for_each
    (fun sum_by_col (m : member) =>
       val ← cell data_by_sample m.2 col;
       if is_number val then
         match odict_get col sum_by_col with
         | None => Raise (KeyError col)
         | Some acc =>
             x ← to_float val;
             acc' ← num_add acc (NFloat x);
             Ok (odict_set col acc' sum_by_col)
         end
       else Ok sum_by_col) members d = Ok d' ->
  (forall c, c <> col -> odict_get c d' = odict_get c d)
  /\ (forall acc, odict_get col d = Some acc ->
        exists w,
          for_each
            (fun acc (m : member) =>
               val ← cell data_by_sample m.2 col;
               if is_number val then x ← to_float val; num_add acc (NFloat x)
               else Ok acc) members acc = Ok w
          /\ odict_get col d' = Some w).
Proof.
  revert d; induction members as [|m members IH]; simpl; intros d H.
  - injection H as <-. split; [done|]. intros acc Hacc. eauto.
  - inv_bind H. inv_bind Hx. rename x0 into val.
    destruct (is_number val) eqn:Hnum.
    + destruct (odict_get col d) as [acc0|] eqn:Hget; [|discriminate].
      inv_bind Hx. inv_bind Hx. injection Hx as <-.
      destruct (IH _ H) as [IH1 IH2]. split.
      * intros c Hc. rewrite IH1 by done. by apply odict_get_set_ne.
      * intros acc [= <-]. rewrite Hx0. simpl. rewrite Hnum, Hx1. simpl.
        rewrite Hx2. simpl. apply IH2. apply odict_get_set_eq.
    + injection Hx as <-. destruct (IH _ H) as [IH1 IH2]. split; [done|].
      intros acc Hacc. rewrite Hx0. simpl. rewrite Hnum. by apply IH2.
Qed.

(** The sums found after the first loop: one per weight column, each the
    sum of its column. *)
Lemma weight_sums_get (sum_by_col : list (string * num)) (col : string) :
  weight_sums data_by_sample grouping_config labels_s_names = Ok sum_by_col ->
  (col ∈ weight_columns grouping_config ->
   exists w, column_weight data_by_sample labels_s_names col = Ok w
             /\ odict_get col sum_by_col = Some w)
  /\ (col ∉ weight_columns grouping_config -> odict_get col sum_by_col = None).
Proof.
  unfold weight_sums, weight_columns.
  destruct (initial_sums (listed (cols_to_weighted_average grouping_config)) [])
    as (Hnd & Hkeys & Hzero).
  set (d0 := List.fold_left _ (listed (cols_to_weighted_average grouping_config)) [])
    in *. clearbody d0.
  specialize (Hnd (NoDup_nil_2)).
  assert (Hgen : forall keys d d',
             for_each (add_weights data_by_sample labels_s_names) keys d = Ok d' ->
             NoDup keys ->
             (col ∉ keys -> odict_get col d' = odict_get col d)
             /\ (col ∈ keys -> forall acc, odict_get col d = Some acc ->
                 exists w,
                   for_each
                     (fun acc (m : member) =>
                        val ← cell data_by_sample m.2 col;
                        if is_number val then x ← to_float val; num_add acc (NFloat x)
                        else Ok acc) labels_s_names acc = Ok w
                   /\ odict_get col d' = Some w)).
  { induction keys as [|k keys IH]; simpl; intros d d' H Hndk.
    - injection H as <-. split; [done|]. intros Hin. by apply elem_of_nil in Hin.
    - inv_bind H. apply NoDup_cons in Hndk as [Hk Hndk].
      destruct (IH _ _ H Hndk) as [IH1 IH2].
      apply add_weights_get in Hx as [Hother Hsame]. split.
      + intros Hcol. apply not_elem_of_cons in Hcol as [Hne Hcol].
        rewrite IH1 by done. by apply Hother.
      + intros Hcol acc Hacc. apply elem_of_cons in Hcol as [-> | Hcol].
        * destruct (Hsame _ Hacc) as (w & Hw & Hget). exists w. split; [done|].
          by rewrite IH1.
        * apply IH2; [done|]. rewrite Hother; [done|]. by intros ->. }
  intros H. destruct (Hgen _ _ _ H Hnd) as [H1 H2]. split.
  - intros Hcol. apply H2; [|by apply Hzero].
    apply Hkeys. by right.
  - intros Hcol. rewrite H1.
    + destruct (odict_get col d0) as [w|] eqn:E; [|done].
      apply odict_get_Some in E.
      exfalso. assert (Hk : col ∈ odict_keys d0).
      { unfold odict_keys. apply list_elem_of_fmap. by exists (col, w). }
      apply Hkeys in Hk as [Hk | Hk]; [by apply elem_of_nil in Hk | done].
    + intros Hk. apply Hkeys in Hk as [Hk | Hk]; [by apply elem_of_nil in Hk | done].
Qed.



End Passes.

(** ** C10: the pass that runs last decides *)

Section MergedData.

Variable data_by_sample : gmap string (gmap string value).
Variable grouping_config : SampleGroupingConfig.
Variable labels_s_names : list member.



End MergedData.


(** ** C2: the weighted average *)



(** ** C1: a column that is not in a row *)

Lemma for_each_fails {A S : Type} (body : S -> A -> result S) (l : list A) (acc : S) (a : A) :
  a ∈ l -> (forall s, is_ok (body s a) = false) -> is_ok (for_each body l acc) = false.
Proof.
  intros Hin Hfail. revert acc. induction l as [|b l IH]; simpl; intros acc.
  - by apply elem_of_nil in Hin.
  - apply elem_of_cons in Hin as [<- | Hin].
    + specialize (Hfail acc). destruct (body acc a); [discriminate | reflexivity].
    + destruct (body acc b); simpl; [by apply IH | reflexivity].
Qed.

Lemma bind_fails_l {A B : Type} (r : result A) (k : A -> result B) :
  is_ok r = false -> is_ok (r ≫= k) = false.
Proof. by destruct r. Qed.

Lemma bind_fails_r {A B : Type} (r : result A) (k : A -> result B) :
  (forall x, is_ok (k x) = false) -> is_ok (r ≫= k) = false.
Proof. destruct r; simpl; auto. Qed.

Lemma not_ok_Raise {A : Type} (r : result A) : is_ok r = false -> exists e, r = Raise e.
Proof. destruct r; [discriminate | eauto]. Qed.

Section AbsentColumn.

Variable data_by_sample : gmap string (gmap string value).
Variable grouping_config : SampleGroupingConfig.
Variable labels_s_names : list member.
Variable m : member.
Variable col : string.

Hypothesis m_in_group : m ∈ labels_s_names.
Hypothesis col_absent : is_ok (cell data_by_sample m.2 col) = false.

Lemma plain_terms_fail :
  is_ok (map_result (plain_term data_by_sample col) labels_s_names) = false.
Proof.
  apply (map_result_fails _ _ m); [done|].
  unfold plain_term. by apply bind_fails_l.
Qed.

Lemma weight_sums_fail :
  col ∈ weight_columns grouping_config ->
  is_ok (weight_sums data_by_sample grouping_config labels_s_names) = false.
Proof.
  intros Hcol. unfold weight_sums.
  destruct (initial_sums (listed (cols_to_weighted_average grouping_config)) [])
    as (_ & Hkeys & _).
  apply (for_each_fails _ _ _ col); [apply Hkeys; by right|].
  intros d. unfold add_weights.
  apply (for_each_fails _ _ _ m); [done|].
  intros d'. by apply bind_fails_l.
Qed.

Lemma average_fails :
  col ∈ listed (cols_to_average grouping_config) ->
  forall merged,
    is_ok (for_each (average_step data_by_sample labels_s_names)
                    (listed (cols_to_average grouping_config)) merged) = false.
Proof.
  intros Hcol merged. apply (for_each_fails _ _ _ col); [done|].
  intros s. unfold average_step, average_value.
  apply bind_fails_l, bind_fails_l, plain_terms_fail.
Qed.

Lemma sum_fails (sum_by_col : list (string * num)) :
  col ∈ listed (cols_to_sum grouping_config) ->
  odict_get col sum_by_col = None ->
  forall merged,
    is_ok (for_each (sum_step data_by_sample labels_s_names sum_by_col)
                    (listed (cols_to_sum grouping_config)) merged) = false.
Proof.
  intros Hcol Hget merged. apply (for_each_fails _ _ _ col); [done|].
  intros s. unfold sum_step, sum_value. rewrite Hget.
  apply bind_fails_l, bind_fails_l, plain_terms_fail.
Qed.

Lemma weighted_fails (sum_by_col : list (string * num)) (weight_col : string) (w : num) :
  (col, weight_col) ∈ listed (cols_to_weighted_average grouping_config) ->
  odict_get weight_col sum_by_col = Some w -> num_gt0 w = true ->
  forall merged,
    is_ok (for_each (weighted_average_step data_by_sample labels_s_names sum_by_col)
                    (listed (cols_to_weighted_average grouping_config)) merged) = false.
Proof.
  intros Hpair Hget Hgt merged. apply (for_each_fails _ _ _ (col, weight_col)); [done|].
  intros s. unfold weighted_average_step, weighted_value. simpl. rewrite Hget, Hgt.
  apply bind_fails_l, bind_fails_l, (map_result_fails _ _ m); [done|].
  unfold weighted_term. by apply bind_fails_l.
Qed.

(** The merged row is not made when a column that is read is not in the
    row of a member. *)
Lemma merged_data_fails :
  col ∈ columns_read grouping_config
  \/ (exists weight_col w,
        (col, weight_col) ∈ listed (cols_to_weighted_average grouping_config)
        /\ column_weight data_by_sample labels_s_names weight_col = Ok w
        /\ num_gt0 w = true) ->
  is_ok (merged_data data_by_sample grouping_config labels_s_names) = false.
Proof.
  intros Hcol. unfold merged_data.
  destruct (weight_sums data_by_sample grouping_config labels_s_names)
    as [sums|e] eqn:Hsums; [simpl | reflexivity].
  destruct (weight_sums_get _ _ _ _ col Hsums) as [Hin Hout].
  destruct (decide (col ∈ weight_columns grouping_config)) as [Hw | Hw].
  { apply weight_sums_fail in Hw. by rewrite Hsums in Hw. }
  destruct Hcol as [Hcol | (weight_col & w & Hpair & Hweight & Hgt)].
  - unfold columns_read in Hcol. rewrite !elem_of_app in Hcol.
    destruct Hcol as [Hcol | [Hcol | Hcol]]; [done | |].
    + apply bind_fails_r. intros merged. apply bind_fails_l. by apply average_fails.
    + apply bind_fails_r. intros merged. apply bind_fails_r. intros merged'.
      apply sum_fails; [done | by apply Hout].
  - apply bind_fails_l. apply (weighted_fails _ weight_col w); [done | | done].
    destruct (weight_sums_get _ _ _ _ weight_col Hsums) as [Hin' _].
    destruct Hin' as (w' & Hw' & Hget).
    { unfold weight_columns. apply list_elem_of_fmap. by exists (col, weight_col). }
    congruence.
Qed.

End AbsentColumn.

(** The rows of a group of several members start with the merged row. *)
Lemma group_rows_several
      (data_by_sample : gmap string (gmap string value))
      (grouping_config : SampleGroupingConfig) (g_name : string)
      (labels_s_names : list member) :
  (2 <= List.length labels_s_names)%nat ->
  group_rows data_by_sample grouping_config g_name labels_s_names =
  d ← merged_data data_by_sample grouping_config labels_s_names;
  merged_row ←
    for_each (fun row (fn : ExtraFunctionType) => fn row labels_s_names)
             (listed (extra_functions grouping_config))
             {| sample := g_name; data := d |};
  rows ← member_rows data_by_sample labels_s_names;
  Ok (merged_row :: rows).
Proof.
  destruct labels_s_names as [|[[? ?] ?] [|m2 ms]]; simpl; intros Hlen;
    [lia | lia | reflexivity].
Qed.

Lemma group_step_several
      (data_by_sample : gmap string (gmap string value))
      (grouping_config : SampleGroupingConfig) (g_name : string)
      (labels_s_names : list member) (rows : list (string * list InputRowT)) :
  (2 <= List.length labels_s_names)%nat ->
  group_step data_by_sample grouping_config rows (g_name, labels_s_names) =
  rs ← group_rows data_by_sample grouping_config
         (output_key data_by_sample g_name labels_s_names) labels_s_names;
  Ok (odict_set (output_key data_by_sample g_name labels_s_names) rs rows).
Proof.
  destruct labels_s_names as [|m1 ms]; simpl; intros Hlen; [lia | reflexivity].
Qed.

(** C1 (amended). In a group of two or more members, a column that the
    policy reads (a weight column, an averaged or a summed one, or the value
    column of a pair whose weights add up to more than zero) and that is not
    in the row of a member makes the aggregation raise: it is not counted
    as [0]. What counts as [0] is a value that is in the row and is not a
    number: the term of that member is then the integer [0]. *)
Theorem absent_column_raises
        (anchor : string) (config : Config)
        (data_by_sample : gmap string (gmap string value))
        (grouping_config : SampleGroupingConfig)
        (groups : list (string * list member))
        (g : string) (labels_s_names : list member) (m : member) (col : string) :
  group_samples_names anchor config (elements (dom data_by_sample)) = Ok groups ->
  (g, labels_s_names) ∈ groups ->
  (2 <= List.length labels_s_names)%nat ->
  m ∈ labels_s_names ->
  (col ∈ columns_read grouping_config
   \/ (exists weight_col w,
         (col, weight_col) ∈ listed (cols_to_weighted_average grouping_config)
         /\ column_weight data_by_sample labels_s_names weight_col = Ok w
         /\ num_gt0 w = true)) ->
  ((exists row, data_by_sample !! m.2 = Some row /\ row !! col = None) ->
   exists e,
     group_samples_and_average_metrics anchor config data_by_sample grouping_config
     = Raise e)
  /\ (forall v, cell data_by_sample m.2 col = Ok v -> is_number v = false ->
        plain_term data_by_sample col m = Ok (NInt 0)
        /\ (forall other, weighted_term data_by_sample col other m = Ok (NInt 0))
        /\ (forall other v', cell data_by_sample m.2 other = Ok v' ->
              weighted_term data_by_sample other col m = Ok (NInt 0))).
Proof.
  intros Hgroups Hin Hlen Hm Hcol. split.
  - intros (row & Hrow & Habsent). apply not_ok_Raise.
    unfold group_samples_and_average_metrics. rewrite Hgroups. simpl.
    apply (for_each_fails _ _ _ (g, labels_s_names)); [done|].
    intros rows. rewrite group_step_several by done. apply bind_fails_l.
    rewrite group_rows_several by done. apply bind_fails_l.
    apply (merged_data_fails _ _ _ m col); [done | | done].
    unfold cell. by rewrite Hrow, Habsent.
  - intros v Hv Hnum. unfold plain_term, weighted_term.
    split; [|split].
    + rewrite Hv. simpl. by rewrite Hnum.
    + intros other. rewrite Hv. simpl. by rewrite Hnum.
    + intros other v' Hv'. rewrite Hv'. simpl.
      destruct (is_number v'); [|done]. rewrite Hv. simpl. by rewrite Hnum.
Qed.

(** ** Examples and counterexamples *)

Lemma absent_column_raises_witness :
  ((exists row, partial_data !! "s2" = Some row /\ row !! "reads" = None) ->
   exists e,
     group_samples_and_average_metrics "bowtie2" reads_config partial_data coverage_policy
     = Raise e)
  /\ (forall v, cell partial_data "s2" "reads" = Ok v -> is_number v = false ->
        plain_term partial_data "reads" (Some "read 2", "s (read 2)", "s2") = Ok (NInt 0)
        /\ (forall other,
              weighted_term partial_data "reads" other (Some "read 2", "s (read 2)", "s2")
              = Ok (NInt 0))
        /\ (forall other v', cell partial_data "s2" other = Ok v' ->
              weighted_term partial_data other "reads" (Some "read 2", "s (read 2)", "s2")
              = Ok (NInt 0))).
Proof.
  apply (absent_column_raises "bowtie2" reads_config partial_data coverage_policy
           [("s", coverage_members)] "s" coverage_members
           (Some "read 2", "s (read 2)", "s2") "reads").
  - vm_compute. reflexivity.
  - left.
  - apply le_n.
  - right. left.
  - left. left.
Defined.

(** C1 as stated fails when a member has no value in the weight column: the
    aggregation raises [KeyError]. *)
Lemma missing_weight_column_raises :
  (exists row, partial_data !! "s2" = Some row /\ row !! "reads" = None)
  /\ group_samples_and_average_metrics "bowtie2" reads_config partial_data coverage_policy
     = Raise (KeyError "reads").
Proof.
  split; [|vm_compute; reflexivity].
  eexists. split; [vm_compute; reflexivity | vm_compute; reflexivity].
Qed.



Lemma singleton_group_row_witness :
  exists row out,
    three_groups_data !! "t_R1" = Some row
    /\ group_samples_and_average_metrics "bowtie2" paired_config three_groups_data
         coverage_policy = Ok out
    /\ odict_get "t" out = Some [{| sample := "t"; data := row |}].
Proof.
  destruct (group_samples_and_average_metrics "bowtie2" paired_config three_groups_data
              coverage_policy) as [out|e] eqn:Hout; [|vm_compute in Hout; discriminate].
  destruct (singleton_group_row "bowtie2" paired_config three_groups_data coverage_policy
              [("s", [(Some "R1", "s (R1)", "s_R1"); (Some "R2", "s (R2)", "s_R2")])]
              [("u", [(Some "R1", "u (R1)", "u_R1"); (Some "R2", "u (R2)", "u_R2")])]
              out "t" (Some "R1") "t" "t_R1")
    as (row & Hrow & _ & _ & _ & Hget).
  - vm_compute. reflexivity.
  - exact Hout.
  - exists row, out. split; [exact Hrow|]. split; [reflexivity|].
    apply Hget. intros g' ms Hin _ Hdata.
    apply list_elem_of_singleton in Hin. injection Hin as -> ->.
    vm_compute in Hdata. destruct Hdata as [x Hx]. discriminate Hx.
Defined.

(** The row of a group of one member is replaced when a later group of
    several members is stored under the same key: the read of
    [x (grouped)] gives way to the merged row of [x] and its members. *)
Lemma lone_row_overwritten :
  group_samples_names "bowtie2" paired_config (elements (dom overwritten_data))
  = Ok [("a", [(Some "R1", "a", "a_R1")]);
        ("x (grouped)", [(Some "R1", "x (grouped)", "x (grouped)_R1")]);
        ("x", [(None, "x (None)", "x"); (Some "R2", "x (R2)", "x_R2")])]
  /\ (rows ← group_samples_and_average_metrics "bowtie2" paired_config overwritten_data
                coverage_policy;
      Ok (row_names rows))
     = Ok [("a", ["a"]); ("x (grouped)", ["x (grouped)"; "x (None)"; "x (R2)"])].
Proof. split; vm_compute; reflexivity. Qed.

(** C9 as stated fails for a member that a label matched: its row is stored
    under the name of the group and bears that name, not its own. *)
Lemma lone_read_stored_under_group_name :
  group_samples_names "bowtie2" paired_config (elements (dom lone_read_data))
  = Ok [("t", [(Some "R1", "t", "t_R1")])]
  /\ group_samples_and_average_metrics "bowtie2" paired_config lone_read_data coverage_policy
     = Ok [("t", [{| sample := "t"; data := list_to_map [("cov", VInt 10)] |}])]
  /\ odict_get "t_R1"
       [("t", [{| sample := "t"; data := list_to_map [("cov", VInt 10)] |}])] = None.
Proof. repeat split; vm_compute; reflexivity. Qed.

(** C4 fails on a sample without label whose name is the group name of a
    labelled one: the two share a group and a merged row is made. *)
Lemma unlabelled_sample_is_merged :
  groups_for_sample "bowtie2" paired_config "s" = Ok ("s", None)
  /\ group_samples_names "bowtie2" paired_config (elements (dom clash_data))
     = Ok [("s", [(None, "s (None)", "s"); (Some "R1", "s (R1)", "s_R1")])]
  /\ (rows ← group_samples_and_average_metrics "bowtie2" paired_config clash_data
                coverage_policy;
      Ok (row_names rows))
     = Ok [("s (grouped)", ["s (grouped)"; "s (None)"; "s (R1)"])].
Proof. repeat split; vm_compute; reflexivity. Qed.

Lemma clean_s_name_not_empty_before_replacements_witness :
  exists trimmed,
    trim_s_name "bowtie2" (config_with [] ["_"] [("x", "")] []) "_" FNone None None None
      None None None = Ok trimmed
    /\ trimmed <> ""
    /\ ("" = "" -> trimmed = "_")
    /\ ("" <> "" -> trimmed = "")
    /\ clean_s_name "bowtie2" (config_with [] ["_"] [("x", "")] []) (SName "_") FNone
         None None None None None None
       = for_each (apply_replace (config_with [] ["_"] [("x", "")] []))
                  (sample_names_replace (config_with [] ["_"] [("x", "")] [])) trimmed
    /\ (sample_names_replace (config_with [] ["_"] [("x", "")] []) = [] ->
        clean_s_name "bowtie2" (config_with [] ["_"] [("x", "")] []) (SName "_") FNone
          None None None None None None = Ok trimmed).
Proof.
  apply (clean_s_name_not_empty_before_replacements
           "bowtie2" (config_with [] ["_"] [("x", "")] []) FNone None None None
           None None None "_" "").
  - discriminate.
  - vm_compute. reflexivity.
Defined.

(** C5 as stated fails with a replacement whose result is empty. *)
Lemma clean_s_name_replaced_by_nothing :
  "abc" <> ""
  /\ clean_default "bowtie2" (config_with [] [] [("abc", "")] []) (SName "abc") = Ok "".
Proof. split; [discriminate | vm_compute; reflexivity]. Qed.

(** C6 as stated fails on a name with two matches: both are deleted. *)
Lemma regex_rule_deletes_every_match :
  apply_ext "bowtie2" "s_L001_L002" (regex_ext "_L\d+") = Ok "s"
  /\ spec_regex_remove_first "_L\d+" "s_L001_L002" = Ok "s_L002".
Proof. split; vm_compute; reflexivity. Qed.

(** ** C6: what [re.sub] deletes *)

Lemma drop_drop (n m : nat) (s : string) : Py.drop m (Py.drop n s) = Py.drop (n + m) s.
Proof.
  revert s; induction n as [|n IH]; intros s; [reflexivity|].
  destruct s as [|c s]; simpl; [by destruct m | apply IH].
Qed.

Lemma length_drop (n : nat) (s : string) :
  String.length (Py.drop n s) = (String.length s - n)%nat.
Proof.
  revert s; induction n as [|n IH]; intros s; simpl; [lia|].
  destruct s as [|c s]; simpl; [reflexivity | apply IH].
Qed.

(** A match hands over the text that follows it: the continuation is called
    on what is left of the subject after some of its first characters, at
    the offset that goes with it. *)
Lemma rmatch_consumes {R : Type} (r : Re.regex) :
  forall (pos : nat) (s : string) (k : nat -> string -> option R) (x : R),
    Re.rmatch r pos s k = Some x ->
    exists n, (n <= String.length s)%nat /\ k (pos + n)%nat (Py.drop n s) = Some x.
Proof.
  induction r as [ | c | | neg ranges | | | r1 IH1 r2 IH2 | r1 IH1 r2 IH2 | r IH
                   | lo hi greedy r IH ]; intros pos s k x H; simpl in H.
  - exists 0%nat. rewrite Nat.add_0_r. split; [lia | done].
  - destruct s as [|c' s]; [discriminate|]. destruct (Ascii.eqb c c'); [|discriminate].
    exists 1%nat. rewrite Nat.add_1_r. split; [simpl; lia | done].
  - destruct s as [|c' s]; [discriminate|]. destruct (Ascii.eqb c' Re.newline); [discriminate|].
    exists 1%nat. rewrite Nat.add_1_r. split; [simpl; lia | done].
  - destruct s as [|c' s]; [discriminate|]. destruct (Re.in_set neg ranges c'); [|discriminate].
    exists 1%nat. rewrite Nat.add_1_r. split; [simpl; lia | done].
  - destruct pos; [|discriminate].
    exists 0%nat. split; [lia | done].
  - exists 0%nat. rewrite Nat.add_0_r. split; [lia|]. simpl.
    destruct s as [|c' [|c'' s]]; [done | | discriminate].
    by destruct (Ascii.eqb c' Re.newline).
  - apply IH1 in H as (n1 & Hn1 & H). apply IH2 in H as (n2 & Hn2 & H).
    rewrite length_drop in Hn2. exists (n1 + n2)%nat.
    rewrite drop_drop, <- Nat.add_assoc in H. split; [lia | done].
  - unfold Re.or_else in H.
    destruct (Re.rmatch r1 pos s k) as [y|] eqn:E.
    + injection H as ->. by apply IH1.
    + by apply IH2.
  - by apply IH.
  - revert H. generalize (lo + Py.len s + 1)%nat as fuel. intros fuel.
    revert lo hi pos s. induction fuel as [|fuel IHf]; intros lo hi pos s H; [discriminate|].
    destruct lo as [|lo].
    + assert (Hmore : Re.rmatch r pos s
                        (fun pos' s' =>
                           if (pos <? pos')%nat
                           then (fix loop (fuel lo : nat) (hi : option nat) (pos : nat)
                                     (s : string) {struct fuel} : option R :=
                                   match fuel with
                                   | O => None
                                   | S fuel' =>
                                       match lo with
                                       | S lo' =>
                                           Re.rmatch r pos s (fun pos' s' =>
                                             loop fuel' lo' (Re.dec_hi hi) pos' s')
                                       | O =>
                                           match hi with
                                           | Some O => k pos s
                                           | _ =>
                                               let more :=
                                                 Re.rmatch r pos s (fun pos' s' =>
                                                   if (pos <? pos')%nat
                                                   then loop fuel' O (Re.dec_hi hi) pos' s'
                                                   else None) in
                                               if greedy then Re.or_else more (k pos s)
                                               else Re.or_else (k pos s) more
                                           end
                                       end
                                   end) fuel 0%nat (Re.dec_hi hi) pos' s'
                           else None) = Some x ->
                      exists n, (n <= String.length s)%nat
                                /\ k (pos + n)%nat (Py.drop n s) = Some x).
      { intros Hm. apply IH in Hm as (n1 & Hn1 & Hm).
        destruct (pos <? pos + n1)%nat; [|discriminate].
        apply IHf in Hm as (n2 & Hn2 & Hm).
        rewrite length_drop in Hn2. exists (n1 + n2)%nat.
        rewrite drop_drop, <- Nat.add_assoc in Hm. split; [lia | done]. }
      assert (Hstop : k pos s = Some x ->
                      exists n, (n <= String.length s)%nat
                                /\ k (pos + n)%nat (Py.drop n s) = Some x).
      { intros Hk. exists 0%nat. rewrite Nat.add_0_r. split; [lia | done]. }
      destruct hi as [[|h]|]; [by apply Hstop | |].
      * cbv zeta in H. unfold Re.or_else in H.
        destruct greedy.
        -- match type of H with
           | match ?m with _ => _ end = _ => destruct m eqn:E
           end; [injection H as ->; by apply Hmore | by apply Hstop].
        -- destruct (k pos s) eqn:E; [injection H as ->; by apply Hstop | by apply Hmore].
      * cbv zeta in H. unfold Re.or_else in H.
        destruct greedy.
        -- match type of H with
           | match ?m with _ => _ end = _ => destruct m eqn:E
           end; [injection H as ->; by apply Hmore | by apply Hstop].
        -- destruct (k pos s) eqn:E; [injection H as ->; by apply Hstop | by apply Hmore].
    + apply IH in H as (n1 & Hn1 & H). apply IHf in H as (n2 & Hn2 & H).
      rewrite length_drop in Hn2. exists (n1 + n2)%nat.
      rewrite drop_drop, <- Nat.add_assoc in H. split; [lia | done].
Qed.

(** Where a match found by the search lies. *)
Lemma search_from_bounds (r : Re.regex) :
  forall (s : string) (must_advance : bool) (pos b e : nat) (s' : string),
    Re.search_from r must_advance pos s = Some (b, e, s') ->
    exists i n,
      b = (pos + i)%nat /\ e = (b + n)%nat /\ (i + n <= String.length s)%nat
      /\ s' = Py.drop (i + n) s
      /\ (must_advance = true -> i = 0%nat -> n <> 0%nat).
Proof.
  induction s as [|c s IH]; intros must_advance pos b e s' H; simpl in H.
  - destruct (Re.rmatch r pos "" _) as [[e0 s0]|] eqn:E; [|discriminate].
    injection H as <- <- <-.
    apply rmatch_consumes in E as (n & Hn & E).
    destruct (must_advance && (pos + n =? pos)%nat) eqn:Hadv; [discriminate|].
    injection E as <- <-. exists 0%nat, n. rewrite Nat.add_0_r.
    split; [reflexivity|]. split; [reflexivity|]. split; [simpl in *; lia|].
    split; [reflexivity|].
    intros -> _ ->. rewrite Nat.add_0_r, Nat.eqb_refl in Hadv. discriminate.
  - destruct (Re.rmatch r pos (String c s) _) as [[e0 s0]|] eqn:E.
    + injection H as <- <- <-.
      apply rmatch_consumes in E as (n & Hn & E).
      destruct (must_advance && (pos + n =? pos)%nat) eqn:Hadv; [discriminate|].
      injection E as <- <-. exists 0%nat, n. rewrite Nat.add_0_r.
      split; [reflexivity|]. split; [reflexivity|]. split; [simpl in *; lia|].
      split; [reflexivity|].
      intros -> _ ->. rewrite Nat.add_0_r, Nat.eqb_refl in Hadv. discriminate.
    + apply IH in H as (i & n & -> & -> & Hlen & -> & _).
      exists (S i), n. simpl.
      split; [lia|]. split; [lia|]. split; [lia|]. split; [reflexivity | discriminate].
Qed.

(** The turns [re.sub] is given are enough: its result is the subject with
    every match replaced. *)
Lemma sub_go_replaces_all (r : Re.regex) (repl : string) :
  forall (fuel : nat) (must_advance : bool) (pos : nat) (s : string),
    (2 * String.length s + (if must_advance then 0 else 1) < fuel)%nat ->
    replaces_all r repl must_advance pos s (Re.sub_go fuel r repl must_advance pos s).
Proof.
  induction fuel as [|fuel IH]; intros must_advance pos s Hfuel; [lia|].
  simpl. destruct (Re.search_from r must_advance pos s) as [[[b e] s']|] eqn:E.
  - eapply replaces_match; [exact E|]. apply IH.
    apply search_from_bounds in E as (i & n & -> & -> & Hlen & -> & Hadv).
    rewrite length_drop.
    destruct (decide (i + n = 0)%nat) as [Hz | Hnz].
    + assert (i = 0%nat) as -> by lia. assert (n = 0%nat) as -> by lia.
      rewrite !Nat.add_0_r, Nat.eqb_refl.
      destruct must_advance; [by exfalso; apply Hadv | simpl in *; lia].
    + destruct (_ =? _)%nat; destruct must_advance; lia.
  - by apply replaces_none.
Qed.

Lemma sub_regex_replaces_all (r : Re.regex) (repl s : string) :
  replaces_all r repl false 0 s (Re.sub_regex r repl s).
Proof. apply sub_go_replaces_all. unfold Py.len. lia. Qed.

(** *** Plain text *)

Lemma prefix_length (p s : string) :
  String.prefix p s = true -> (String.length p <= String.length s)%nat.
Proof.
  revert s; induction p as [|c p IH]; intros [|c' s]; simpl; try lia; try discriminate.
  destruct (Ascii.ascii_dec c c'); [|discriminate]. intros H%IH. lia.
Qed.

(** A literal matches where its text starts the subject. *)
Lemma rmatch_literal {R : Type} (p : string) :
  forall (pos : nat) (s : string) (k : nat -> string -> option R),
    Re.rmatch (literal p) pos s k =
    if String.prefix p s
    then k (pos + String.length p)%nat (Py.drop (String.length p) s)
    else None.
Proof.
  induction p as [|c p IH]; intros pos s k.
  - simpl. rewrite Nat.add_0_r. by destruct s.
  - assert (Hstep : Re.rmatch (Re.Seq (Re.Chr c) (literal p)) pos s k =
                    if String.prefix (String c p) s
                    then k (pos + String.length (String c p))%nat
                           (Py.drop (String.length (String c p)) s)
                    else None).
    { destruct s as [|c' s]; [reflexivity|].
      cbn [Re.rmatch String.prefix String.length Py.drop].
      destruct (Ascii.ascii_dec c c') as [<- | Hne].
      - rewrite Ascii.eqb_refl. rewrite IH. by rewrite Nat.add_succ_comm.
      - by rewrite (proj2 (Ascii.eqb_neq c c') Hne). }
    destruct p as [|c2 p]; [|exact Hstep].
    destruct s as [|c' s]; [reflexivity|].
    cbn [literal Re.rmatch String.prefix String.length Py.drop].
    destruct (Ascii.ascii_dec c c') as [<- | Hne].
    + rewrite Ascii.eqb_refl. rewrite Nat.add_1_r. by destruct s.
    + by rewrite (proj2 (Ascii.eqb_neq c c') Hne).
Qed.

(** The search for a literal goes to the first place where its text is. *)
Lemma search_from_literal (p : string) (must_advance : bool) (pos : nat) (s : string) :
  p <> "" ->
  Re.search_from (literal p) must_advance pos s =
  if String.prefix p s
  then Some (pos, (pos + String.length p)%nat, Py.drop (String.length p) s)
  else match s with
       | EmptyString => None
       | String _ s' => Re.search_from (literal p) false (S pos) s'
       end.
Proof.
  intros Hp.
  assert (Hlen : (pos + String.length p =? pos)%nat = false).
  { apply Nat.eqb_neq. destruct p; [done | simpl; lia]. }
  destruct s as [|c s]; cbn [Re.search_from]; rewrite rmatch_literal;
    destruct (String.prefix p _); try reflexivity;
    by rewrite Hlen, andb_false_r.
Qed.

(** Passing over [k] characters, then replacing. *)
Lemma replace_go_skip (old new : string) (k : nat) (s : string) :
  Py.replace_go old new k s = Py.replace_go old new 0 (Py.drop k s).
Proof.
  revert s; induction k as [|k IH]; intros s; [reflexivity|].
  destruct s as [|c s]; [reflexivity|]. simpl. apply IH.
Qed.

Lemma replace_go_at_match (old new s : string) :
  old <> "" -> String.prefix old s = true ->
  Py.replace_go old new 0 s
  = (new ++ Py.replace_go old new 0 (Py.drop (String.length old) s))%string.
Proof.
  intros Hold Hpre. destruct s as [|c s].
  - destruct old; [done | discriminate].
  - cbn [Py.replace_go]. rewrite Hpre. f_equal. rewrite replace_go_skip.
    destruct old as [|c0 old]; [done|]. simpl. by rewrite Nat.sub_0_r.
Qed.

Lemma replace_go_no_match (p repl : string) :
  p <> "" ->
  forall (s : string) (must_advance : bool) (pos : nat),
    Re.search_from (literal p) must_advance pos s = None ->
    Py.replace_go p repl 0 s = s.
Proof.
  intros Hp. induction s as [|c s IHs]; intros must_advance pos Hnone; [reflexivity|].
  rewrite search_from_literal in Hnone by done.
  destruct (String.prefix p (String c s)) eqn:Hpre; [discriminate|].
  cbn [Py.replace_go]. rewrite Hpre. f_equal. by eapply IHs.
Qed.

Lemma replace_go_first_match (p repl : string) :
  p <> "" ->
  forall (s : string) (must_advance : bool) (pos b e : nat) (s' : string),
    Re.search_from (literal p) must_advance pos s = Some (b, e, s') ->
    Py.replace_go p repl 0 s
    = (Py.take (b - pos) s ++ repl ++ Py.replace_go p repl 0 s')%string.
Proof.
  intros Hp. induction s as [|c s IHs]; intros must_advance pos b e s' Hsome.
  - rewrite search_from_literal in Hsome by done.
    destruct (String.prefix p "") eqn:Hpre; [|discriminate].
    destruct p; [done | discriminate].
  - rewrite search_from_literal in Hsome by done.
    destruct (String.prefix p (String c s)) eqn:Hpre.
    + injection Hsome as <- <- <-. rewrite Nat.sub_diag.
      by rewrite replace_go_at_match.
    + pose proof (IHs _ _ _ _ _ Hsome) as IH.
      apply search_from_bounds in Hsome as (i & n & -> & _).
      replace (S pos + i - pos)%nat with (S (S pos + i - S pos)) by lia.
      cbn [Py.take Py.replace_go]. rewrite Hpre, IH. reflexivity.
Qed.

(** Replacing every match of a literal is [str.replace]. *)
Lemma replaces_all_literal (p repl : string) (must_advance : bool) (pos : nat)
      (s out : string) :
  p <> "" ->
  replaces_all (literal p) repl must_advance pos s out ->
  out = Py.replace_go p repl 0 s.
Proof.
  intros Hp H.
  induction H as [must_advance pos s Hnone | must_advance pos s b e s' out Hsome _ IH].
  - symmetry. by eapply replace_go_no_match.
  - subst out. symmetry. by eapply replace_go_first_match.
Qed.

(** *** Compiling a plain text *)

Lemma parse_atom_plain (inner : string -> result (Re.regex * string)) (c : ascii) (s : string) :
  plain_char c = true -> Re.parse_atom inner (String c s) = Ok (Re.Chr c, s).
Proof.
  destruct c as [[] [] [] [] [] [] [] []]; intros H; try discriminate H; reflexivity.
Qed.

Lemma parse_quant_plain (r : Re.regex) (s : string) :
  match s with EmptyString => True | String c _ => plain_char c = true end ->
  Re.parse_quant r s = Ok (r, s).
Proof.
  destruct s as [|c s]; [reflexivity|].
  destruct c as [[] [] [] [] [] [] [] []]; intros H; try discriminate H; reflexivity.
Qed.

Lemma parse_seq_step (inner : string -> result (Re.regex * string)) (fuel : nat)
      (c : ascii) (s : string) :
  plain_char c = true ->
  Re.parse_seq inner (S fuel) (String c s) =
  '(a, s1) ← Re.parse_atom inner (String c s);
  '(q, s2) ← Re.parse_quant a s1;
  '(rest, s3) ← Re.parse_seq inner fuel s2;
  Ok (match rest with Re.Eps => q | _ => Re.Seq q rest end, s3).
Proof.
  destruct c as [[] [] [] [] [] [] [] []]; intros H; try discriminate H; reflexivity.
Qed.

Lemma parse_seq_plain (inner : string -> result (Re.regex * string)) (p : string) :
  plain_text p = true ->
  forall fuel, (String.length p < fuel)%nat ->
               Re.parse_seq inner fuel p = Ok (literal p, EmptyString).
Proof.
  induction p as [|c p IH]; intros Hplain fuel Hfuel.
  - destruct fuel; [lia | reflexivity].
  - destruct fuel as [|fuel]; [lia|].
    simpl in Hplain. apply andb_prop in Hplain as [Hc Hp].
    rewrite parse_seq_step by done. rewrite parse_atom_plain by done.
    cbn [mbind result_bind].
    rewrite parse_quant_plain.
    2:{ destruct p as [|c' p]; [done|]. simpl in Hp. by apply andb_prop in Hp as [Hc' _]. }
    cbn [mbind result_bind]. rewrite IH; [|done | simpl in Hfuel; lia].
    cbn [mbind result_bind]. destruct p as [|c' [|c'' p]]; reflexivity.
Qed.

(** A plain text compiles to the literal that matches it. *)
Lemma compile_plain (p : string) :
  plain_text p = true -> Re.compile p = Ok (literal p).
Proof.
  intros Hplain. unfold Re.compile. cbn [Re.parse_regex Re.parse_alt].
  rewrite parse_seq_plain by (done || unfold Py.len; lia). reflexivity.
Qed.

(** C6 (amended). A cleaning pattern of the type [regex] that applies to the
    module deletes every match of its expression, not the first one only:
    the matches are looked for from left to right, each search starting
    where the last match ended, and all of them are taken out. When the
    pattern is a plain text, the result is the name without any of its
    occurrences, as [str.replace] gives it. *)
Theorem regex_rule_deletes_all_matches
        (anchor name : string) (ext : ext_dict) (r : Re.regex) :
  ext_type ext = Some "regex" ->
  skipped_for_module anchor ext = false ->
  Re.compile (default "" (ext_pattern ext)) = Ok r ->
  exists out,
    apply_ext anchor name (ExtDict ext) = Ok out
    /\ replaces_all r "" false 0 name out
    /\ (plain_text (default "" (ext_pattern ext)) = true ->
        default "" (ext_pattern ext) <> "" ->
        out = Py.replace name (default "" (ext_pattern ext)) "").
Proof.
  intros Hty Hskip Hr. exists (Re.sub_regex r "" name).
  split; [|split].
  - unfold apply_ext. simpl. rewrite Hskip, Hty. simpl.
    by apply sub_empty_repl.
  - apply sub_regex_replaces_all.
  - intros Hplain Hne. rewrite (compile_plain _ Hplain) in Hr. injection Hr as <-.
    rewrite (replaces_all_literal (default "" (ext_pattern ext)) "" false 0 name
               (Re.sub_regex (literal (default "" (ext_pattern ext))) "" name));
      [| done | apply sub_regex_replaces_all].
    unfold Py.replace. by destruct (default "" (ext_pattern ext)).
Qed.

Lemma regex_rule_deletes_all_matches_witness :
  exists out,
    apply_ext "bowtie2" "s_L001_L002" (regex_ext "_L") = Ok out
    /\ replaces_all (literal "_L") "" false 0 "s_L001_L002" out
    /\ (plain_text "_L" = true -> "_L" <> "" -> out = Py.replace "s_L001_L002" "_L" "").
Proof.
  apply (regex_rule_deletes_all_matches "bowtie2" "s_L001_L002"
           {| ext_type := Some "regex"; ext_pattern := Some "_L"; ext_module := None |}
           (literal "_L")); reflexivity.
Defined.

(** ** When the aggregation returns *)

Lemma map_result_total_with {A B : Type} (P : B -> Prop) (f : A -> result B) (l : list A) :
  Forall (fun a => exists y, f a = Ok y /\ P y) l ->
  exists ys, map_result f l = Ok ys /\ Forall P ys.
Proof.
  induction 1 as [|a l (y & Hy & HP) _ (ys & Hys & HPs)]; simpl.
  - exists []. split; [reflexivity | constructor].
  - rewrite Hy; simpl. rewrite Hys; simpl. exists (y :: ys). split; [reflexivity|].
    by constructor.
Qed.

Lemma to_float_convertible (v : value) :
  is_number v = true -> convertible v = true -> exists x, to_float v = Ok x.
Proof.
  unfold convertible. intros ->. simpl.
  destruct (to_float v); [eauto | discriminate].
Qed.

Section Returns.

Variable data_by_sample : gmap string (gmap string value).
Variable grouping_config : SampleGroupingConfig.
Variable labels_s_names : list member.

(** Every column the policy names is in the row of every member, with a
    value that [float()] accepts when it is a number. *)
Hypothesis cells_ok :
  forall (m : member) (col : string),
    m ∈ labels_s_names -> col ∈ policy_columns grouping_config ->
    exists v, cell data_by_sample m.2 col = Ok v /\ convertible v = true.

Lemma plain_term_total (col : string) (m : member) :
  m ∈ labels_s_names -> col ∈ policy_columns grouping_config ->
  exists t, plain_term data_by_sample col m = Ok t /\ sum_state t.
Proof.
  intros Hm Hcol. destruct (cells_ok m col Hm Hcol) as (v & Hv & Hconv).
  unfold plain_term. rewrite Hv. simpl.
  destruct (is_number v) eqn:Hnum.
  - destruct (to_float_convertible v Hnum Hconv) as [x ->]. simpl.
    exists (NFloat x). split; [done | right; eauto].
  - exists (NInt 0). split; [done | by left].
Qed.

Lemma weighted_term_total (col weight_col : string) (m : member) :
  m ∈ labels_s_names ->
  col ∈ policy_columns grouping_config -> weight_col ∈ policy_columns grouping_config ->
  exists t, weighted_term data_by_sample col weight_col m = Ok t /\ sum_state t.
Proof.
  intros Hm Hcol Hweight.
  destruct (cells_ok m col Hm Hcol) as (v & Hv & Hvconv).
  destruct (cells_ok m weight_col Hm Hweight) as (w & Hw & Hwconv).
  unfold weighted_term. rewrite Hv. simpl.
  destruct (is_number v) eqn:Hvnum; [|exists (NInt 0); split; [done | by left]].
  rewrite Hw. simpl.
  destruct (is_number w) eqn:Hwnum; [|exists (NInt 0); split; [done | by left]].
  destruct (to_float_convertible v Hvnum Hvconv) as [x ->].
  destruct (to_float_convertible w Hwnum Hwconv) as [y ->]. simpl.
  exists (NFloat (x * y)). split; [done | right; eauto].
Qed.

Lemma plain_sum_total (col : string) :
  col ∈ policy_columns grouping_config ->
  exists terms total,
    map_result (plain_term data_by_sample col) labels_s_names = Ok terms
    /\ py_sum terms = Ok total /\ sum_state total.
Proof.
  intros Hcol.
  destruct (map_result_total_with sum_state (plain_term data_by_sample col) labels_s_names)
    as (terms & Hterms & Hstate).
  { apply Forall_forall. intros m Hm. by apply plain_term_total. }
  destruct (py_sum_total terms Hstate) as (total & Htotal & Hs). eauto.
Qed.

Lemma weight_column_in_policy (col : string) :
  col ∈ weight_columns grouping_config -> col ∈ policy_columns grouping_config.
Proof.
  intros H. unfold policy_columns, columns_read.
  apply elem_of_app. right. apply elem_of_app. by left.
Qed.

(** The sums of the weights are made, and each is [0] or a float. *)
Lemma weight_sums_total :
  exists sum_by_col,
    weight_sums data_by_sample grouping_config labels_s_names = Ok sum_by_col
    /\ (forall c w, odict_get c sum_by_col = Some w -> sum_state w).
Proof.
  unfold weight_sums.
  destruct (initial_sums (listed (cols_to_weighted_average grouping_config)) [])
    as (_ & Hkeys & Hzero).
  set (d0 := List.fold_left _ (listed (cols_to_weighted_average grouping_config)) [])
    in *. clearbody d0.
  set (good := fun d : list (string * num) =>
                 (forall c, c ∈ weight_columns grouping_config ->
                            exists w, odict_get c d = Some w)
                 /\ (forall c w, odict_get c d = Some w -> sum_state w)).
  assert (Hkeys' : forall c, c ∈ odict_keys d0 -> c ∈ weight_columns grouping_config).
  { intros c Hc. apply Hkeys in Hc as [Hc | Hc]; [by apply elem_of_nil in Hc | done]. }
  destruct (for_each_total good (add_weights data_by_sample labels_s_names)
              (odict_keys d0) d0) as (sums & Hsums & _ & Hstate); [| |eauto].
  - intros d col Hcol Hd. unfold add_weights.
    apply (for_each_total good); [|done].
    intros d' m Hm [Hd1 Hd2].
    destruct (cells_ok m col Hm) as (v & Hv & Hconv).
    { apply weight_column_in_policy. by apply Hkeys'. }
    rewrite Hv. simpl.
    destruct (is_number v) eqn:Hnum; [|exists d'; split; [reflexivity | by split]].
    destruct (Hd1 col (Hkeys' _ Hcol)) as [acc Hacc]. rewrite Hacc.
    destruct (to_float_convertible v Hnum Hconv) as [x ->]. simpl.
    destruct (num_add_float acc x (Hd2 _ _ Hacc)) as [y ->]. simpl.
    eexists. split; [reflexivity|]. split.
    + intros c Hc. rewrite odict_get_set. case_decide; [eauto | by apply Hd1].
    + intros c w. rewrite odict_get_set. case_decide; [|by apply Hd2].
      intros [= <-]. right. eauto.
  - split.
    + intros c Hc. exists (NInt 0). by apply Hzero.
    + intros c w Hget. left.
      assert (Hc : c ∈ odict_keys d0).
      { apply odict_get_Some in Hget. unfold odict_keys.
        apply list_elem_of_fmap. by exists (c, w). }
      rewrite (Hzero c (Hkeys' _ Hc)) in Hget. by injection Hget as <-.
Qed.

(** The merged row is made when every column is there and the number of
    members is one that [float()] accepts. *)
Lemma merged_data_total :
  labels_s_names <> [] ->
  is_ok (float_of_int (Z.of_nat (List.length labels_s_names))) = true ->
  exists merged, merged_data data_by_sample grouping_config labels_s_names = Ok merged.
Proof.
  intros Hne Hlen. unfold merged_data.
  destruct weight_sums_total as (sums & Hsums & Hstate). rewrite Hsums. simpl.
  destruct (for_each_total (fun _ => True)
              (weighted_average_step data_by_sample labels_s_names sums)
              (listed (cols_to_weighted_average grouping_config)) ∅)
    as (weighted & -> & _); [|done|].
  { intros merged [col weight_col] Hpair _.
    unfold weighted_average_step, weighted_value. simpl.
    destruct (weight_sums_get _ _ _ _ weight_col Hsums) as [Hin _].
    destruct Hin as (w & _ & Hget).
    { apply list_elem_of_fmap. by exists (col, weight_col). }
    rewrite Hget. destruct (num_gt0 w) eqn:Hgt; [|simpl; eauto].
    destruct (map_result_total_with sum_state
                (weighted_term data_by_sample col weight_col) labels_s_names)
      as (terms & -> & Hterms).
    { apply Forall_forall. intros m Hm. apply weighted_term_total; [done | |].
      - unfold policy_columns. apply elem_of_app. left.
        apply list_elem_of_fmap. by exists (col, weight_col).
      - apply weight_column_in_policy, list_elem_of_fmap. by exists (col, weight_col). }
    simpl. destruct (py_sum_total terms Hterms) as (total & -> & Htotal). simpl.
    destruct (num_truediv_total total w Htotal) as [q ->]; [| |simpl; eauto].
    - by apply num_gt0_not_zero.
    - destruct (Hstate _ _ Hget) as [-> | [x ->]]; reflexivity. }
  simpl.
  destruct (for_each_total (fun _ => True) (average_step data_by_sample labels_s_names)
              (listed (cols_to_average grouping_config)) weighted)
    as (averaged & -> & _); [|done|].
  { intros merged col Hcol _. unfold average_step, average_value.
    destruct (plain_sum_total col) as (terms & total & -> & Htotal & Hs).
    { unfold policy_columns, columns_read. set_solver. }
    simpl. rewrite Htotal. simpl.
    destruct (num_truediv_total total (NInt (Z.of_nat (List.length labels_s_names))) Hs)
      as [q ->]; [| done | simpl; eauto].
    simpl. apply Z.eqb_neq. destruct labels_s_names; [done | simpl; lia]. }
  simpl.
  destruct (for_each_total (fun _ => True) (sum_step data_by_sample labels_s_names sums)
              (listed (cols_to_sum grouping_config)) averaged)
    as (merged & -> & _); [|done|eauto].
  intros merged col Hcol _. unfold sum_step, sum_value.
  destruct (odict_get col sums); [simpl; eauto|].
  destruct (plain_sum_total col) as (terms & total & -> & Htotal & Hs).
  { unfold policy_columns, columns_read. set_solver. }
  simpl. rewrite Htotal. simpl. eauto.
Qed.

End Returns.

Section GroupingReturns.

Variable anchor : string.
Variable config : Config.

(** The cleaning patterns of the configuration and those of every label
    are well formed, and so are the replacement rules. *)
Hypothesis exts_ok : forallb (ext_ok anchor) (fn_clean_exts config) = true.
Hypothesis rules_ok : forallb (rule_ok config) (sample_names_replace config) = true.
Hypothesis group_exts_ok :
  forall label g, (label, g) ∈ generalstats_sample_merge_groups config ->
                  forallb (ext_ok anchor) (group_exts g) = true.

Lemma groups_for_sample_total (s_name : string) :
  exists r, groups_for_sample anchor config s_name = Ok r.
Proof.
  unfold groups_for_sample.
  assert (Hloop : forall items,
             (forall label g, (label, g) ∈ items ->
                              forallb (ext_ok anchor) (group_exts g) = true) ->
             exists r, groups_for_sample_loop anchor config s_name items = Ok r).
  { induction items as [|[label g] items IH]; intros Hok; simpl; [eauto|].
    assert (Hrest : exists r, groups_for_sample_loop anchor config s_name items = Ok r).
    { apply IH. intros l' g' Hin. apply (Hok l'). by right. }
    specialize (Hok label g (list_elem_of_here _ _)).
    change (match g with GroupOne p => [p] | GroupList ps => ps end) with (group_exts g).
    destruct (group_exts g) as [|p ps] eqn:E; [done|].
    destruct (clean_one_total anchor config FNone None None None
                (Some (p :: ps)) (Some []) (Some false) s_name Hok rules_ok) as [name Hname].
    unfold clean_s_name. rewrite Hname. simpl.
    destruct (negb _); [|done].
    destruct (clean_one_total anchor config FNone None None None None None None
                name exts_ok rules_ok) as [group Hgroup].
    rewrite Hgroup. simpl. eauto. }
  destruct (generalstats_sample_merge_groups config) as [|item items] eqn:E; [eauto|].
  apply Hloop. intros label g Hin. by apply (group_exts_ok label).
Qed.

(** With well-formed patterns the names are grouped. *)
Lemma group_samples_names_total (samples : list string) :
  exists groups, group_samples_names anchor config samples = Ok groups.
Proof.
  unfold group_samples_names.
  match goal with
  | |- context [for_each ?body ?l ?acc] =>
      destruct (for_each_total (fun _ => True) body l acc) as (d & -> & _)
  end; [| done | simpl; eauto].
  intros d o _ _. destruct (groups_for_sample_total o) as [[g label] ->]. simpl. eauto.
Qed.

End GroupingReturns.

(** X6. The aggregation returns when the names are grouped, no extra function
    is given, every column the policy names is in every row with a value
    that [float()] accepts when it is a number, and so is the size of
    every group. *)
Lemma aggregation_total
      (anchor : string) (config : Config)
      (data_by_sample : gmap string (gmap string value))
      (grouping_config : SampleGroupingConfig)
      (groups : list (string * list member)) :
  group_samples_names anchor config (elements (dom data_by_sample)) = Ok groups ->
  listed (extra_functions grouping_config) = [] ->
  (forall name row col,
      data_by_sample !! name = Some row -> col ∈ policy_columns grouping_config ->
      exists v, row !! col = Some v /\ convertible v = true) ->
  (forall g ms, (g, ms) ∈ groups ->
                is_ok (float_of_int (Z.of_nat (List.length ms))) = true) ->
  exists out,
    group_samples_and_average_metrics anchor config data_by_sample grouping_config = Ok out.
Proof.
  intros Hgroups Hextra Hcells Hsizes.
  unfold group_samples_and_average_metrics. rewrite Hgroups. simpl.
  pose proof (group_originals_Permutation _ _ _ _ Hgroups) as Hperm.
  assert (Hrows : forall g ms (m : member),
             (g, ms) ∈ groups -> m ∈ ms -> exists row, data_by_sample !! m.2 = Some row).
  { intros g ms m Hin Hm.
    assert (Ho : m.2 ∈ elements (dom data_by_sample)).
    { rewrite <- Hperm. unfold group_originals. apply list_elem_of_fmap.
      exists (g, m). split; [done|]. unfold odict_items.
      apply list_elem_of_In, List.in_flat_map. exists (g, ms).
      split; [by apply list_elem_of_In|]. apply List.in_map. by apply list_elem_of_In. }
    by apply elem_of_elements, elem_of_dom in Ho. }
  destruct (for_each_total (fun _ => True) (group_step data_by_sample grouping_config)
              groups []) as (out & -> & _); [| done | eauto].
  intros rows [g ms] Hin _.
  assert (Hmembers : exists rs, member_rows data_by_sample ms = Ok rs).
  { unfold member_rows. apply map_result_total, Forall_forall. intros m Hm.
    destruct (Hrows g ms m Hin Hm) as [row Hrow].
    unfold row_of. rewrite Hrow. simpl. eauto. }
  destruct ms as [|m1 [|m2 ms]].
  - simpl. eauto.
  - destruct m1 as [[label s_name] original]. simpl.
    destruct (Hrows _ _ (label, s_name, original) Hin (list_elem_of_here _ _)) as [row Hrow].
    simpl in Hrow. unfold row_of. rewrite Hrow. simpl. eauto.
  - rewrite group_step_several by (simpl; lia).
    rewrite group_rows_several by (simpl; lia).
    destruct (merged_data_total data_by_sample grouping_config (m1 :: m2 :: ms))
      as [merged ->]; [| done | by apply (Hsizes g) |].
    { intros m col Hm Hcol. destruct (Hrows g _ m Hin Hm) as [row Hrow].
      destruct (Hcells _ _ _ Hrow Hcol) as (v & Hv & Hconv).
      exists v. split; [|done]. unfold cell. by rewrite Hrow, Hv. }
    simpl. rewrite Hextra. simpl.
    destruct Hmembers as [rs ->]. simpl. eauto.
Qed.

Lemma aggregation_total_witness :
  exists out,
    group_samples_and_average_metrics "bowtie2" reads_config coverage_data coverage_policy
    = Ok out.
Proof.
  apply (aggregation_total "bowtie2" reads_config coverage_data coverage_policy
           [("s", coverage_members)]).
  - vm_compute. reflexivity.
  - reflexivity.
  - intros name row col Hrow Hcol.
    apply elem_of_list_to_map_2 in Hrow.
    repeat (apply elem_of_cons in Hrow as [[= -> ->] | Hrow]);
      [| | by apply elem_of_nil in Hrow];
      repeat (apply elem_of_cons in Hcol as [-> | Hcol]);
      try (by apply elem_of_nil in Hcol);
      eexists; (split; [vm_compute; reflexivity | reflexivity]).
  - intros g ms Hin. apply list_elem_of_singleton in Hin as [= -> ->].
    vm_compute. reflexivity.
Defined.

(** * Further properties of the grouping and of the aggregation *)

(** ** Grouping: the order of the input, and no label configured *)

(** X1. The names are sorted before anything else, so that the groups do not
    depend on the order in which the names are given. *)
Theorem group_samples_names_order_independent
        (anchor : string) (config : Config) (samples samples' : list string) :
  samples ≡ₚ samples' ->
  group_samples_names anchor config samples = group_samples_names anchor config samples'.
Proof.
  intros Hperm. unfold group_samples_names.
  assert (Hsort : merge_sort String.le samples = merge_sort String.le samples').
  { apply (Sorted_unique String.le).
    - apply Sorted_merge_sort. apply _.
    - apply Sorted_merge_sort. apply _.
    - by rewrite !merge_sort_Permutation. }
  by rewrite Hsort.
Qed.

Lemma group_samples_names_order_independent_witness :
  group_samples_names "bowtie2" paired_config ["s_R2"; "u"; "s_R1"]
  = group_samples_names "bowtie2" paired_config ["u"; "s_R1"; "s_R2"].
Proof.
  apply group_samples_names_order_independent.
  apply (Permutation_trans (l' := ["u"; "s_R2"; "s_R1"])).
  - apply perm_swap.
  - apply perm_skip, perm_swap.
Defined.

Lemma odict_append_fresh {K A : Type} `{EqDecision K} (k : K) (x : A)
      (d : list (K * list A)) :
  k ∉ odict_keys d -> odict_append k x d = d ++ [(k, [x])].
Proof.
  intros Hk. unfold odict_append.
  assert (Hnone : odict_get k d = None).
  { destruct (odict_get k d) as [l|] eqn:E; [|done].
    apply odict_get_Some in E. exfalso. apply Hk.
    unfold odict_keys. apply list_elem_of_fmap. by exists (k, l). }
  rewrite Hnone. simpl. clear Hnone.
  induction d as [|[k0 v0] d IH]; simpl; [done|].
  unfold odict_keys in Hk. simpl in Hk. apply not_elem_of_cons in Hk as [Hne Hk].
  rewrite bool_decide_eq_false_2 by congruence. f_equal. by apply IH.
Qed.

Lemma odict_append_last {K A : Type} `{EqDecision K} (k : K) (x : A)
      (d : list (K * list A)) (l : list A) :
  k ∉ odict_keys d -> odict_append k x (d ++ [(k, l)]) = d ++ [(k, l ++ [x])].
Proof.
  intros Hk. unfold odict_append.
  assert (Hget : odict_get k (d ++ [(k, l)]) = Some l).
  { unfold odict_get, odict_keys in *.
    induction d as [|[k0 v0] d IH]; simpl.
    - by rewrite bool_decide_eq_true_2.
    - simpl in Hk. apply not_elem_of_cons in Hk as [Hne Hk].
      rewrite bool_decide_eq_false_2 by (simpl; congruence). by apply IH. }
  rewrite Hget. simpl. clear Hget.
  induction d as [|[k0 v0] d IH]; simpl.
  - by rewrite bool_decide_eq_true_2.
  - unfold odict_keys in Hk. simpl in Hk. apply not_elem_of_cons in Hk as [Hne Hk].
    rewrite bool_decide_eq_false_2 by congruence. f_equal. by apply IH.
Qed.

Section NoMergeGroups.

Variable anchor : string.
Variable config : Config.
Hypothesis no_groups : generalstats_sample_merge_groups config = [].

Lemma groups_for_sample_trivial (s_name : string) :
  groups_for_sample anchor config s_name = Ok (s_name, None).
Proof. unfold groups_for_sample. by rewrite no_groups. Qed.

(** With no label configured the first loop files every name under [None]. *)
Lemma group_by_label_trivial (l : list string) (filed : list (string * string))
      (acc : list (option string * list (string * string))) :
  acc = match filed with [] => [] | _ => [(None, filed)] end ->
  for_each (fun d original_name =>
              '(group_name, label) ← groups_for_sample anchor config original_name;
              Ok (odict_append label (group_name, original_name) d)) l acc
  = Ok (match filed ++ List.map (fun s => (s, s)) l with
        | [] => []
        | all => [(None, all)]
        end).
Proof.
  revert filed acc; induction l as [|s l IH]; intros filed acc ->; simpl.
  - rewrite app_nil_r. by destruct filed.
  - rewrite groups_for_sample_trivial. simpl.
    rewrite (IH (filed ++ [(s, s)])).
    + by rewrite <- app_assoc.
    + destruct filed as [|p filed]; reflexivity.
Qed.

(** Names that differ are filed each in a group of their own. *)
Lemma regroup_distinct (l : list string) (d : list (string * list (option string * string))) :
  NoDup l -> (forall s, s ∈ l -> s ∉ odict_keys d) ->
  List.fold_left
    (fun d '(group_name, original_name) =>
       odict_append group_name (@None string, original_name) d)
    (List.map (fun s => (s, s)) l) d
  = d ++ List.map (fun s => (s, [(None, s)])) l.
Proof.
  revert d; induction l as [|s l IH]; intros d Hnd Hfresh; simpl.
  - by rewrite app_nil_r.
  - apply NoDup_cons in Hnd as [Hs Hnd].
    rewrite odict_append_fresh by (apply Hfresh; left).
    rewrite IH; [by rewrite <- app_assoc | done |].
    intros s' Hs'. unfold odict_keys. rewrite List.map_app. simpl.
    rewrite elem_of_app, list_elem_of_singleton.
    intros [Hin | ->]; [|done].
    by apply (Hfresh s'); [right|].
Qed.

(** The groups when no label is configured. *)
Lemma no_merge_groups_singletons (samples : list string) :
  NoDup samples ->
  group_samples_names anchor config samples
  = Ok (List.map (fun s => (s, [(None, s, s) : member])) (merge_sort String.le samples)).
Proof.
  intros Hnd. unfold group_samples_names.
  rewrite (group_by_label_trivial _ [] []) by done. simpl.
  assert (Hsorted : NoDup (merge_sort String.le samples))
    by (by rewrite merge_sort_Permutation).
  destruct (merge_sort String.le samples) as [|s l]; [reflexivity|].
  remember (s :: l) as sorted eqn:E.
  assert (Hbuckets : forall grp : list (string * string),
             grp <> [] ->
             match grp with [] => [] | p :: l0 => [(@None string, p :: l0)] end = [(None, grp)])
    by (by intros [|p grp]).
  rewrite Hbuckets by (subst sorted; discriminate).
  cbn [List.fold_left].
  rewrite regroup_distinct; [| done | intros ? _; apply not_elem_of_nil].
  cbn [app]. rewrite List.map_map. reflexivity.
Qed.

(** X2. Without [generalstats_sample_merge_groups] every sample is a group of
    its own: the groups are the sorted names, each with itself as only
    member, shown under its name and without label. *)
Theorem group_samples_names_no_merge_groups (samples : list string) :
  NoDup samples ->
  group_samples_names anchor config samples
  = Ok (List.map (fun s => (s, [(None, s, s) : member])) (merge_sort String.le samples)).
Proof. apply no_merge_groups_singletons. Qed.

End NoMergeGroups.

Lemma group_samples_names_no_merge_groups_witness :
  group_samples_names "bowtie2" fastq_config ["b.fastq"; "a.fastq"]
  = Ok [("a.fastq", [(None, "a.fastq", "a.fastq") : member]);
        ("b.fastq", [(None, "b.fastq", "b.fastq") : member])].
Proof.
  apply (group_samples_names_no_merge_groups "bowtie2" fastq_config eq_refl
           ["b.fastq"; "a.fastq"]).
  apply (bool_decide_unpack _). vm_compute. reflexivity.
Defined.

(** X3. The groups that are returned form a dict of lists that are not empty:
    no two groups have the same name and every group has a member, so that
    the test for an empty group in [group_samples_and_average_metrics] never
    holds. A group with one member shows it under the name of the group, a
    larger group shows each member under that name followed by the label
    between brackets. *)
Theorem group_samples_names_groups
        (anchor : string) (config : Config) (samples : list string)
        (groups : list (string * list member)) :
  group_samples_names anchor config samples = Ok groups ->
  NoDup (odict_keys groups)
  /\ forall g ms, (g, ms) ∈ groups ->
       ms <> [] /\
       forall label s_name original_name,
         (label, s_name, original_name) ∈ ms ->
         original_name ∈ samples
         /\ s_name = match ms with
                     | [_] => g
                     | _ => (g ++ " (" ++ label_str label ++ ")")%string
                     end.
Proof.
  intros H.
  destruct (group_samples_names_members _ _ _ _ H) as (Hnd & _ & Hgroups).
  pose proof (group_originals_Permutation _ _ _ _ H) as Hperm.
  split; [done|]. intros g ms Hin. destruct (Hgroups g ms Hin) as [Hne Hnames].
  split; [done|]. intros label s_name original_name Hm. split.
  - rewrite <- Hperm. unfold group_originals. apply list_elem_of_fmap.
    exists (g, (label, s_name, original_name)). split; [done|]. unfold odict_items.
    apply list_elem_of_In, List.in_flat_map. exists (g, ms).
    split; [by apply list_elem_of_In|]. apply List.in_map. by apply list_elem_of_In.
  - pose proof (Hnames _ Hm) as Hname. simpl in Hname. rewrite Hname.
    by destruct ms as [|m1 [|m2 ms]].
Qed.

Lemma group_samples_names_groups_witness :
  let groups : list (string * list member) :=
    [("s", [(Some "R1", "s (R1)", "s_R1"); (Some "R2", "s (R2)", "s_R2")]);
     ("u", [(None, "u", "u")])] in
  NoDup (odict_keys groups)
  /\ forall g ms, (g, ms) ∈ groups ->
       ms <> [] /\
       forall label s_name original_name,
         (label, s_name, original_name) ∈ ms ->
         original_name ∈ ["u"; "s_R2"; "s_R1"]
         /\ s_name = match ms with
                     | [_] => g
                     | _ => (g ++ " (" ++ label_str label ++ ")")%string
                     end.
Proof.
  apply (group_samples_names_groups "bowtie2" paired_config ["u"; "s_R2"; "s_R1"]).
  vm_compute. reflexivity.
Defined.

(** ** The columns of a merged row *)

Section MergedRow.

Variable data_by_sample : gmap string (gmap string value).
Variable grouping_config : SampleGroupingConfig.
Variable labels_s_names : list member.



End MergedRow.


(** ** The exceptions of the aggregation *)

(** Splitting a hypothesis [bind = Raise _] in its cases. *)
Ltac inv_raise H :=
  let x := fresh "x" in
  let Hx := fresh "Hx" in
  apply bind_Raise in H; destruct H as [H | (x & Hx & H)].

Lemma float_of_int_Raise (z : Z) (e : exn) :
  float_of_int z = Raise e -> e = OverflowError.
Proof. unfold float_of_int. destruct (PrimFloat.is_infinity _); congruence. Qed.

Lemma to_float_Raise (v : value) (e : exn) :
  is_number v = true -> to_float v = Raise e -> e = OverflowError.
Proof.
  intros Hnum H. destruct v; simpl in *; try discriminate.
  by apply float_of_int_Raise in H.
Qed.

Lemma num_add_Raise (a b : num) (e : exn) : num_add a b = Raise e -> e = OverflowError.
Proof.
  destruct a, b; simpl; intros H; try discriminate;
    inv_raise H; try discriminate; by apply float_of_int_Raise in H.
Qed.

Lemma py_sum_Raise (terms : list num) (e : exn) : py_sum terms = Raise e -> e = OverflowError.
Proof.
  unfold py_sum. intros H. apply for_each_Raise in H as (s & a & _ & H).
  by apply num_add_Raise in H.
Qed.

(** A division by a number that is not zero does not raise
    [ZeroDivisionError]. *)
Lemma num_truediv_Raise (a b : num) (e : exn) :
  num_is_zero b = false -> num_truediv a b = Raise e -> e = OverflowError.
Proof.
  unfold num_truediv. intros -> H.
  inv_raise H; [by destruct a; [apply float_of_int_Raise in H | discriminate]|].
  inv_raise H; [by destruct b; [apply float_of_int_Raise in H | discriminate]|].
  discriminate.
Qed.

Section Exceptions.

Variable data_by_sample : gmap string (gmap string value).
Variable grouping_config : SampleGroupingConfig.

Lemma cell_Raise (s_name col : string) (e : exn) :
  cell data_by_sample s_name col = Raise e -> data_error e.
Proof.
  unfold cell. destruct (data_by_sample !! s_name) as [row|]; [|intros [= <-]; right; eauto].
  destruct (row !! col); [discriminate | intros [= <-]; right; eauto].
Qed.

Lemma plain_term_Raise (col : string) (m : member) (e : exn) :
  plain_term data_by_sample col m = Raise e -> data_error e.
Proof.
  unfold plain_term. intros H. inv_raise H; [by apply cell_Raise in H|].
  destruct (is_number x) eqn:Hnum; [|discriminate].
  inv_raise H; [|discriminate]. left. by apply to_float_Raise in H.
Qed.

Lemma weighted_term_Raise (col weight_col : string) (m : member) (e : exn) :
  weighted_term data_by_sample col weight_col m = Raise e -> data_error e.
Proof.
  unfold weighted_term. intros H. inv_raise H; [by apply cell_Raise in H|].
  destruct (is_number x) eqn:Hnum; [|discriminate].
  inv_raise H; [by apply cell_Raise in H|].
  destruct (is_number x0) eqn:Hnum0; [|discriminate].
  inv_raise H; [left; by apply to_float_Raise in H|].
  inv_raise H; [left; by apply to_float_Raise in H | discriminate].
Qed.

Lemma weight_sums_Raise (labels_s_names : list member) (e : exn) :
  weight_sums data_by_sample grouping_config labels_s_names = Raise e -> data_error e.
Proof.
  unfold weight_sums. intros H.
  apply for_each_Raise in H as (d & col & _ & H). unfold add_weights in H.
  apply for_each_Raise in H as (d' & m & _ & H).
  inv_raise H; [by apply cell_Raise in H|].
  destruct (is_number x) eqn:Hnum; [|discriminate].
  destruct (odict_get col d'); [|injection H as <-; right; eauto].
  inv_raise H; [left; by apply to_float_Raise in H|].
  inv_raise H; [left; by apply num_add_Raise in H | discriminate].
Qed.

Lemma weighted_value_Raise (labels_s_names : list member)
      (sum_by_col : list (string * num)) (col weight_col : string) (e : exn) :
  weighted_value data_by_sample labels_s_names sum_by_col col weight_col = Raise e ->
  data_error e.
Proof.
  unfold weighted_value. intros H.
  destruct (odict_get weight_col sum_by_col) as [weight|];
    [|injection H as <-; right; eauto].
  destruct (num_gt0 weight) eqn:Hgt; [|discriminate].
  inv_raise H.
  { apply map_result_Raise in H as (m & _ & H). by apply weighted_term_Raise in H. }
  inv_raise H; [left; by apply py_sum_Raise in H|].
  inv_raise H; [|discriminate].
  left. apply num_truediv_Raise in H; [done | by apply num_gt0_not_zero].
Qed.

Lemma average_value_Raise (labels_s_names : list member) (col : string) (e : exn) :
  labels_s_names <> [] ->
  average_value data_by_sample labels_s_names col = Raise e -> data_error e.
Proof.
  unfold average_value. intros Hne H.
  inv_raise H.
  { apply map_result_Raise in H as (m & _ & H). by apply plain_term_Raise in H. }
  inv_raise H; [left; by apply py_sum_Raise in H|].
  inv_raise H; [|discriminate].
  left. apply num_truediv_Raise in H; [done|].
  simpl. apply Z.eqb_neq. destruct labels_s_names; [done | simpl; lia].
Qed.

Lemma sum_value_Raise (labels_s_names : list member)
      (sum_by_col : list (string * num)) (col : string) (e : exn) :
  sum_value data_by_sample labels_s_names sum_by_col col = Raise e -> data_error e.
Proof.
  unfold sum_value. intros H.
  destruct (odict_get col sum_by_col); [discriminate|].
  inv_raise H.
  { apply map_result_Raise in H as (m & _ & H). by apply plain_term_Raise in H. }
  inv_raise H; [left; by apply py_sum_Raise in H | discriminate].
Qed.

Lemma merged_data_Raise (labels_s_names : list member) (e : exn) :
  labels_s_names <> [] ->
  merged_data data_by_sample grouping_config labels_s_names = Raise e -> data_error e.
Proof.
  unfold merged_data. intros Hne H.
  inv_raise H; [by apply weight_sums_Raise in H|].
  inv_raise H.
  { apply for_each_Raise in H as (merged & [c w] & _ & H).
    unfold weighted_average_step in H. inv_raise H; [|discriminate].
    by apply weighted_value_Raise in H. }
  inv_raise H.
  { apply for_each_Raise in H as (merged & c & _ & H).
    unfold average_step in H. inv_raise H; [|discriminate].
    by apply average_value_Raise in H. }
  apply for_each_Raise in H as (merged & c & _ & H).
  unfold sum_step in H. inv_raise H; [|discriminate].
  by apply sum_value_Raise in H.
Qed.

Lemma row_of_Raise (s_name : string) (e : exn) :
  row_of data_by_sample s_name = Raise e -> data_error e.
Proof.
  unfold row_of. destruct (data_by_sample !! s_name); [discriminate|].
  intros [= <-]. right. eauto.
Qed.

(** The exception of a group comes from the data when no extra function
    is given: a group is never divided by zero members or by a sum of
    weights that is zero, and [float()] is never given a value that is not
    a number. *)
Lemma group_step_Raise (rows : list (string * list InputRowT))
      (group : string * list member) (e : exn) :
  listed (extra_functions grouping_config) = [] ->
  group_step data_by_sample grouping_config rows group = Raise e -> data_error e.
Proof.
  destruct group as [g ms]. intros Hextra H.
  destruct ms as [|m1 [|m2 ms]].
  - discriminate.
  - destruct m1 as [[label s_name] original]. simpl in H.
    inv_raise H; [|discriminate].
    inv_raise H; [by apply row_of_Raise in H | discriminate].
  - rewrite group_step_several in H by (simpl; lia).
    rewrite group_rows_several in H by (simpl; lia).
    inv_raise H; [|discriminate].
    inv_raise H; [by apply merged_data_Raise in H|].
    rewrite Hextra in H. simpl in H.
    inv_raise H; [|discriminate].
    apply map_result_Raise in H as (m & _ & H).
    inv_raise H; [by apply row_of_Raise in H | discriminate].
Qed.

End Exceptions.

(** X5. Once the names are grouped and when no extra function is given, the
    aggregation raises nothing but [KeyError] and [OverflowError]: neither
    [ZeroDivisionError], whatever the weights and the sizes of the groups,
    nor [TypeError], whatever the values. *)
Theorem aggregation_raises_data_errors
        (anchor : string) (config : Config)
        (data_by_sample : gmap string (gmap string value))
        (grouping_config : SampleGroupingConfig)
        (groups : list (string * list member)) (e : exn) :
  group_samples_names anchor config (elements (dom data_by_sample)) = Ok groups ->
  listed (extra_functions grouping_config) = [] ->
  group_samples_and_average_metrics anchor config data_by_sample grouping_config = Raise e ->
  data_error e.
Proof.
  intros Hgroups Hextra H. unfold group_samples_and_average_metrics in H.
  rewrite Hgroups in H. simpl in H.
  apply for_each_Raise in H as (rows & group & _ & H).
  by apply group_step_Raise in H.
Qed.

Lemma aggregation_raises_data_errors_witness : data_error (KeyError "reads").
Proof.
  apply (aggregation_raises_data_errors "bowtie2" reads_config partial_data coverage_policy
           [("s", coverage_members)]).
  - vm_compute. reflexivity.
  - reflexivity.
  - vm_compute. reflexivity.
Defined.

(** ** Cleaning a name: spaces, truncation, exact replacement, the root *)

Lemma rstrip_idempotent (s : string) : Py.rstrip (Py.rstrip s) = Py.rstrip s.
Proof.
  induction s as [|c s IH]; [reflexivity|]. cbn [Py.rstrip].
  destruct (Py.rstrip s) as [|c' r] eqn:E.
  - destruct (Py.isspace c) eqn:Hc; [reflexivity|]. simpl. by rewrite Hc.
  - cbn [Py.rstrip]. cbn [Py.rstrip] in IH. by rewrite IH.
Qed.

(** What [lstrip] leaves does not start with a space. *)
Lemma lstrip_head (s : string) :
  Py.lstrip s = "" \/ exists c t, Py.lstrip s = String c t /\ Py.isspace c = false.
Proof.
  induction s as [|c s IH]; [by left|]. simpl.
  destruct (Py.isspace c) eqn:Hc; [exact IH | right; eauto].
Qed.

Lemma strip_idempotent (s : string) : Py.strip (Py.strip s) = Py.strip s.
Proof.
  unfold Py.strip.
  assert (Hl : Py.lstrip (Py.rstrip (Py.lstrip s)) = Py.rstrip (Py.lstrip s)).
  { destruct (lstrip_head s) as [-> | (c & t & -> & Hc)]; [reflexivity|].
    cbn [Py.rstrip]. destruct (Py.rstrip t); rewrite ?Hc; simpl; by rewrite Hc. }
  rewrite Hl. apply rstrip_idempotent.
Qed.

(** X8. Without replacement rules, the name [clean_s_name] returns for one name
    has no space at its ends, unless it is the name that was given: the
    working name is stripped last, and only an empty one is given up. *)
Theorem clean_s_name_stripped
        (anchor : string) (config : Config) (f : f_arg)
        (root filename search_pattern_key : option string)
        (fn_clean_exts_arg : option (list CleanPatternT))
        (fn_clean_trim_arg : option (list string)) (prepend_dirs_arg : option bool)
        (s_name cleaned : string) :
  sample_names_replace config = [] ->
  clean_s_name anchor config (SName s_name) f root filename search_pattern_key
    fn_clean_exts_arg fn_clean_trim_arg prepend_dirs_arg = Ok cleaned ->
  cleaned = s_name \/ (cleaned <> "" /\ Py.strip cleaned = cleaned).
Proof.
  intros Hrules H. unfold clean_s_name, clean_one in H. rewrite Hrules in H.
  apply bind_Ok in H as (trimmed & Ht & H). simpl in H. injection H as <-.
  unfold trim_s_name in Ht. apply bind_Ok in Ht as (working & Hw & [= <-]).
  unfold stripped_s_name in Hw. apply bind_Ok in Hw as (t & _ & [= <-]).
  destruct (String.eqb (Py.strip t) "") eqn:E; [by left|].
  right. split; [by apply String.eqb_neq | apply strip_idempotent].
Qed.

Lemma clean_s_name_stripped_witness :
  "sample" = " sample .fastq" \/ ("sample" <> "" /\ Py.strip "sample" = "sample").
Proof.
  apply (clean_s_name_stripped "bowtie2" fastq_config FNone None None None None None None
           " sample .fastq" "sample"); reflexivity.
Defined.

(** *** Truncation *)

Lemma append_empty_r (s : string) : (s ++ "")%string = s.
Proof.
  induction s as [|c s IH]; [reflexivity|].
  change (String c (s ++ "")%string = String c s). by rewrite IH.
Qed.

Lemma prefix_app (p a b : string) :
  String.prefix p a = true -> String.prefix p (a ++ b) = true.
Proof.
  revert a; induction p as [|c p IH]; intros [|c' a]; simpl; try done.
  - by destruct b.
  - destruct (Ascii.ascii_dec c c'); [apply IH | done].
Qed.

(** The text before the first occurrence starts the name. *)
Lemma before_first_prefix (sep s : string) :
  exists rest, s = (Py.before_first sep s ++ rest)%string
               /\ (Py.contains sep s = true -> String.prefix sep rest = true)
               /\ (Py.contains sep s = false -> rest = "").
Proof.
  induction s as [|c s (rest & Hs & Hin & Hout)].
  - exists "". cbn [Py.before_first Py.contains]. rewrite orb_false_r. done.
  - cbn [Py.before_first Py.contains].
    destruct (String.prefix sep (String c s)) eqn:Hpre.
    + exists (String c s). split; [reflexivity|].
      split; [intros _; exact Hpre | intros H; discriminate H].
    + exists rest. rewrite !orb_false_l.
      split; [|done].
      change (String c s = String c (Py.before_first sep s ++ rest)%string). congruence.
Qed.

Lemma before_first_free (sep s : string) :
  sep <> "" -> Py.contains sep (Py.before_first sep s) = false.
Proof.
  intros Hsep.
  assert (Hempty : Py.contains sep "" = false) by (by destruct sep).
  induction s as [|c s IH]; [exact Hempty|].
  cbn [Py.before_first].
  destruct (String.prefix sep (String c s)) eqn:Hpre; [exact Hempty|].
  cbn [Py.contains]. rewrite IH, orb_false_r.
  destruct (String.prefix sep (String c (Py.before_first sep s))) eqn:Hpre'; [|done].
  destruct (before_first_prefix sep s) as (rest & Hs & _).
  apply (prefix_app _ _ rest) in Hpre'.
  change (String.prefix sep (String c (Py.before_first sep s ++ rest)%string) = true)
    in Hpre'.
  rewrite <- Hs in Hpre'. congruence.
Qed.

(** X9. A bare string among the cleaning patterns truncates the name at the
    first occurrence of the string: what is returned starts the name, is
    followed there by the string when the name holds it, is the whole name
    when it does not, and holds the string nowhere. *)
Theorem truncate_at_first_occurrence (anchor name pattern : string) :
  pattern <> "" ->
  exists kept rest,
    apply_ext anchor name (ExtStr pattern) = Ok kept
    /\ name = (kept ++ rest)%string
    /\ Py.contains pattern kept = false
    /\ (Py.contains pattern name = true -> String.prefix pattern rest = true)
    /\ (Py.contains pattern name = false -> kept = name).
Proof.
  intros Hne.
  destruct (before_first_prefix pattern name) as (rest & Hname & Hin & Hout).
  exists (Py.before_first pattern name), rest.
  split; [|split; [done|split; [by apply before_first_free|split; [done|]]]].
  - unfold apply_ext, skipped_for_module. simpl. by destruct pattern.
  - intros Hc. rewrite (Hout Hc), append_empty_r in Hname. done.
Qed.

Lemma truncate_at_first_occurrence_witness :
  exists kept rest,
    apply_ext "bowtie2" "s1.fastq.fastq" (ExtStr ".fastq") = Ok kept
    /\ "s1.fastq.fastq" = (kept ++ rest)%string
    /\ Py.contains ".fastq" kept = false
    /\ (Py.contains ".fastq" "s1.fastq.fastq" = true -> String.prefix ".fastq" rest = true)
    /\ (Py.contains ".fastq" "s1.fastq.fastq" = false -> kept = "s1.fastq.fastq").
Proof.
  apply (truncate_at_first_occurrence "bowtie2" "s1.fastq.fastq" ".fastq"). discriminate.
Defined.

(** *** Exact replacement *)

Lemma prefix_refl (s : string) : String.prefix s s = true.
Proof.
  induction s as [|c s IH]; [reflexivity|]. simpl.
  by destruct (Ascii.ascii_dec c c).
Qed.

Lemma drop_all (s : string) : Py.drop (String.length s) s = "".
Proof. induction s as [|c s IH]; [reflexivity | exact IH]. Qed.

(** [s.replace(s, new)] is [new]. *)
Lemma replace_whole (s new : string) : Py.replace s s new = new.
Proof.
  unfold Py.replace. destruct s as [|c t] eqn:E; [reflexivity|]. rewrite <- E.
  rewrite replace_go_at_match; [| by rewrite E | apply prefix_refl].
  rewrite drop_all. destruct s; [done|]. apply append_empty_r.
Qed.

(** X10. With [sample_names_replace_exact] and without
    [sample_names_replace_regex], a rule changes the name that is its
    search string, which becomes the replacement, and no other name,
    whether [sample_names_replace_complete] is set or not. *)
Theorem exact_replacement (config : Config) (name search replacement : string) :
  sample_names_replace_exact config = true ->
  sample_names_replace_regex config = false ->
  apply_replace config name (search, replacement)
  = Ok (if String.eqb name search then replacement else name).
Proof.
  intros Hexact Hregex. unfold apply_replace, replace_body.
  rewrite Hexact, Hregex. simpl.
  destruct (String.eqb name search) eqn:E; simpl; [|reflexivity].
  apply String.eqb_eq in E as ->.
  destruct (sample_names_replace_complete config).
  - destruct search as [|c s]; [reflexivity|].
    cbn [Py.contains]. by rewrite prefix_refl.
  - by rewrite replace_whole.
Qed.

Lemma exact_replacement_witness :
  let config :=
    {| use_filename_as_sample_name := UseFnBool false;
       fn_clean_sample_names := true;
       fn_clean_exts := [];
       fn_clean_trim := [];
       prepend_dirs := false;
       prepend_dirs_sep := " | ";
       prepend_dirs_depth := 0;
       sample_names_replace := [("s1", "control")];
       sample_names_replace_exact := true;
       sample_names_replace_regex := false;
       sample_names_replace_complete := false;
       generalstats_sample_merge_groups := [] |} in
  apply_replace config "s10" ("s1", "control")
  = Ok (if String.eqb "s10" "s1" then "control" else "s10").
Proof.
  intros config. apply (exact_replacement config "s10" "s1" "control"); reflexivity.
Defined.


(** ** Samples to ignore *)

Lemma existsb_ext {A : Type} (f g : A -> bool) (l : list A) :
  (forall a, f a = g a) -> List.existsb f l = List.existsb g l.
Proof. intros Hfg. induction l as [|a l IH]; simpl; [done | by rewrite Hfg, IH]. Qed.

Lemma py_any_Ok {A : Type} (p : A -> bool) (l : list A) :
  py_any (fun a => Ok (p a)) l = Ok (List.existsb p l).
Proof.
  induction l as [|a l IH]; [reflexivity|]. simpl. by destruct (p a).
Qed.

(** The elements after the first that holds are not read. *)
Lemma py_any_app {A : Type} (p : A -> result bool) (pre l : list A) :
  (forall a, a ∈ pre -> p a = Ok false) -> py_any p (pre ++ l) = py_any p l.
Proof.
  induction pre as [|a pre IH]; intros Hpre; [reflexivity|]. simpl.
  rewrite (Hpre a) by left. simpl. apply IH. intros b Hb. apply Hpre. by right.
Qed.

Lemma py_any_existsb {A : Type} (p : A -> result bool) (l : list A) :
  (forall a, a ∈ l -> is_ok (p a) = true) ->
  py_any p l
  = Ok (List.existsb (fun a => match p a with Ok b => b | Raise _ => false end) l).
Proof.
  induction l as [|a l IH]; intros Hl; [reflexivity|]. simpl.
  pose proof (Hl a (list_elem_of_here _ _)) as Ha.
  destruct (p a) as [[|]|e]; simpl; [done | | done].
  apply IH. intros b Hb. apply Hl. by right.
Qed.

Lemma py_any_Raise {A : Type} (p : A -> result bool) (l : list A) (e : exn) :
  py_any p l = Raise e -> exists a, a ∈ l /\ p a = Raise e.
Proof.
  induction l as [|a l IH]; simpl; [discriminate|]. intros H.
  apply bind_Raise in H as [H | (b & Hb & H)].
  - exists a. split; [left | done].
  - destruct b; [discriminate|]. destruct (IH H) as (a' & Ha' & He).
    exists a'. split; [by right | done].
Qed.

Lemma re_match_Raise (pattern s : string) (e : exn) :
  re_match pattern s = Raise e -> re_raised e /\ Re.compile pattern = Raise e.
Proof.
  unfold re_match. intros H. apply bind_Raise in H as [H | (r & _ & H)]; [|discriminate].
  split; [by apply compile_Raise in H | done].
Qed.

Section IgnoreFacts.

Variable fnmatch : string -> string -> bool.
Variable config : IgnoreConfig.
Variable sample_names_ignore_arg sample_names_ignore_re_arg : option (list string).

(** The patterns in force: those of the call, or those of the
    configuration when the call gives none. *)
#[local] Abbreviation globs := (or_config sample_names_ignore_arg (sample_names_ignore config)).
#[local] Abbreviation regexes :=
  (or_config sample_names_ignore_re_arg (sample_names_ignore_re config)).

(** X12. When the regular expressions in force compile, a name is ignored
    exactly when a glob pattern matches it or a regular expression matches
    at its start; a list of the call that is empty stands for the list of
    the configuration. *)
Theorem is_ignore_sample_matches (s_name : string) :
  (forall sn, sn ∈ regexes -> is_ok (Re.compile sn) = true) ->
  is_ignore_sample fnmatch config s_name sample_names_ignore_arg sample_names_ignore_re_arg
  = Ok (List.existsb (fnmatch s_name) globs
        || List.existsb
             (fun sn => match Re.compile sn with
                        | Ok r => bool_decide (is_Some (Re.rmatch r 0 s_name
                                                          (fun _ _ => Some tt)))
                        | Raise _ => false
                        end) regexes).
Proof.
  intros Hok. unfold is_ignore_sample. rewrite py_any_Ok. simpl.
  rewrite py_any_existsb.
  - simpl. do 2 f_equal. apply existsb_ext. intros sn. unfold re_match.
    by destruct (Re.compile sn).
  - intros sn Hsn. specialize (Hok sn Hsn). unfold re_match.
    by destruct (Re.compile sn).
Qed.

(** X13. A regular expression that [re] refuses makes the call raise
    [re.error] when no regular expression before it matches the name, even
    when a glob pattern matches the name: the two lists are both gone
    through before the answer is made. *)
Theorem is_ignore_sample_raises (s_name : string) (pre post : list string) (sn : string) :
  regexes = pre ++ sn :: post ->
  (forall p, p ∈ pre -> re_match p s_name = Ok false) ->
  Re.compile sn = Raise ReError ->
  is_ignore_sample fnmatch config s_name sample_names_ignore_arg sample_names_ignore_re_arg
  = Raise ReError.
Proof.
  intros Hre Hpre Hsn. unfold is_ignore_sample. rewrite py_any_Ok. simpl.
  assert (Hraise : re_match sn s_name = Raise ReError).
  { unfold re_match. by rewrite Hsn. }
  rewrite Hre, py_any_app by done. simpl. by rewrite Hraise.
Qed.

(** X14. A regular expression that matches hides those after it, which are not
    compiled: the name is ignored whatever they are. *)
Theorem is_ignore_sample_first_match (s_name : string) (pre post : list string)
        (sn : string) :
  regexes = pre ++ sn :: post ->
  (forall p, p ∈ pre -> re_match p s_name = Ok false) ->
  re_match sn s_name = Ok true ->
  is_ignore_sample fnmatch config s_name sample_names_ignore_arg sample_names_ignore_re_arg
  = Ok true.
Proof.
  intros Hre Hpre Hsn. unfold is_ignore_sample. rewrite py_any_Ok. simpl.
  rewrite Hre, py_any_app by done. simpl. rewrite Hsn. simpl. by rewrite orb_true_r.
Qed.

(** [is_ignore_sample] raises what [re] raises only. *)
Lemma is_ignore_sample_Raise (s_name : string) (e : exn) :
  is_ignore_sample fnmatch config s_name sample_names_ignore_arg sample_names_ignore_re_arg
  = Raise e -> re_raised e.
Proof.
  unfold is_ignore_sample. rewrite py_any_Ok. simpl. intros H.
  apply bind_Raise in H as [H | (b & _ & H)]; [|discriminate].
  apply py_any_Raise in H as (sn & _ & H). by apply re_match_Raise in H as [H _].
Qed.

End IgnoreFacts.

Lemma odict_set_fresh {K V : Type} `{EqDecision K} (k : K) (v : V) (d : list (K * V)) :
  k ∉ odict_keys d -> odict_set k v d = d ++ [(k, v)].
Proof.
  induction d as [|[k' v'] d IH]; simpl; intros Hk; [done|].
  unfold odict_keys in Hk. simpl in Hk. apply not_elem_of_cons in Hk as [Hne Hk].
  rewrite bool_decide_eq_false_2 by congruence. f_equal. by apply IH.
Qed.

Section IgnoreSamples.

Variable fnmatch : string -> string -> bool.
Variable config : IgnoreConfig.
Variable sample_names_ignore_arg sample_names_ignore_re_arg : option (list string).
Context {V O : Type}.

#[local] Abbreviation visit :=
  (fun (new_data : list (string * V)) '(s_name, v) =>
     ignored ← is_ignore_sample fnmatch config s_name sample_names_ignore_arg
                 sample_names_ignore_re_arg;
     if negb ignored then Ok (odict_set s_name v new_data) else Ok new_data).

#[local] Abbreviation kept :=
  (fun kv : string * V =>
     negb (ignored fnmatch config sample_names_ignore_arg sample_names_ignore_re_arg kv.1)).

(** The loop of [ignore_samples] over a dict. *)
Lemma ignore_loop (d acc acc' : list (string * V)) :
  NoDup (odict_keys acc ++ odict_keys d) ->
  for_each visit d acc = Ok acc' ->
  acc' = acc ++ List.filter kept d
  /\ forall kv, kv ∈ d ->
       is_ok (is_ignore_sample fnmatch config kv.1 sample_names_ignore_arg
                sample_names_ignore_re_arg) = true.
Proof.
  revert acc; induction d as [|[k v] d IH]; intros acc Hnd H.
  - simpl in H. injection H as <-. rewrite app_nil_r.
    split; [done | intros kv Hkv; by apply elem_of_nil in Hkv].
  - cbn [for_each] in H. inv_bind H. inv_bind Hx. rename x0 into b.
    assert (Hfresh : k ∉ odict_keys acc).
    { intros Hin. apply NoDup_app in Hnd as (_ & Hdis & _).
      apply (Hdis k Hin). left. }
    assert (Hnext : NoDup (odict_keys x ++ odict_keys d)).
    { destruct b; simpl in Hx; injection Hx as <-.
      - apply NoDup_app in Hnd as (Ha & Hdis & Hd).
        apply NoDup_cons in Hd as [_ Hd]. apply NoDup_app. split; [done|].
        split; [|done]. intros y Hy Hyd. apply (Hdis y Hy). by right.
      - rewrite odict_set_fresh by done. unfold odict_keys in *.
        rewrite List.map_app, <- app_assoc. exact Hnd. }
    destruct (IH _ Hnext H) as [-> Hok].
    unfold ignored. cbn [List.filter fst]. rewrite Hx0. split.
    + destruct b; simpl in Hx; injection Hx as <-; simpl; [done|].
      rewrite odict_set_fresh by done. by rewrite <- app_assoc.
    + intros kv Hkv. apply elem_of_cons in Hkv as [-> | Hkv]; [|by apply Hok].
      simpl. by rewrite Hx0.
Qed.

(** X15. From a dict whose keys differ, [ignore_samples] returns the entries
    whose name is not to be ignored, in the order they had. *)
Theorem ignore_samples_filter (d : list (string * V)) (out : sample_data V O) :
  NoDup (odict_keys d) ->
  ignore_samples fnmatch config (DataDict d) sample_names_ignore_arg
    sample_names_ignore_re_arg = Ok out ->
  out = DataDict (List.filter kept d).
Proof.
  intros Hnd H. unfold ignore_samples in H.
  destruct (for_each visit d []) as [new_data|e] eqn:E.
  - simpl in H. injection H as <-. by destruct (ignore_loop d [] new_data Hnd E) as [-> _].
  - apply for_each_Raise in E as (acc & [k v] & _ & E).
    apply bind_Raise in E as [E | (b & _ & E)]; [|by destruct b].
    apply is_ignore_sample_Raise in E as [-> | ->]; discriminate.
Qed.

(** The entries that were kept are kept again. *)
Lemma keep_loop (l acc : list (string * V)) :
  NoDup (odict_keys acc ++ odict_keys l) ->
  (forall kv, kv ∈ l ->
     is_ignore_sample fnmatch config kv.1 sample_names_ignore_arg
       sample_names_ignore_re_arg = Ok false) ->
  for_each visit l acc = Ok (acc ++ l).
Proof.
  revert acc; induction l as [|[k v] l IH]; intros acc Hnd Hl.
  - simpl. by rewrite app_nil_r.
  - cbn [for_each]. pose proof (Hl (k, v) (list_elem_of_here _ _)) as Hk.
    simpl in Hk. rewrite Hk. simpl.
    assert (Hfresh : k ∉ odict_keys acc).
    { intros Hin. apply NoDup_app in Hnd as (_ & Hdis & _).
      apply (Hdis k Hin). left. }
    rewrite odict_set_fresh by done. rewrite IH.
    + by rewrite <- app_assoc.
    + unfold odict_keys in *. rewrite List.map_app, <- app_assoc. exact Hnd.
    + intros kv Hkv. apply Hl. by right.
Qed.

(** X16. Ignoring samples a second time, with the same patterns, changes
    nothing. *)
Theorem ignore_samples_idempotent (data out : sample_data V O) :
  match data with DataDict d => NoDup (odict_keys d) | DataOther _ => True end ->
  ignore_samples fnmatch config data sample_names_ignore_arg
    sample_names_ignore_re_arg = Ok out ->
  ignore_samples fnmatch config out sample_names_ignore_arg
    sample_names_ignore_re_arg = Ok out.
Proof.
  destruct data as [d | x]; intros Hnd H; [|by injection H as <-].
  unfold ignore_samples in H.
  destruct (for_each visit d []) as [new_data|e] eqn:E.
  - simpl in H. injection H as <-.
    destruct (ignore_loop d [] new_data Hnd E) as [-> Hok].
    unfold ignore_samples. rewrite keep_loop; [done | |].
    + simpl. unfold odict_keys in *. clear -Hnd.
      induction d as [|[k v] d IH]; simpl; [constructor|].
      apply NoDup_cons in Hnd as [Hk Hnd].
      destruct (negb _); [|by apply IH]. simpl. apply NoDup_cons. split; [|by apply IH].
      intros Hin. apply Hk. apply list_elem_of_fmap in Hin as (kv & -> & Hin).
      apply list_elem_of_fmap. exists kv. split; [done|].
      apply list_elem_of_In in Hin. apply List.filter_In in Hin as [Hin _].
      by apply list_elem_of_In.
    + intros kv Hkv. simpl in Hkv. apply list_elem_of_In, List.filter_In in Hkv as [Hin Hkept].
      apply list_elem_of_In in Hin. specialize (Hok kv Hin). unfold ignored in Hkept.
      destruct (is_ignore_sample _ _ _ _ _) as [[|]|]; done.
  - apply for_each_Raise in E as (acc & [k v] & _ & E).
    apply bind_Raise in E as [E | (b & _ & E)]; [|by destruct b].
    apply is_ignore_sample_Raise in E as [-> | ->]; discriminate.
Qed.

End IgnoreSamples.

Lemma is_ignore_sample_matches_witness :
  is_ignore_sample fnmatch_plain ignore_b_c "c1" None (Some []) = Ok true.
Proof.
  apply (is_ignore_sample_matches fnmatch_plain ignore_b_c None (Some []) "c1").
  intros sn Hsn. apply list_elem_of_singleton in Hsn as ->. vm_compute. reflexivity.
Defined.

Lemma is_ignore_sample_raises_witness :
  is_ignore_sample fnmatch_plain ignore_b_c "b" None (Some ["a"; "("]) = Raise ReError.
Proof.
  apply (is_ignore_sample_raises fnmatch_plain ignore_b_c None (Some ["a"; "("]) "b"
           ["a"] [] "(").
  - reflexivity.
  - intros p Hp. apply list_elem_of_singleton in Hp as ->. vm_compute. reflexivity.
  - vm_compute. reflexivity.
Defined.

Lemma is_ignore_sample_first_match_witness :
  is_ignore_sample fnmatch_plain ignore_b_c "c1" None (Some ["a"; "^c"; "("]) = Ok true.
Proof.
  apply (is_ignore_sample_first_match fnmatch_plain ignore_b_c None
           (Some ["a"; "^c"; "("]) "c1" ["a"] ["("] "^c").
  - reflexivity.
  - intros p Hp. apply list_elem_of_singleton in Hp as ->. vm_compute. reflexivity.
  - vm_compute. reflexivity.
Defined.

Lemma ignore_samples_filter_witness :
  (DataDict [("a", 1%nat)] : sample_data nat unit)
  = DataDict (List.filter
                (fun kv : string * nat =>
                   negb (ignored fnmatch_plain ignore_b_c None None kv.1))
                three_samples).
Proof.
  apply (ignore_samples_filter fnmatch_plain ignore_b_c None None three_samples).
  - apply (bool_decide_unpack _). vm_compute. reflexivity.
  - vm_compute. reflexivity.
Defined.

Lemma ignore_samples_idempotent_witness :
  ignore_samples fnmatch_plain ignore_b_c (DataDict [("a", 1%nat)] : sample_data nat unit)
    None None
  = Ok (DataDict [("a", 1%nat)]).
Proof.
  apply (ignore_samples_idempotent fnmatch_plain ignore_b_c None None
           (DataDict three_samples)).
  - apply (bool_decide_unpack _). vm_compute. reflexivity.
  - vm_compute. reflexivity.
Defined.

(** ** Names of data files *)

Lemma append_length (a b : string) :
  String.length (a ++ b) = (String.length a + String.length b)%nat.
Proof. induction a as [|c a IH]; simpl; [done | by rewrite IH]. Qed.

Lemma append_cancel_l (a b c : string) : (a ++ b)%string = (a ++ c)%string -> b = c.
Proof. induction a as [|x a IH]; simpl; [done | intros [= H]; by apply IH]. Qed.

(** The names the loop goes through all differ. *)
Lemma candidate_inj (base_fn : string) : Inj (=) (=) (candidate base_fn).
Proof.
  intros [|i] [|j] H; simpl in H; [done | | |].
  - apply (f_equal String.length) in H. rewrite append_length in H. simpl in H. lia.
  - apply (f_equal String.length) in H. rewrite append_length in H. simpl in H. lia.
  - apply append_cancel_l in H. injection H as H. by apply pretty_nat_inj in H.
Qed.

(** A list holds no more names of the loop than it has elements. *)
Lemma candidates_bounded (base_fn : string) (saved : list string) (k : nat) :
  (forall j, (j < k)%nat -> candidate base_fn j ∈ saved) -> (k <= List.length saved)%nat.
Proof.
  intros Hin.
  assert (Hnd : NoDup (candidate base_fn <$> seq 0 k)).
  { apply NoDup_fmap_2; [apply candidate_inj | apply NoDup_seq]. }
  assert (Hsub : (candidate base_fn <$> seq 0 k) ⊆+ saved).
  { apply NoDup_submseteq; [done|]. intros x Hx.
    apply list_elem_of_fmap in Hx as (j & -> & Hj). apply Hin.
    apply elem_of_seq in Hj. lia. }
  apply submseteq_length in Hsub. by rewrite length_fmap, length_seq in Hsub.
Qed.

(** The loop from its [k]th name on. *)
Lemma unique_fn_from (saved : list string) (base_fn : string) (fuel k : nat) :
  (forall j, (j < k)%nat -> candidate base_fn j ∈ saved) ->
  (List.length saved < k + fuel)%nat ->
  exists i,
    unique_fn fuel saved base_fn (candidate base_fn k) (S k) = Some (candidate base_fn i)
    /\ (candidate base_fn i ∉ saved)
    /\ forall j, (j < i)%nat -> candidate base_fn j ∈ saved.
Proof.
  revert k; induction fuel as [|fuel IH]; intros k Hbefore Hfuel.
  - apply candidates_bounded in Hbefore. lia.
  - cbn [unique_fn]. destruct (decide (candidate base_fn k ∈ saved)) as [Hk | Hk].
    + rewrite bool_decide_eq_true_2 by done.
      apply (IH (S k)); [|lia]. intros j Hj.
      destruct (decide (j = k)) as [-> | Hne]; [done | apply Hbefore; lia].
    + rewrite bool_decide_eq_false_2 by done. eauto.
Qed.

(** X17. With more fuel than names are saved, the loop ends: on the first of
    the names [fn], [fn_1], [fn_2], ... that is not saved yet. *)
Theorem unique_fn_first_free (saved : list string) (fn : string) (fuel : nat) :
  (List.length saved < fuel)%nat ->
  exists i,
    unique_fn fuel saved fn fn 1 = Some (candidate fn i)
    /\ (candidate fn i ∉ saved)
    /\ forall j, (j < i)%nat -> candidate fn j ∈ saved.
Proof.
  intros Hfuel. apply (unique_fn_from saved fn fuel 0); [intros j Hj; lia | lia].
Qed.

Lemma unique_fn_first_free_witness :
  exists i,
    unique_fn 3 ["stats"; "stats_1"] "stats" "stats" 1 = Some (candidate "stats" i)
    /\ (candidate "stats" i ∉ ["stats"; "stats_1"])
    /\ forall j, (j < i)%nat -> candidate "stats" j ∈ ["stats"; "stats_1"].
Proof.
  apply (unique_fn_first_free ["stats"; "stats_1"] "stats" 3). simpl. lia.
Defined.

Lemma odict_set_length {K V : Type} `{EqDecision K} (k : K) (v : V) (d : list (K * V)) :
  (List.length (odict_set k v d) <= S (List.length d))%nat.
Proof.
  induction d as [|[k' v'] d IH]; simpl; [lia|].
  destruct (bool_decide (k' = k)); simpl; lia.
Qed.

Section WriteDataFile.

Context {D : Type}.
Variable cust_anchor : option string.

(** One call with [config.preserve_module_raw_data]. *)
Lemma write_data_file_step (fuel : nat) (st : RawData D)
        (data : D) (fn : string) (sort_cols : bool) (data_format : option string) :
  (List.length (report_saved_raw_data st) < fuel)%nat ->
  exists st' i,
    write_data_file cust_anchor true fuel st data fn sort_cols data_format = Some st'
    /\ (candidate (anchored_fn cust_anchor fn) i ∉ odict_keys (report_saved_raw_data st))
    /\ (forall j, (j < i)%nat ->
                  candidate (anchored_fn cust_anchor fn) j ∈ odict_keys (report_saved_raw_data st))
    /\ odict_get (candidate (anchored_fn cust_anchor fn) i) (report_saved_raw_data st') = Some data
    /\ (forall k v, odict_get k (report_saved_raw_data st) = Some v ->
                    odict_get k (report_saved_raw_data st') = Some v)
    /\ written st' = written st ++ [(data, candidate (anchored_fn cust_anchor fn) i, sort_cols, data_format)].
Proof.
  intros Hfuel.
  destruct (unique_fn_from (odict_keys (report_saved_raw_data st))
              (anchored_fn cust_anchor fn) fuel 0)
    as (i & Hi & Hfree & Hbefore);
    [intros j Hj; lia | unfold odict_keys; rewrite List.length_map; lia |].
  cbn [candidate] in Hi.
  unfold write_data_file. rewrite Hi. simpl.
  eexists _, i. split; [reflexivity|]. simpl.
  split; [done|]. split; [done|]. split; [apply odict_get_set_eq|]. split; [|done].
  intros k v Hk. rewrite odict_get_set_ne; [done|]. intros <-. apply Hfree.
  apply odict_get_Some in Hk. unfold odict_keys. apply list_elem_of_fmap.
  by exists (candidate (anchored_fn cust_anchor fn) i, v).
Qed.

(** X18. With [config.preserve_module_raw_data], the data are saved under a name
    that was not in [report.saved_raw_data], so that nothing saved before
    is replaced, and are sent to [report.write_data_file] under that very
    name. *)
Theorem write_data_file_keeps (fuel : nat) (st : RawData D)
        (data : D) (fn : string) (sort_cols : bool) (data_format : option string) :
  (List.length (report_saved_raw_data st) < fuel)%nat ->
  exists st' i,
    write_data_file cust_anchor true fuel st data fn sort_cols data_format = Some st'
    /\ (candidate (anchored_fn cust_anchor fn) i ∉ odict_keys (report_saved_raw_data st))
    /\ (forall j, (j < i)%nat ->
                  candidate (anchored_fn cust_anchor fn) j ∈ odict_keys (report_saved_raw_data st))
    /\ odict_get (candidate (anchored_fn cust_anchor fn) i) (report_saved_raw_data st') = Some data
    /\ (forall k v, odict_get k (report_saved_raw_data st) = Some v ->
                    odict_get k (report_saved_raw_data st') = Some v)
    /\ written st' = written st ++ [(data, candidate (anchored_fn cust_anchor fn) i, sort_cols, data_format)].
Proof. apply write_data_file_step. Qed.

(** X19. Without [config.preserve_module_raw_data] nothing is saved, so that a
    second call with the same name is sent to [report.write_data_file]
    under the name of the first. *)
Theorem write_data_file_twice_not_preserved (fuel : nat) (st : RawData D)
        (data1 data2 : D) (fn : string) (sort_cols : bool) (data_format : option string) :
  (List.length (report_saved_raw_data st) < fuel)%nat ->
  exists st1 st2 name,
    write_data_file cust_anchor false fuel st data1 fn sort_cols data_format = Some st1
    /\ write_data_file cust_anchor false fuel st1 data2 fn sort_cols data_format = Some st2
    /\ report_saved_raw_data st2 = report_saved_raw_data st
    /\ written st2 = written st ++ [(data1, name, sort_cols, data_format);
                                    (data2, name, sort_cols, data_format)].
Proof.
  intros Hfuel.
  destruct (unique_fn_from (odict_keys (report_saved_raw_data st))
              (anchored_fn cust_anchor fn) fuel 0)
    as (i & Hi & _);
    [intros j Hj; lia | unfold odict_keys; rewrite List.length_map; lia |].
  cbn [candidate] in Hi.
  unfold write_data_file. rewrite Hi. simpl. eexists _, _, (candidate (anchored_fn cust_anchor fn) i).
  split; [reflexivity|]. simpl. rewrite Hi. simpl.
  split; [reflexivity|]. split; [reflexivity|]. by rewrite <- app_assoc.
Qed.

(** X20. With [config.preserve_module_raw_data], a second call with the same
    name is given a name of its own, and the data of both calls are saved. *)
Theorem write_data_file_twice_preserved (fuel : nat) (st : RawData D)
        (data1 data2 : D) (fn : string) (sort_cols : bool) (data_format : option string) :
  (S (List.length (report_saved_raw_data st)) < fuel)%nat ->
  exists st1 st2 name1 name2,
    write_data_file cust_anchor true fuel st data1 fn sort_cols data_format = Some st1
    /\ write_data_file cust_anchor true fuel st1 data2 fn sort_cols data_format = Some st2
    /\ name1 <> name2
    /\ odict_get name1 (report_saved_raw_data st2) = Some data1
    /\ odict_get name2 (report_saved_raw_data st2) = Some data2
    /\ written st2 = written st ++ [(data1, name1, sort_cols, data_format);
                                    (data2, name2, sort_cols, data_format)].
Proof.
  intros Hfuel.
  destruct (write_data_file_step fuel st data1 fn sort_cols data_format)
    as (st1 & i & H1 & Hfree1 & _ & Hget1 & Hkeep1 & Hw1); [lia|].
  assert (Hlen : (List.length (report_saved_raw_data st1) < fuel)%nat).
  { unfold write_data_file in H1.
    destruct (unique_fn _ _ _ _ _) as [name|]; [|discriminate].
    simpl in H1. injection H1 as <-. simpl.
    pose proof (odict_set_length name data1 (report_saved_raw_data st)). lia. }
  destruct (write_data_file_step fuel st1 data2 fn sort_cols data_format Hlen)
    as (st2 & j & H2 & Hfree2 & _ & Hget2 & Hkeep2 & Hw2).
  exists st1, st2, (candidate (anchored_fn cust_anchor fn) i), (candidate (anchored_fn cust_anchor fn) j).
  split; [done|]. split; [done|]. split; [|split; [by apply Hkeep2|split; [done|]]].
  - intros Heq. apply Hfree2. rewrite <- Heq.
    apply odict_get_Some in Hget1. unfold odict_keys. apply list_elem_of_fmap.
    by exists (candidate (anchored_fn cust_anchor fn) i, data1).
  - by rewrite Hw2, Hw1, <- app_assoc.
Qed.

End WriteDataFile.

Lemma write_data_file_keeps_witness :
  exists st' i,
    write_data_file None true 2 stats_saved 2%nat "stats" false None = Some st'
    /\ (candidate "stats" i ∉ ["stats"])
    /\ (forall j, (j < i)%nat -> candidate "stats" j ∈ ["stats"])
    /\ odict_get (candidate "stats" i) (report_saved_raw_data st') = Some 2%nat
    /\ (forall k v, odict_get k [("stats", 1%nat)] = Some v ->
                    odict_get k (report_saved_raw_data st') = Some v)
    /\ written st' = [(1%nat, "stats", false, None);
                      (2%nat, candidate "stats" i, false, None)].
Proof.
  apply (write_data_file_keeps None 2 stats_saved 2%nat "stats" false None). simpl. lia.
Defined.

Lemma write_data_file_twice_not_preserved_witness :
  exists st1 st2 name,
    write_data_file (Some "run2") false 2 stats_saved 2%nat "stats" true None = Some st1
    /\ write_data_file (Some "run2") false 2 st1 3%nat "stats" true None = Some st2
    /\ report_saved_raw_data st2 = [("stats", 1%nat)]
    /\ written st2 = [(1%nat, "stats", false, None); (2%nat, name, true, None);
                      (3%nat, name, true, None)].
Proof.
  apply (write_data_file_twice_not_preserved (Some "run2") 2 stats_saved 2%nat 3%nat
           "stats" true None).
  simpl. lia.
Defined.

Lemma write_data_file_twice_preserved_witness :
  exists st1 st2 name1 name2,
    write_data_file None true 3 stats_saved 2%nat "stats" false None = Some st1
    /\ write_data_file None true 3 st1 3%nat "stats" false None = Some st2
    /\ name1 <> name2
    /\ odict_get name1 (report_saved_raw_data st2) = Some 2%nat
    /\ odict_get name2 (report_saved_raw_data st2) = Some 3%nat
    /\ written st2 = [(1%nat, "stats", false, None); (2%nat, name1, false, None);
                      (3%nat, name2, false, None)].
Proof.
  apply (write_data_file_twice_preserved None 3 stats_saved 2%nat 3%nat "stats" false None).
  simpl. lia.
Defined.

(** ** The General Statistics table *)

Lemma odict_get_app_fresh {K V : Type} `{EqDecision K} (k : K) (v : V)
      (d1 d2 : list (K * V)) :
  k ∉ odict_keys d1 -> odict_get k (d1 ++ (k, v) :: d2) = Some v.
Proof.
  unfold odict_get, odict_keys. induction d1 as [|[k' v'] d1 IH]; simpl; intros Hk.
  - by rewrite bool_decide_eq_true_2.
  - apply not_elem_of_cons in Hk as [Hne Hk].
    rewrite bool_decide_eq_false_2 by congruence. by apply IH.
Qed.

Lemma odict_set_app_fresh {K V : Type} `{EqDecision K} (k : K) (v v' : V)
      (d1 d2 : list (K * V)) :
  k ∉ odict_keys d1 -> odict_set k v' (d1 ++ (k, v) :: d2) = d1 ++ (k, v') :: d2.
Proof.
  unfold odict_keys. induction d1 as [|[k0 v0] d1 IH]; simpl; intros Hk.
  - by rewrite bool_decide_eq_true_2.
  - apply not_elem_of_cons in Hk as [Hne Hk].
    rewrite bool_decide_eq_false_2 by congruence. f_equal. by apply IH.
Qed.

(** A dict built entry after entry from items whose keys differ holds the
    items in their order. *)
Lemma odict_build {K V W : Type} `{EqDecision K} (f : K -> V -> W) (l : list (K * V))
      (acc : list (K * W)) :
  NoDup (odict_keys acc ++ odict_keys l) ->
  List.fold_left (fun d '(k, v) => odict_set k (f k v) d) l acc
  = acc ++ List.map (fun '(k, v) => (k, f k v)) l.
Proof.
  revert acc; induction l as [|[k v] l IH]; simpl; intros acc Hnd.
  - by rewrite app_nil_r.
  - assert (Hfresh : k ∉ odict_keys acc).
    { intros Hin. apply NoDup_app in Hnd as (_ & Hdis & _). apply (Hdis k Hin). left. }
    rewrite odict_set_fresh by done. rewrite IH.
    + by rewrite <- app_assoc.
    + unfold odict_keys in *. rewrite List.map_app, <- app_assoc. exact Hnd.
Qed.

Lemma fold_left_invariant {A S : Type} (P : S -> Prop) (f : S -> A -> S)
      (l : list A) (acc : S) :
  (forall s a, P s -> P (f s a)) -> P acc -> P (List.fold_left f l acc).
Proof.
  intros Hf. revert acc; induction l as [|a l IH]; simpl; intros acc Hacc; [done|].
  by apply IH, Hf.
Qed.

Section Headers.

Variable name : string.

(** The loop over the columns, read as a pass over the items. *)
Lemma header_loop (h2 h1 : list (string * header)) (namespace : value) :
  NoDup (odict_keys h1 ++ odict_keys h2) ->
  (for_each (header_step name) (odict_keys h2) (namespace, h1 ++ h2)
   ≫= fun st => Ok st.2)
  = (done ← completed_headers name namespace h2; Ok (h1 ++ done)).
Proof.
  revert h1 namespace; induction h2 as [|[c h] h2 IH]; intros h1 namespace Hnd.
  - simpl. by rewrite app_nil_r.
  - assert (Hfresh : c ∉ odict_keys h1).
    { intros Hin. apply NoDup_app in Hnd as (_ & Hdis & _). apply (Hdis c Hin). left. }
    cbn [odict_keys List.map fst for_each completed_headers header_step].
    rewrite odict_get_app_fresh by done.
    destruct (completed_header name (namespace_at namespace h) c h) as [h'|e]; [|done].
    cbn -[for_each]. rewrite odict_set_app_fresh by done.
    change (h1 ++ (c, h') :: h2) with (h1 ++ [(c, h')] ++ h2).
    rewrite app_assoc.
    change (List.map fst h2) with (odict_keys h2). rewrite IH.
    + destruct (completed_headers name (namespace_at namespace h) h2); simpl; [|done].
      by rewrite <- app_assoc.
    + unfold odict_keys in *. rewrite List.map_app, <- app_assoc. exact Hnd.
Qed.

(** A header the loop has gone through shows the name of the module,
    followed by the namespace in force when there is one, and has a
    description. *)
Lemma completed_header_Ok (namespace : value) (col_id : string) (h h' : header) :
  completed_header name namespace col_id h = Ok h' ->
  odict_get "namespace" h' = Some (VStr (shown_namespace name namespace))
  /\ is_Some (odict_get "description" h').
Proof.
  unfold completed_header. intros H. apply bind_Ok in H as (h1 & H1 & H).
  assert (Hns : odict_get "namespace" h1 = Some (VStr (shown_namespace name namespace))).
  { destruct (truthy namespace) eqn:Ht.
    - destruct namespace as [| | |s|]; try discriminate. injection H1 as <-.
      rewrite odict_get_set_eq. simpl in *. by destruct (String.eqb s "").
    - injection H1 as <-. rewrite odict_get_set_eq. do 2 f_equal.
      destruct namespace as [| | |s|]; try reflexivity. simpl in *.
      by destruct (String.eqb s ""). }
  case_bool_decide as Hd; injection H as <-.
  - split; [done|]. destruct (odict_get "description" h1) as [v|] eqn:E; [eauto|].
    by apply odict_get_None in E.
  - rewrite odict_get_set_ne by done. rewrite odict_get_set_eq. eauto.
Qed.

(** The pass over the items keeps the columns and their order, and gives
    each the namespace in force at its place. *)
Lemma completed_headers_Ok (namespace : value) (hs done : list (string * header)) :
  completed_headers name namespace hs = Ok done ->
  odict_keys done = odict_keys hs
  /\ forall pre c h post,
       hs = pre ++ (c, h) :: post ->
       exists h',
         (c, h') ∈ done
         /\ completed_header name
              (List.fold_left namespace_at (List.map snd pre ++ [h]) namespace) c h
            = Ok h'.
Proof.
  revert namespace done; induction hs as [|[c0 h0] hs IH]; intros namespace done H.
  - injection H as <-. split; [done|]. intros pre c h post Heq. by destruct pre.
  - cbn [completed_headers] in H. apply bind_Ok in H as (h0' & H0 & H).
    apply bind_Ok in H as (rest & Hrest & H). injection H as <-.
    destruct (IH _ _ Hrest) as [Hkeys Hat]. split.
    + unfold odict_keys in *. simpl. by rewrite Hkeys.
    + intros pre c h post Heq. destruct pre as [|[c1 h1] pre].
      * injection Heq as -> -> ->. exists h0'. split; [left | done].
      * injection Heq as -> -> ->. destruct (Hat pre c h post eq_refl) as (h' & Hin & Hc).
        exists h'. split; [by right | done].
Qed.

End Headers.

(** The copy of a dict of headers is the dict. *)
Lemma copied_headers_id (headers : list (string * header)) :
  NoDup (odict_keys headers) ->
  Forall (fun ch : string * header => NoDup (odict_keys ch.2)) headers ->
  copied_headers headers = headers.
Proof.
  intros Hnd Hall. unfold copied_headers.
  transitivity ([] ++ List.map (fun '(k, v) => (k, (fun (_ : string) (c : header) =>
                    List.fold_left (fun c '(k, v) => odict_set k v c) c []) k v)) headers).
  { by apply (odict_build (fun (_ : string) (c : header) =>
                             List.fold_left (fun c '(k, v) => odict_set k v c) c [])). }
  simpl. clear Hnd. induction Hall as [|[c h] headers Hh _ IH]; simpl; [done|].
  rewrite IH. do 2 f_equal.
  transitivity ([] ++ List.map (fun '(k, v) => (k, (fun (_ : string) (v : value) => v) k v)) h).
  { by apply (odict_build (fun (_ : string) (v : value) => v)). }
  simpl. clear. induction h as [|[k v] h IH]; simpl; congruence.
Qed.

Lemma copied_headers_NoDup (headers : list (string * header)) :
  NoDup (odict_keys (copied_headers headers)).
Proof.
  unfold copied_headers. apply (fold_left_invariant (fun d => NoDup (odict_keys d))).
  - intros d [c h] Hd. by apply odict_set_NoDup.
  - constructor.
Qed.

Lemma guessed_headers_NoDup (rows : list (string * list InputRowT)) :
  NoDup (odict_keys (guessed_headers rows)).
Proof.
  unfold guessed_headers. apply (fold_left_invariant (fun d => NoDup (odict_keys d))).
  - intros d c Hd. by apply odict_set_NoDup.
  - constructor.
Qed.

(** What [general_stats_addcols] returns when the module is not left out
    of the table: the rows and the headers it has made are put at the end
    of the two lists of the report. *)
Lemma general_stats_addcols_Ok (name anchor : string) (config : Config)
      (report report' : GeneralStats)
      (data_by_sample : list (string * gmap string value))
      (headers : option (list (string * header))) (namespace : value)
      (group_samples_config : SampleGroupingConfig) :
  general_stats_addcols name anchor false config report data_by_sample headers namespace
    group_samples_config = Ok report' ->
  exists rows_by_group done,
    match generalstats_sample_merge_groups config with
    | _ :: _ =>
        group_samples_and_average_metrics anchor config
          (list_to_map data_by_sample) group_samples_config
    | [] => Ok (ungrouped_rows data_by_sample)
    end = Ok rows_by_group
    /\ completed_headers name namespace
         match headers with
         | None | Some [] => guessed_headers rows_by_group
         | Some headers => copied_headers headers
         end = Ok done
    /\ NoDup (odict_keys done)
    /\ report' = {| general_stats_data := general_stats_data report ++ [rows_by_group];
                    general_stats_headers := general_stats_headers report ++ [done] |}.
Proof.
  unfold general_stats_addcols. intros H.
  apply bind_Ok in H as (rows_by_group & Hrows & H).
  apply bind_Ok in H as ([namespace' done] & Hloop & H). injection H as <-.
  exists rows_by_group, done. split; [done|].
  set (_headers := match headers with
                   | None | Some [] => guessed_headers rows_by_group
                   | Some headers => copied_headers headers
                   end) in *.
  assert (Hnd : NoDup (odict_keys _headers)).
  { subst _headers. destruct headers as [[|ch headers]|];
      [apply guessed_headers_NoDup | apply copied_headers_NoDup | apply guessed_headers_NoDup]. }
  pose proof (header_loop name _headers [] namespace Hnd) as Heq.
  simpl in Heq. rewrite Hloop in Heq. simpl in Heq.
  destruct (completed_headers name namespace _headers) as [done'|e] eqn:E; [|done].
  injection Heq as ->. split; [done|]. split; [|done].
  apply completed_headers_Ok in E as [-> _]. exact Hnd.
Qed.

Lemma completed_headers_elem (name : string) (namespace : value)
      (hs done : list (string * header)) (c : string) (h' : header) :
  completed_headers name namespace hs = Ok done -> (c, h') ∈ done ->
  exists namespace' h, completed_header name namespace' c h = Ok h'.
Proof.
  revert namespace done; induction hs as [|[c0 h0] hs IH]; intros namespace done H Hin.
  - injection H as <-. by apply elem_of_nil in Hin.
  - cbn [completed_headers] in H. apply bind_Ok in H as (h0' & H0 & H).
    apply bind_Ok in H as (rest & Hrest & H). injection H as <-.
    apply elem_of_cons in Hin as [[= -> ->] | Hin]; [eauto|].
    by apply (IH _ _ Hrest).
Qed.

Lemma shown_namespace_prefix (name : string) (namespace : value) :
  String.prefix name (shown_namespace name namespace) = true.
Proof.
  destruct namespace as [| | |s|]; simpl; try apply prefix_refl.
  destruct (String.eqb s ""); [apply prefix_refl | apply prefix_app, prefix_refl].
Qed.

(** X21. A call that returns, for a module that is not left out of the table,
    adds one element to each of the two lists of the report, which so stay
    of one length; in the headers added, every column has a namespace, which
    is a string that starts with the name of the module, and a
    description. *)
Theorem general_stats_addcols_headers (name anchor : string) (config : Config)
        (report report' : GeneralStats)
        (data_by_sample : list (string * gmap string value))
        (headers : option (list (string * header))) (namespace : value)
        (group_samples_config : SampleGroupingConfig) :
  general_stats_addcols name anchor false config report data_by_sample headers namespace
    group_samples_config = Ok report' ->
  exists rows_by_group _headers,
    general_stats_data report' = general_stats_data report ++ [rows_by_group]
    /\ general_stats_headers report' = general_stats_headers report ++ [_headers]
    /\ NoDup (odict_keys _headers)
    /\ forall col_id h,
         (col_id, h) ∈ _headers ->
         (exists s, odict_get "namespace" h = Some (VStr s) /\ String.prefix name s = true)
         /\ is_Some (odict_get "description" h).
Proof.
  intros H. apply general_stats_addcols_Ok in H as (rows & done & _ & Hdone & Hnd & ->).
  exists rows, done. split; [done|]. split; [done|]. split; [done|].
  intros c h Hin.
  destruct (completed_headers_elem _ _ _ _ _ _ Hdone Hin) as (ns & h0 & Hc).
  apply completed_header_Ok in Hc as [Hns Hdesc]. split; [|done].
  eexists. split; [exact Hns | apply shown_namespace_prefix].
Qed.

(** X22. The namespace of a column goes on to the columns after it: a column is
    shown with the namespace of the last column, up to itself, whose
    header has one, and with the namespace given to the call when there is
    no such column. *)
Theorem namespace_carried_over (name anchor : string) (config : Config)
        (report report' : GeneralStats)
        (data_by_sample : list (string * gmap string value))
        (pre post : list (string * header)) (col_id : string) (h : header)
        (namespace : value) (group_samples_config : SampleGroupingConfig) :
  NoDup (odict_keys (pre ++ (col_id, h) :: post)) ->
  Forall (fun ch : string * header => NoDup (odict_keys ch.2)) (pre ++ (col_id, h) :: post) ->
  general_stats_addcols name anchor false config report data_by_sample
    (Some (pre ++ (col_id, h) :: post)) namespace group_samples_config = Ok report' ->
  exists _headers h',
    general_stats_headers report' = general_stats_headers report ++ [_headers]
    /\ odict_get col_id _headers = Some h'
    /\ odict_get "namespace" h'
       = Some (VStr (shown_namespace name
                       (List.fold_left namespace_at (List.map snd pre ++ [h]) namespace))).
Proof.
  intros Hnd Hall H.
  apply general_stats_addcols_Ok in H as (rows & done & _ & Hdone & Hnd' & ->).
  assert (Hcopy : match Some (pre ++ (col_id, h) :: post) with
                  | None | Some [] => guessed_headers rows
                  | Some headers => copied_headers headers
                  end = pre ++ (col_id, h) :: post).
  { rewrite <- (copied_headers_id (pre ++ (col_id, h) :: post)) at 2 by done.
    by destruct pre. }
  rewrite Hcopy in Hdone.
  destruct (completed_headers_Ok _ _ _ _ Hdone) as [_ Hat].
  destruct (Hat pre col_id h post eq_refl) as (h' & Hin & Hc).
  exists done, h'. split; [done|]. split; [by apply odict_get_NoDup|].
  by apply completed_header_Ok in Hc as [Hns _].
Qed.

Lemma general_stats_addcols_headers_witness :
  exists rows_by_group _headers,
    general_stats_data coverage_stats = general_stats_data empty_stats ++ [rows_by_group]
    /\ general_stats_headers coverage_stats
       = general_stats_headers empty_stats ++ [_headers]
    /\ NoDup (odict_keys _headers)
    /\ forall col_id h,
         (col_id, h) ∈ _headers ->
         (exists s, odict_get "namespace" h = Some (VStr s)
                    /\ String.prefix "Bowtie 2" s = true)
         /\ is_Some (odict_get "description" h).
Proof.
  apply (general_stats_addcols_headers "Bowtie 2" "bowtie2" fastq_config empty_stats
           coverage_stats coverage_items None VNone coverage_policy).
  vm_compute. reflexivity.
Defined.

Lemma namespace_carried_over_witness :
  exists _headers h',
    general_stats_headers alignment_stats = general_stats_headers empty_stats ++ [_headers]
    /\ odict_get "reads" _headers = Some h'
    /\ odict_get "namespace" h' = Some (VStr "Bowtie 2: alignment").
Proof.
  apply (namespace_carried_over "Bowtie 2" "bowtie2" fastq_config empty_stats
           alignment_stats coverage_items
           [("cov", [("namespace", VStr "alignment")])] [] "reads" [("title", VStr "Reads")]
           VNone coverage_policy).
  - apply (bool_decide_unpack _). vm_compute. reflexivity.
  - repeat constructor; apply (bool_decide_unpack _); vm_compute; reflexivity.
  - vm_compute. reflexivity.
Defined.

(** *** A call with no header and no group of samples *)

Lemma ungrouped_rows_map (data_by_sample : list (string * gmap string value)) :
  NoDup (odict_keys data_by_sample) ->
  ungrouped_rows data_by_sample
  = List.map (fun '(s, d) => (s, [{| sample := s; data := d |}])) data_by_sample.
Proof.
  intros Hnd. unfold ungrouped_rows.
  transitivity
    ([] ++ List.map
             (fun '(k, v) =>
                (k, (fun (s : string) (d : gmap string value) =>
                       [{| sample := s;
                           data := filter (fun kv : string * value =>
                                             is_cell_value kv.2 = true) d |}]) k v))
             data_by_sample).
  { by apply (odict_build
                (fun (s : string) (d : gmap string value) =>
                   [{| sample := s;
                       data := filter (fun kv : string * value =>
                                         is_cell_value kv.2 = true) d |}])). }
  simpl. apply List.map_ext. intros [s d]. do 3 f_equal.
  apply map_filter_id. intros k v _. by destruct v.
Qed.

Lemma column_ids_elem (rows_by_group : list (string * list InputRowT)) (c : string) :
  c ∈ column_ids rows_by_group
  <-> exists g rows row,
        (g, rows) ∈ rows_by_group /\ row ∈ rows /\ is_Some (data row !! c).
Proof.
  unfold column_ids.
  assert (Hrows : forall (rows : list InputRowT) (ids : gset string),
             c ∈ List.fold_left (fun ids (row : InputRowT) => ids ∪ dom (data row)) rows ids
             <-> c ∈ ids \/ exists row, row ∈ rows /\ is_Some (data row !! c)).
  { induction rows as [|row rows IH]; simpl; intros ids.
    - split; [auto | intros [H | (row & Hrow & _)]; [done | by apply elem_of_nil in Hrow]].
    - rewrite IH, elem_of_union, elem_of_dom. split.
      + intros [[H | H] | (row' & Hrow' & H)]; [auto | right | right].
        * exists row. split; [left | done].
        * exists row'. split; [by right | done].
      + intros [H | (row' & Hrow' & H)]; [auto|].
        apply elem_of_cons in Hrow' as [-> | Hrow']; [auto | right; eauto]. }
  assert (Hall : forall (l : list (string * list InputRowT)) (ids : gset string),
             c ∈ List.fold_left
                   (fun ids '(_, rows) =>
                      List.fold_left (fun ids (row : InputRowT) => ids ∪ dom (data row))
                                     rows ids) l ids
             <-> c ∈ ids \/ exists g rows row,
                   (g, rows) ∈ l /\ row ∈ rows /\ is_Some (data row !! c)).
  { induction l as [|[g rows] l IH]; simpl; intros ids.
    - split; [auto | intros [H | (g & rows & row & Hin & _)];
                       [done | by apply elem_of_nil in Hin]].
    - rewrite IH, Hrows. split.
      + intros [[H | (row & Hrow & H)] | (g' & rows' & row & Hin & Hrow & H)];
          [auto | right | right].
        * exists g, rows, row. split; [left | done].
        * exists g', rows', row. split; [by right | done].
      + intros [H | (g' & rows' & row & Hin & Hrow & H)]; [auto|].
        apply elem_of_cons in Hin as [[= -> ->] | Hin]; [left; right; eauto|].
        right. eauto 6. }
  rewrite Hall. split; [intros [H | H]; [by apply elem_of_empty in H | done] | auto].
Qed.

Lemma guessed_build (cols : list string) (acc : list (string * header)) :
  NoDup (odict_keys acc ++ cols) ->
  List.fold_left (fun _headers col_id => odict_set col_id [] _headers) cols acc
  = acc ++ List.map (fun c => (c, [] : header)) cols.
Proof.
  revert acc; induction cols as [|c cols IH]; simpl; intros acc Hnd.
  - by rewrite app_nil_r.
  - assert (Hfresh : c ∉ odict_keys acc).
    { intros Hin. apply NoDup_app in Hnd as (_ & Hdis & _). apply (Hdis c Hin). left. }
    rewrite odict_set_fresh by done. rewrite IH.
    + by rewrite <- app_assoc.
    + unfold odict_keys in *. rewrite List.map_app, <- app_assoc. exact Hnd.
Qed.

Lemma completed_guessed (name : string) (namespace : value) (cols : list string) :
  truthy namespace = false \/ (exists s, namespace = VStr s) ->
  completed_headers name namespace (List.map (fun c => (c, [] : header)) cols)
  = Ok (List.map
          (fun c => (c, [("namespace", VStr (shown_namespace name namespace));
                         ("description", VStr c)]))
          cols).
Proof.
  intros Hns. induction cols as [|c cols IH]; [reflexivity|].
  cbn [List.map completed_headers].
  change (namespace_at namespace []) with namespace. rewrite IH.
  assert (Hc : completed_header name namespace c []
               = Ok [("namespace", VStr (shown_namespace name namespace));
                     ("description", VStr c)]).
  { unfold completed_header. destruct (truthy namespace) eqn:Ht.
    - destruct Hns as [Hns | [s ->]]; [done|]. simpl in *.
      by destruct (String.eqb s "").
    - destruct namespace as [| | |s|]; try reflexivity. simpl in *.
      by destruct (String.eqb s ""). }
  by rewrite Hc.
Qed.

(** X23. A call that gives no header, when no group of samples is configured,
    returns: every sample is a group of one row that holds its data, and the
    columns of the headers are the columns of the rows, sorted, each with
    the name of the module as namespace (followed by the namespace of the
    call when there is one) and with its own name as description. *)
Theorem general_stats_addcols_default (name anchor : string) (config : Config)
        (report : GeneralStats) (data_by_sample : list (string * gmap string value))
        (namespace : value) (group_samples_config : SampleGroupingConfig) :
  generalstats_sample_merge_groups config = [] ->
  NoDup (odict_keys data_by_sample) ->
  truthy namespace = false \/ (exists s, namespace = VStr s) ->
  exists cols,
    general_stats_addcols name anchor false config report data_by_sample None namespace
      group_samples_config
    = Ok {| general_stats_data :=
              general_stats_data report
              ++ [List.map (fun '(s, d) => (s, [{| sample := s; data := d |}]))
                           data_by_sample];
            general_stats_headers :=
              general_stats_headers report
              ++ [List.map
                    (fun c => (c, [("namespace", VStr (shown_namespace name namespace));
                                   ("description", VStr c)]))
                    cols] |}
    /\ Sorted String.le cols
    /\ NoDup cols
    /\ forall c, c ∈ cols <-> exists s d, (s, d) ∈ data_by_sample /\ is_Some (d !! c).
Proof.
  intros Hgroups Hnd Hns.
  set (rows := List.map (fun '(s, d) => (s, [{| sample := s; data := d |}])) data_by_sample).
  set (cols := merge_sort String.le (elements (column_ids rows))).
  assert (Hcols : NoDup cols).
  { subst cols. rewrite merge_sort_Permutation. apply NoDup_elements. }
  exists cols. split; [|split; [apply Sorted_merge_sort, _|split; [done|]]].
  - unfold general_stats_addcols. rewrite Hgroups. simpl.
    rewrite ungrouped_rows_map by done. fold rows.
    unfold guessed_headers. fold cols. rewrite guessed_build by done. simpl.
    assert (Hk : odict_keys (List.map (fun c => (c, [] : header)) cols) = cols).
    { unfold odict_keys. rewrite List.map_map. apply List.map_id. }
    pose proof (header_loop name (List.map (fun c => (c, [] : header)) cols) [] namespace)
      as Hloop.
    rewrite Hk in *. specialize (Hloop Hcols).
    rewrite completed_guessed in Hloop by done. simpl in Hloop.
    destruct (for_each (header_step name) cols _) as [[namespace' done]|e];
      simpl in Hloop; [|discriminate].
    injection Hloop as ->. reflexivity.
  - intros c. subst cols. rewrite merge_sort_Permutation, elem_of_elements, column_ids_elem.
    subst rows. split.
    + intros (g & rs & row & Hin & Hrow & Hc).
      apply list_elem_of_fmap in Hin as ([s d] & [= -> ->] & Hin).
      apply list_elem_of_singleton in Hrow as ->. eauto.
    + intros (s & d & Hin & Hc).
      exists s, [{| sample := s; data := d |}], {| sample := s; data := d |}.
      split; [|split; [left | done]].
      apply list_elem_of_fmap. by exists (s, d).
Qed.

Lemma general_stats_addcols_default_witness :
  exists cols,
    general_stats_addcols "Bowtie 2" "bowtie2" false fastq_config empty_stats coverage_items
      None VNone coverage_policy
    = Ok {| general_stats_data :=
              [List.map (fun '(s, d) => (s, [{| sample := s; data := d |}]))
                        coverage_items];
            general_stats_headers :=
              [List.map (fun c => (c, [("namespace", VStr "Bowtie 2");
                                       ("description", VStr c)]))
                        cols] |}
    /\ Sorted String.le cols
    /\ NoDup cols
    /\ forall c, c ∈ cols <-> exists s d, (s, d) ∈ coverage_items /\ is_Some (d !! c).
Proof.
  apply (general_stats_addcols_default "Bowtie 2" "bowtie2" fastq_config empty_stats
           coverage_items VNone coverage_policy).
  - reflexivity.
  - apply (bool_decide_unpack _). vm_compute. reflexivity.
  - left. reflexivity.
Defined.

(** ** The RSeQC module *)

Lemma sum_values_from (l : list Z) (a : Z) :
  List.fold_left Z.add l a = (a + List.fold_left Z.add l 0)%Z.
Proof.
  revert a; induction l as [|x l IH]; intros a; [simpl; lia|].
  cbn [List.fold_left]. rewrite (IH (a + x)%Z), (IH (0 + x)%Z). lia.
Qed.

(** A sum of counts is zero when every count is. *)
Lemma sum_values_zero (n : list (string * Z)) :
  (forall k v, (k, v) ∈ n -> (0 <= v)%Z) ->
  sum_values n = 0%Z <-> forall k v, (k, v) ∈ n -> v = 0%Z.
Proof.
  unfold sum_values. induction n as [|[k v] n IH]; intros Hpos.
  - split; [intros _ k v Hin; by apply elem_of_nil in Hin | done].
  - cbn [List.map List.fold_left snd]. rewrite sum_values_from.
    assert (Hv : (0 <= v)%Z) by (apply (Hpos k); left).
    assert (Hn : forall k' v', (k', v') ∈ n -> (0 <= v')%Z)
      by (intros k' v' Hin; apply (Hpos k'); by right).
    assert (Hsum : (0 <= List.fold_left Z.add (List.map snd n) 0)%Z).
    { clear -Hn. induction n as [|[k v] n IH]; [simpl; lia|].
      cbn [List.map List.fold_left snd]. rewrite sum_values_from.
      assert (0 <= v)%Z by (apply (Hn k); left).
      assert (0 <= List.fold_left Z.add (List.map snd n) 0)%Z
        by (apply IH; intros k' v' Hin; apply (Hn k'); by right).
      lia. }
    specialize (IH Hn). split.
    + intros H k' v' Hin. apply elem_of_cons in Hin as [[= -> ->] | Hin]; [lia|].
      apply (proj1 IH) with k'; [lia | done].
    + intros H. rewrite (H k v) by left.
      rewrite (proj2 IH); [done|]. intros k' v' Hin. apply (H k'). by right.
Qed.

Section RSeQCFacts.

Variable St : Type.
Variable parse_reports : string -> St -> St * parsed.

(** What a section comes to does not depend on the state of the module, and
    is a number of reports that is not negative when it is a number. *)
Variable outcome : string -> parsed.
Hypothesis parse_outcome : forall sm self, (parse_reports sm self).2 = outcome sm.
Hypothesis counts_positive : forall sm k, outcome sm = Count k -> (0 <= k)%Z.

(** A count is kept when its section is not gone through again. *)
Lemma call_submodules_keeps (sections : list string) (self self' : St)
      (n n' : list (string * Z)) (k : string) (v : Z) :
  call_submodules St parse_reports sections self n = inl (self', n') ->
  k ∉ sections -> odict_get k n = Some v -> odict_get k n' = Some v.
Proof.
  revert self n; induction sections as [|sm sections IH]; simpl; intros self n H Hk Hget.
  - by injection H as <- <-.
  - apply not_elem_of_cons in Hk as [Hne Hk].
    destruct (parse_reports sm self) as [self1 [c | | e]]; [| |done].
    + apply (IH _ _ H Hk). by rewrite odict_get_set_ne.
    + by apply (IH _ _ H Hk).
Qed.

Lemma call_submodules_counts (sections : list string) (self self' : St)
      (n n' : list (string * Z)) :
  call_submodules St parse_reports sections self n = inl (self', n') ->
  (forall k v, (k, v) ∈ n -> outcome k = Count v) ->
  (forall k v, (k, v) ∈ n' -> outcome k = Count v)
  /\ (forall sm v, sm ∈ sections -> outcome sm = Count v -> (sm, v) ∈ n')
  /\ (forall sm, sm ∈ sections -> exists v, outcome sm = Count v \/ outcome sm = Missing).
Proof.
  revert self n; induction sections as [|sm sections IH]; simpl; intros self n H Hn.
  - injection H as <- <-. split; [done|].
    split; [intros sm v Hin; by apply elem_of_nil in Hin
           | intros sm Hin; by apply elem_of_nil in Hin].
  - pose proof (parse_outcome sm self) as Hsm.
    destruct (parse_reports sm self) as [self1 [k | | e]]; simpl in Hsm; [| |done].
    + assert (Hn1 : forall k' v, (k', v) ∈ odict_set sm k n -> outcome k' = Count v).
      { intros k' v Hin. apply odict_set_elem in Hin as [[= -> ->] | Hin]; [done|].
        by apply Hn. }
      destruct (IH _ _ H Hn1) as (H1 & H2 & H3). split; [done|]. split.
      * intros sm' v Hin Hv. apply elem_of_cons in Hin as [-> | Hin]; [|by apply H2].
        destruct (decide (sm ∈ sections)) as [Hs | Hs]; [by apply H2|].
        rewrite <- Hsm in Hv. injection Hv as <-. apply odict_get_Some.
        eapply call_submodules_keeps; [exact H | done | apply odict_get_set_eq].
      * intros sm' Hin. apply elem_of_cons in Hin as [-> | Hin]; [eauto | by apply H3].
    + destruct (IH _ _ H Hn) as (H1 & H2 & H3). split; [done|]. split.
      * intros sm' v Hin Hv. apply elem_of_cons in Hin as [-> | Hin]; [|by apply H2].
        congruence.
      * intros sm' Hin. apply elem_of_cons in Hin as [-> | Hin]; [|by apply H3].
        exists 0%Z. by right.
Qed.

Lemma call_submodules_keys (sections : list string) (self self' : St)
      (n n' : list (string * Z)) (k : string) (v : Z) :
  call_submodules St parse_reports sections self n = inl (self', n') ->
  (k, v) ∈ n' -> (k, v) ∈ n \/ k ∈ sections.
Proof.
  revert self n; induction sections as [|sm sections IH]; simpl; intros self n H Hin.
  - injection H as <- <-. by left.
  - destruct (parse_reports sm self) as [self1 [c | | e]]; [| |done].
    + destruct (IH _ _ H Hin) as [Hn | Hs]; [|right; by right].
      apply odict_set_elem in Hn as [[= -> ->] | Hn]; [right; left | by left].
    + destruct (IH _ _ H Hin) as [Hn | Hs]; [by left | right; by right].
Qed.

Lemma call_submodules_returns (sections : list string) (self : St)
      (n : list (string * Z)) :
  (forall sm e, sm ∈ sections -> outcome sm <> Failed e) ->
  exists self' n', call_submodules St parse_reports sections self n = inl (self', n').
Proof.
  revert self n; induction sections as [|sm sections IH]; simpl; intros self n Hok;
    [eauto|].
  pose proof (parse_outcome sm self) as Hsm.
  assert (Hrest : forall sm' e, sm' ∈ sections -> outcome sm' <> Failed e)
    by (intros sm' e Hin; apply Hok; by right).
  destruct (parse_reports sm self) as [self1 [c | | e]]; simpl in Hsm;
    [by apply IH | by apply IH |].
  exfalso. by apply (Hok sm e); [left|].
Qed.

(** X24. When no submodule raises an exception that the loop does not catch,
    the initialiser raises [ModuleNoSamplesFound] exactly when no section
    that is gone through has parsed a report: each is missing or has
    counted none. The sections gone through are those of the configuration,
    or the ten default ones when it names none. *)
Theorem rseqc_no_samples_found (rseqc_sections : option (list string)) (self : St) :
  (forall sm e, sm ∈ sections_used rseqc_sections -> outcome sm <> Failed e) ->
  rseqc_initialise St parse_reports rseqc_sections self = ModuleNoSamplesFound
  <-> forall sm, sm ∈ sections_used rseqc_sections ->
                 outcome sm = Count 0 \/ outcome sm = Missing.
Proof.
  intros Hok. unfold rseqc_initialise.
  destruct (call_submodules_returns (sections_used rseqc_sections) self [] Hok)
    as (self' & n' & Hcall).
  rewrite Hcall.
  destruct (call_submodules_counts _ _ _ _ _ Hcall) as (Hn' & Hin & Hall);
    [intros k v Hk; by apply elem_of_nil in Hk|].
  assert (Hzero : sum_values n' = 0%Z <-> forall k v, (k, v) ∈ n' -> v = 0%Z).
  { apply sum_values_zero. intros k v Hk. apply (counts_positive k). by apply Hn'. }
  destruct (sum_values n' =? 0)%Z eqn:E.
  - apply Z.eqb_eq in E. split; [|done]. intros _ sm Hsm.
    destruct (Hall sm Hsm) as [v [Hv | Hv]]; [|by right].
    left. rewrite Hv. f_equal. apply (proj1 Hzero E sm). by apply Hin.
  - apply Z.eqb_neq in E. split; [done|]. intros Hnone. exfalso. apply E, Hzero.
    intros k v Hk.
    destruct (call_submodules_keys _ _ _ _ _ _ _ Hcall Hk) as [Hnil | Hs];
      [by apply elem_of_nil in Hnil|].
    apply Hn' in Hk. destruct (Hnone k Hs) as [H0 | Hm]; congruence.
Qed.

End RSeQCFacts.

Lemma rseqc_no_samples_found_witness :
  rseqc_initialise unit (fun sm self => (self, only_bam_stat sm)) None tt
  = ModuleNoSamplesFound
  <-> forall sm, sm ∈ sections_used None -> only_bam_stat sm = Count 0 \/ only_bam_stat sm = Missing.
Proof.
  apply (rseqc_no_samples_found unit (fun sm self => (self, only_bam_stat sm)) only_bam_stat).
  - reflexivity.
  - intros sm k. unfold only_bam_stat. destruct (String.eqb sm "bam_stat"); [|discriminate].
    intros [= <-]. lia.
  - intros sm e _. unfold only_bam_stat. by destruct (String.eqb sm "bam_stat").
Defined.

(** ** The aggregation when no label is configured *)

Section WithoutGroups.

Variable anchor : string.
Variable config : Config.
Variable data_by_sample : gmap string (gmap string value).
Variable grouping_config : SampleGroupingConfig.

(** A group of one member gives the row of the member. *)
Lemma group_step_single (acc : list (string * list InputRowT)) (s : string)
      (row : gmap string value) :
  data_by_sample !! s = Some row ->
  group_step data_by_sample grouping_config acc (s, [(None, s, s)])
  = Ok (odict_set s [{| sample := s; data := row |}] acc).
Proof.
  intros Hrow. unfold group_step, output_key, group_rows, row_of. simpl.
  by rewrite Hrow.
Qed.

(** The loop over groups of one member each. *)
Lemma singles_loop (l : list string) (acc : list (string * list InputRowT)) :
  NoDup (odict_keys acc ++ l) ->
  (forall s, s ∈ l -> is_Some (data_by_sample !! s)) ->
  for_each (group_step data_by_sample grouping_config)
           (List.map (fun s => (s, [(None, s, s) : member])) l) acc
  = Ok (acc ++ List.map
                 (fun s => (s, [{| sample := s;
                                   data := default ∅ (data_by_sample !! s) |}])) l).
Proof.
  revert acc; induction l as [|s l IH]; intros acc Hnd Hin.
  - simpl. by rewrite app_nil_r.
  - assert (Hfresh : s ∉ odict_keys acc).
    { intros Hs. apply NoDup_app in Hnd as (_ & Hdis & _). apply (Hdis s Hs). left. }
    destruct (Hin s) as [row Hrow]; [left|].
    cbn [List.map for_each]. rewrite (group_step_single _ _ _ Hrow).
    cbn [mbind result_bind]. rewrite Hrow. cbn [default].
    rewrite odict_set_fresh by done. rewrite IH.
    + by rewrite <- app_assoc.
    + unfold odict_keys in *. rewrite List.map_app, <- app_assoc. exact Hnd.
    + intros s' Hs'. apply Hin. by right.
Qed.

(** X7. Without [generalstats_sample_merge_groups] the aggregation returns,
    whatever the policy and the values: the keys are the names of the
    samples, sorted, and each sample has one row, which holds its name and
    its data as they were given. *)
Theorem aggregation_without_groups :
  generalstats_sample_merge_groups config = [] ->
  exists rows_by_grouped_samples,
    group_samples_and_average_metrics anchor config data_by_sample grouping_config
    = Ok rows_by_grouped_samples
    /\ odict_keys rows_by_grouped_samples
       = merge_sort String.le (elements (dom data_by_sample))
    /\ forall s row,
         data_by_sample !! s = Some row ->
         odict_get s rows_by_grouped_samples = Some [{| sample := s; data := row |}].
Proof.
  intros Hgroups. unfold group_samples_and_average_metrics.
  rewrite (no_merge_groups_singletons anchor config Hgroups) by apply NoDup_elements.
  simpl.
  assert (Hnd : NoDup (merge_sort String.le (elements (dom data_by_sample))))
    by (rewrite merge_sort_Permutation; apply NoDup_elements).
  rewrite singles_loop; [|done|].
  - eexists. split; [reflexivity|]. simpl. split.
    + unfold odict_keys. rewrite List.map_map. apply List.map_id.
    + intros s row Hrow. apply odict_get_NoDup.
      * unfold odict_keys. rewrite List.map_map. simpl. by rewrite List.map_id.
      * apply list_elem_of_fmap. exists s. rewrite Hrow. split; [done|].
        rewrite merge_sort_Permutation. apply elem_of_elements, elem_of_dom. eauto.
  - intros s Hs. rewrite merge_sort_Permutation in Hs.
    by apply elem_of_elements, elem_of_dom in Hs.
Qed.

End WithoutGroups.

Lemma aggregation_without_groups_witness :
  exists rows_by_grouped_samples,
    group_samples_and_average_metrics "bowtie2" fastq_config coverage_data overlap_policy
    = Ok rows_by_grouped_samples
    /\ odict_keys rows_by_grouped_samples
       = merge_sort String.le (elements (dom coverage_data))
    /\ forall s row,
         coverage_data !! s = Some row ->
         odict_get s rows_by_grouped_samples = Some [{| sample := s; data := row |}].
Proof.
  apply (aggregation_without_groups "bowtie2" fastq_config coverage_data overlap_policy).
  reflexivity.
Defined.
